(** * colour.plotting: a shallow embedding of the plotting helpers

    The development embeds the control logic of [colour/plotting/plots.py]
    and [colour/plotting/characterization.py]: the display helper, the
    [figure_size] decorator, the name lookups, the colour swatch grid and
    the spectral locus with its wavelength labels.

    Conventions.
    - The rendering backend (pylab / matplotlib) is a log of the calls made
      to it, kept in a [world] together with [rcParams['figure.figsize']].
    - A Python function that draws is a computation in [M]: it takes a
      [world], returns a value or raises, and always returns the new world
      (what was drawn before an exception stays drawn).
    - Python floats are idealised as exact numbers: rationals [Q] where the
      code only adds, subtracts and multiplies them (the swatch grid), and
      [npfloat] (a real, an infinity or nan) for numpy's float64, where the
      code takes a Euclidean norm and may divide by zero (label placement).
      Rounding is not modelled.
    - The modules are Python 2 modules: [plots.py] calls the builtin
      [reduce] and converts with [float(...)] before it divides two ints
      (line 1342); of the two only [characterization.py] starts with
      [from __future__ import division]. *)

From Stdlib Require Import ZArith QArith Reals Lra Lia Psatz.
From Stdlib Require Import List String Ascii Bool.
From Equations Require Import Equations.
Import ListNotations.

Set Implicit Arguments.
Local Open Scope string_scope.
Local Open Scope list_scope.
Local Open Scope Z_scope.

(** ** Python values, exceptions and dictionaries *)

#[warnings="-register-all"]
Inductive pyval : Type :=
| PNone
| PBool (b : bool)
| PInt (z : Z)
| PFloat (q : Q)
| PStr (s : string)
| PTuple (l : list pyval).

Definition is_None (v : pyval) : bool :=
  match v with PNone => true | _ => false end.

(** Python truth value testing, as [if v:] and [v and f()] use it. *)
Definition truthy (v : pyval) : bool :=
  match v with
  | PNone => false
  | PBool b => b
  | PInt z => negb (z =? 0)
  | PFloat q => negb (Qeq_bool q 0)
  | PStr s => negb (String.eqb s EmptyString)
  | PTuple l => match l with [] => false | _ => true end
  end.

(** The message of a lookup error is [template.format(args)]; the template
    and its arguments are kept apart. *)
Record message : Type := Format { template : string; format_args : list pyval }.

Inductive exn : Type :=
| KeyError (m : message)
| AttributeError (m : string)
| TypeError (m : string)
| ValueError (m : string)
| IndexError (m : string)
| ZeroDivisionError (m : string).

Inductive result (A : Type) : Type :=
| Ok (a : A)
| Raise (e : exn).
Arguments Ok {A} a.
Arguments Raise {A} e.

Definition is_KeyError {A} (r : result A) : bool :=
  match r with Raise (KeyError _) => true | _ => false end.

(** A [dict] with string keys; [update] lets the entries of [d2] win, as
    [dict.update] does. *)
Definition dict (V : Type) : Type := list (string * V).

Fixpoint dict_get {V} (d : dict V) (k : string) : option V :=
  match d with
  | [] => None
  | (k', v) :: d' => if String.eqb k k' then Some v else dict_get d' k
  end.

Definition dict_update {V} (d d2 : dict V) : dict V := d2 ++ d.

(** [d.keys()], each key once. *)
Definition dict_keys {V} (d : dict V) : list string :=
  nodup string_dec (map fst d).

(** Attribute access on a [Structure]: a missing attribute reads as [None]
    here, every attribute read below having a default. *)
Definition attr (d : dict pyval) (k : string) : pyval :=
  match dict_get d k with Some v => v | None => PNone end.

(** [sorted] on strings: insertion into an ordered list. *)
Fixpoint insert_sorted (s : string) (l : list string) : list string :=
  match l with
  | [] => [s]
  | x :: l' => if String.leb s x then s :: l else x :: insert_sorted s l'
  end.

Definition sorted (l : list string) : list string :=
  fold_right insert_sorted [] l.

(** ** numpy float64, idealised: a real number, an infinity or nan *)

Inductive npfloat : Type :=
| Fin (r : R)
| PInf
| NInf
| NaN.

Definition is_finite (a : npfloat) : Prop :=
  match a with Fin _ => True | _ => False end.

Definition fneg (a : npfloat) : npfloat :=
  match a with
  | Fin r => Fin (- r)%R
  | PInf => NInf
  | NInf => PInf
  | NaN => NaN
  end.

Definition fadd (a b : npfloat) : npfloat :=
  match a, b with
  | Fin x, Fin y => Fin (x + y)%R
  | NaN, _ | _, NaN => NaN
  | PInf, NInf | NInf, PInf => NaN
  | PInf, _ | _, PInf => PInf
  | NInf, _ | _, NInf => NInf
  end.

Definition fsub (a b : npfloat) : npfloat := fadd a (fneg b).

(** The sign of an infinity times a real: nan when the real is zero. *)
Definition inf_times (positive : bool) (r : R) : npfloat :=
  if Rlt_dec 0 r then (if positive then PInf else NInf)
  else if Rlt_dec r 0 then (if positive then NInf else PInf)
  else NaN.

Definition fmul (a b : npfloat) : npfloat :=
  match a, b with
  | Fin x, Fin y => Fin (x * y)%R
  | NaN, _ | _, NaN => NaN
  | PInf, Fin r | Fin r, PInf => inf_times true r
  | NInf, Fin r | Fin r, NInf => inf_times false r
  | PInf, PInf | NInf, NInf => PInf
  | PInf, NInf | NInf, PInf => NInf
  end.

(** Division as numpy does it: no exception, [x / 0] is an infinity and
    [0 / 0] is nan. *)
Definition fdiv (a b : npfloat) : npfloat :=
  match a, b with
  | Fin x, Fin y =>
      if Req_dec_T y 0 then inf_times true x else Fin (x / y)%R
  | NaN, _ | _, NaN => NaN
  | Fin _, (PInf | NInf) => Fin 0%R
  | (PInf | NInf), (PInf | NInf) => NaN
  | PInf, Fin y => if Rlt_dec y 0 then NInf else PInf
  | NInf, Fin y => if Rlt_dec y 0 then PInf else NInf
  end.

Definition fsqrt (a : npfloat) : npfloat :=
  match a with
  | Fin r => if Rlt_dec r 0 then NaN else Fin (sqrt r)
  | PInf => PInf
  | NInf => NaN
  | NaN => NaN
  end.

(** [a > b] and [a >= b]: false as soon as one side is nan. *)
Definition fgtb (a b : npfloat) : bool :=
  match a, b with
  | Fin x, Fin y => if Rlt_dec y x then true else false
  | NaN, _ | _, NaN => false
  | PInf, PInf | NInf, NInf => false
  | PInf, _ | _, NInf => true
  | _, PInf | NInf, _ => false
  end.

Definition fgeb (a b : npfloat) : bool :=
  match a, b with
  | Fin x, Fin y => if Rle_dec y x then true else false
  | NaN, _ | _, NaN => false
  | PInf, _ | _, NInf => true
  | _, PInf | NInf, _ => false
  end.

(** A numpy array of two floats. *)
Definition vec : Type := (npfloat * npfloat)%type.

Definition vsub (a b : vec) : vec := (fsub (fst a) (fst b), fsub (snd a) (snd b)).
Definition vdiv (a : vec) (s : npfloat) : vec := (fdiv (fst a) s, fdiv (snd a) s).

(** [np.dot] of two such arrays and [np.linalg.norm], the 2-norm. *)
Definition np_dot (a b : vec) : npfloat :=
  fadd (fmul (fst a) (fst b)) (fmul (snd a) (snd b)).

Definition np_linalg_norm (a : vec) : npfloat :=
  fsqrt (fadd (fmul (fst a) (fst a)) (fmul (snd a) (snd a))).

(** ** The rendering backend *)

Inductive halign : Type := ha_left | ha_right | ha_center.

(** One constructor per backend call the embedded functions make. *)
Inductive action : Type :=
| Savefig (kwargs : dict pyval)
| Show
| Close
| SetFacecolor (c : string)
| Imshow (file : string)
| Fill (xs ys : list Q) (colour : pyval)
| Text (x y : Q) (s : pyval) (size : pyval)
| Plot (xs ys : list npfloat) (fmt : string) (linewidth : Q)
| LabelText (x y : npfloat) (label : Q) (ha : halign)
| ChartText (x y : Q) (s : string) (ha : halign)
| BoundingBox (settings : dict pyval)
| Aspect (settings : dict pyval).

Record world : Type := World {
  figure_figsize : pyval;      (* pylab.rcParams['figure.figsize'] *)
  calls : list action          (* backend calls, oldest first *)
}.

Definition M (A : Type) : Type := world -> result A * world.

Definition ret {A} (a : A) : M A := fun w => (Ok a, w).
Definition raise {A} (e : exn) : M A := fun w => (Raise e, w).
Definition bind {A B} (m : M A) (f : A -> M B) : M B :=
  fun w => match m w with
           | (Ok a, w') => f a w'
           | (Raise e, w') => (Raise e, w')
           end.
Definition lift {A} (r : result A) : M A := fun w => (r, w).

Notation "x <- m ;; k" := (bind m (fun x => k))
  (at level 61, m at next level, right associativity).
Notation "m ;;; k" := (bind m (fun _ => k))
  (at level 61, right associativity).

Definition call (a : action) : M unit :=
  fun w => (Ok tt, World (figure_figsize w) (calls w ++ [a])).

Definition set_figsize (v : pyval) : M unit :=
  fun w => (Ok tt, World v (calls w)).

(** ** plots.py: figure size, bounding box, aspect, display *)

Definition DEFAULT_FIGURE_SIZE : pyval := PTuple [PInt 14; PInt 7].

(** [figure_size(size)(object)], the wrapper of lines 286-313.  The
    [finally] clause runs whether [object] returns or raises. *)
Definition figure_size {Args A} (size : pyval)
    (object : Args -> dict pyval -> M A) : Args -> dict pyval -> M A :=
  fun args kwargs w =>
    let requested :=
      if negb (is_None (attr kwargs "figure_size"))
      then attr kwargs "figure_size" else size in
    let '(_, w1) := set_figsize requested w in
    let '(r, w2) := object args kwargs w1 in
    let '(_, w3) := set_figsize DEFAULT_FIGURE_SIZE w2 in
    (r, w3).

(** [bounding_box] and [aspect] merge their defaults with the keyword
    arguments and, depending on the merged settings, set the axis limits,
    the title, the axis labels, the legend, the ticks, the grid and the
    aspect ratio of the current axes.  They draw nothing, and the
    properties below do not depend on which of those calls are made: each
    function is logged as one call carrying its merged settings. *)
Definition bounding_box (kwargs : dict pyval) : M bool :=
  let settings :=
    dict_update [("bounding_box", PNone); ("x_tighten", PBool false);
                 ("y_tighten", PBool false);
                 ("limits", PTuple [PFloat 0; PFloat 1; PFloat 0; PFloat 1]);
                 ("margins", PTuple [PFloat 0; PFloat 0; PFloat 0; PFloat 0])]
                kwargs in
  call (BoundingBox settings) ;;; ret true.

Definition aspect (kwargs : dict pyval) : M bool :=
  let settings :=
    dict_update [("title", PNone); ("x_label", PNone); ("y_label", PNone);
                 ("legend", PBool false);
                 ("legend_location", PStr "upper right");
                 ("x_ticker", PBool false); ("y_ticker", PBool false);
                 ("no_ticks", PBool false); ("no_x_ticks", PBool false);
                 ("no_y_ticks", PBool false); ("grid", PBool false);
                 ("axis_grid", PStr "both"); ("x_axis_line", PBool false);
                 ("y_axis_line", PBool false); ("aspect", PNone)]
                kwargs in
  call (Aspect settings) ;;; ret true.

(** [display], lines 413-440. *)
Definition display (kwargs : dict pyval) : M bool :=
  let settings :=
    dict_update [("standalone", PBool true); ("filename", PNone)] kwargs in
  (if truthy (attr settings "standalone") then
     (if negb (is_None (attr settings "filename"))
      then call (Savefig kwargs)
      else call Show) ;;;
     call Close
   else ret tt) ;;;
  ret true.

(** ** plots.py: name lookups *)

Definition rbind {A B} (r : result A) (f : A -> result B) : result B :=
  match r with Ok a => f a | Raise e => Raise e end.

Definition dq : string := String (ascii_of_nat 34) EmptyString.
Definition quoted (s : string) : string := (dq ++ s ++ dq)%string.

(** [sorted(table.keys())] as a Python list. *)
Definition sorted_keys {V} (table : dict V) : pyval :=
  PTuple (map PStr (sorted (dict_keys table))).

(** Reading an attribute of [None]. *)
Definition getattr_None (a : string) : result pyval :=
  Raise (AttributeError ("'NoneType' object has no attribute '" ++ a ++ "'")%string).

(** The pattern of [_get_illuminant], [_get_RGB_colourspace] and of the
    checks written in line: [table.get(name)], and a [KeyError] built from
    the name and the sorted keys when that is [None]. *)
Definition get_or_KeyError {V} (tmpl : string) (table : dict V) (name : string)
  : result V :=
  match dict_get table name with
  | Some v => Ok v
  | None => Raise (KeyError (Format tmpl [PStr name; sorted_keys table]))
  end.

(** [_get_cmfs], lines 159-179.  By the time the message is built [cmfs]
    has been rebound to the result of [CMFS.get], which is [None] on this
    branch, and the keys are read from [cmfs.CMFS]. *)
Definition _get_cmfs {V} (CMFS : dict V) (cmfs : string) : result V :=
  let name := cmfs in
  match dict_get CMFS cmfs with
  | Some v => Ok v
  | None =>
      rbind (getattr_None "CMFS") (fun cmfs_CMFS_keys =>
      Raise (KeyError
               (Format (quoted "{0}" ++ " not found in factory colour matching functions: "
                        ++ quoted "{1}" ++ ".")%string
                       [PStr name; cmfs_CMFS_keys])))
  end.

Definition _get_illuminant {V} (ILLUMINANTS_RELATIVE_SPDS : dict V)
    (illuminant : string) : result V :=
  get_or_KeyError
    (quoted "{0}" ++ " not found in factory illuminants: " ++ quoted "{1}" ++ ".")%string
    ILLUMINANTS_RELATIVE_SPDS illuminant.

Definition _get_RGB_colourspace {V} (RGB_COLOURSPACES : dict V)
    (colourspace : string) : result V :=
  get_or_KeyError
    (quoted "{0}" ++ " colourspace not found in factory colourspaces: "
     ++ quoted "{1}" ++ ".")%string
    RGB_COLOURSPACES colourspace.

(** The check opening [colour_checker_plot] (both copies). *)
Definition get_colour_checker {V} (COLOURCHECKERS : dict V)
    (colour_checker : string) : result V :=
  get_or_KeyError
    ("Colour checker " ++ quoted "{0}" ++ " not found in colour checkers: "
     ++ quoted "{1}" ++ ".")%string
    COLOURCHECKERS colour_checker.

(** The checks in the loops of [multi_munsell_value_function_plot] and
    [multi_lightness_function_plot]. *)
Definition get_munsell_value_function {V} (MUNSELL_VALUE_FUNCTIONS : dict V)
    (function : string) : result V :=
  get_or_KeyError
    (quoted "{0}" ++ " " ++ quoted "Munsell"
     ++ " value function not found in supported " ++ quoted "Munsell"
     ++ " value functions: " ++ quoted "{1}" ++ ".")%string
    MUNSELL_VALUE_FUNCTIONS function.

Definition get_lightness_function {V} (LIGHTNESS_FUNCTIONS : dict V)
    (function : string) : result V :=
  get_or_KeyError
    (quoted "{0}" ++ " " ++ quoted "Lightness"
     ++ " function not found in supported " ++ quoted "Lightness"
     ++ " functions: " ++ quoted "{1}" ++ ".")%string
    LIGHTNESS_FUNCTIONS function.

Definition illuminant_template : string :=
  ("Illuminant " ++ quoted "{0}" ++ " not found in factory illuminants: "
   ++ quoted "{1}" ++ ".")%string.

(** The illuminant check of
    [planckian_locus_CIE_1931_chromaticity_diagram_plot], lines 1451-1456:
    the table entry is tested before it is used. *)
Definition planckian_1931_illuminant {XY} (illuminants : dict XY)
    (illuminant : string) : result XY :=
  get_or_KeyError illuminant_template illuminants illuminant.

(** The same check in
    [planckian_locus_CIE_1960_UCS_chromaticity_diagram_plot], lines
    1702-1707: the entry, absent or not, first goes through [xy_to_uv], a
    chain of conversions of the colour models package, and the result of
    the conversion is what is tested. *)
Definition planckian_1960_illuminant {XY UV}
    (xy_to_uv : option XY -> result (option UV))
    (illuminants : dict XY) (illuminant : string) : result UV :=
  rbind (xy_to_uv (dict_get illuminants illuminant)) (fun uv =>
  match uv with
  | None =>
      Raise (KeyError (Format illuminant_template
                              [PStr illuminant; sorted_keys illuminants]))
  | Some uv => Ok uv
  end).

(** ** plots.py: the colour swatch grid *)

Record ColourParameter : Type := COLOUR_PARAMETER {
  cp_name : pyval; cp_RGB : pyval; cp_x : pyval; cp_y0 : pyval; cp_y1 : pyval
}.

(** [a % b] on integers; its sign is the divisor's, as for [Z.modulo]. *)
Definition py_mod (a b : Z) : result Z :=
  if b =? 0 then Raise (ZeroDivisionError "integer division or modulo by zero")
  else Ok (a mod b).

Section MultiColourPlot.
Variables (width height spacing : Q) (across : Z).
Variables (text_display : bool) (text_size : pyval) (text_offset : Q).

(** The body of the [for] loop of lines 638-655, from index [i] on, with
    the running offsets; it returns the offsets the loop ends with. *)
Fixpoint swatch_loop (colour_parameters : list ColourParameter) (i : Z)
    (offsetX offsetY : Q) : M (Q * Q) :=
  match colour_parameters with
  | [] => ret (offsetX, offsetY)
  | colour_parameter :: rest =>
      r <- lift (py_mod i across) ;;
      let new_row := (r =? 0) && negb (i =? 0) in
      let offsetX := if new_row then 0%Q else offsetX in
      let offsetY := if new_row then (offsetY - (height + spacing))%Q else offsetY in
      let x0 := offsetX in
      let x1 := (offsetX + width)%Q in
      let y0 := offsetY in
      let y1 := (offsetY + height)%Q in
      call (Fill [x0; x1; x1; x0] [y0; y0; y1; y1] (cp_RGB colour_parameter)) ;;;
      (if negb (is_None (cp_name colour_parameter)) && text_display
       then call (Text (x0 + text_offset)%Q (y0 + text_offset)%Q
                       (cp_name colour_parameter) text_size)
       else ret tt) ;;;
      swatch_loop rest (i + 1) (offsetX + (width + spacing))%Q offsetY
  end.

(** [multi_colour_plot], lines 590-671. *)
Definition multi_colour_plot (colour_parameters : list ColourParameter)
    (kwargs : dict pyval) : M bool :=
  let x_limit_min := 0%Q in
  let y_limit_max := height in
  offsets <- swatch_loop colour_parameters 0 0%Q 0%Q ;;
  let offsetY := snd offsets in
  let x_limit_max :=
    inject_Z (Z.min (Z.of_nat (List.length colour_parameters)) across) in
  let x_limit_max := (x_limit_max * width + x_limit_max * spacing - spacing)%Q in
  let y_limit_min := offsetY in
  let settings :=
    dict_update
      [("x_tighten", PBool true); ("y_tighten", PBool true);
       ("no_ticks", PBool true);
       ("limits", PTuple [PFloat x_limit_min; PFloat x_limit_max;
                          PFloat y_limit_min; PFloat y_limit_max]);
       ("aspect", PStr "equal")]
      kwargs in
  bounding_box settings ;;;
  aspect settings ;;;
  display settings.
End MultiColourPlot.

(** ** colour_checker_plot: the position of the chart title *)

(** A Python number is an [int] or a [float]; [/] on two ints depends on
    the module: classic (flooring) division, or true division where the
    module starts with [from __future__ import division]. *)
Inductive pynum : Type :=
| NInt (z : Z)
| NFloat (q : Q).

Inductive division : Type := classic_division | true_division.

Definition to_Q (a : pynum) : Q :=
  match a with NInt z => inject_Z z | NFloat q => q end.

Definition py_arith (fz : Z -> Z -> Z) (fq : Q -> Q -> Q) (a b : pynum) : pynum :=
  match a, b with
  | NInt x, NInt y => NInt (fz x y)
  | _, _ => NFloat (fq (to_Q a) (to_Q b))
  end.

Definition py_add := py_arith Z.add Qplus.
Definition py_sub := py_arith Z.sub Qminus.
Definition py_mul := py_arith Z.mul Qmult.
Definition py_neg (a : pynum) : pynum :=
  match a with NInt z => NInt (- z) | NFloat q => NFloat (- q) end.

Definition py_div (d : division) (a b : pynum) : result pynum :=
  match a, b with
  | NInt x, NInt y =>
      if y =? 0 then Raise (ZeroDivisionError "integer division or modulo by zero")
      else match d with
           | classic_division => Ok (NInt (x / y))
           | true_division => Ok (NFloat (inject_Z x / inject_Z y))
           end
  | _, _ =>
      if Qeq_bool (to_Q b) 0 then Raise (ZeroDivisionError "float division by zero")
      else Ok (NFloat (to_Q a / to_Q b))
  end.

Definition checker_width : pynum := NFloat 1.
Definition checker_spacing : pynum := NFloat (1 # 4).
Definition checker_across : pynum := NInt 6.

(** A colour checker is a tuple (name, data, illuminant); a sample of its
    data is (index, label, x, y, Y). *)
Record sample : Type := Sample {
  sample_index : Z;
  sample_label : string;
  sample_xyY : Q * Q * Q
}.

Record colour_checker_t (Illuminant : Type) : Type := ColourChecker {
  checker_name : string;
  checker_data : list sample;
  checker_illuminant : Illuminant
}.

(** [colour_parameter(name, RGB)], the other fields left to [None]. *)
Definition colour_parameter (name RGB : pyval) : ColourParameter :=
  COLOUR_PARAMETER name RGB PNone PNone PNone.

Fixpoint dict_remove {V} (k : string) (d : dict V) : dict V :=
  match d with
  | [] => []
  | (k', v) :: d' =>
      if String.eqb k k' then dict_remove k d' else (k', v) :: dict_remove k d'
  end.

(** [a % b] with a float [b], the modulo of floats: the result has the sign
    of [b], and a zero [b] raises. *)
Definition py_fmod (a : Z) (b : Q) : result Q :=
  if Qeq_bool b 0 then Raise (ZeroDivisionError "float modulo")
  else Ok (inject_Z a - b * inject_Z (Qround.Qfloor (inject_Z a / b)))%Q.

(** The same body run with a float bound to [across], which Python does not
    refuse: [i % across] is then the modulo of floats, and
    [min(len(colour_parameters), across)] is [across] when it is the
    smaller one, the length otherwise. *)
Section MultiColourPlotFloatAcross.
Variables (width height spacing across : Q).
Variables (text_display : bool) (text_size : pyval) (text_offset : Q).

Fixpoint swatch_loop_float_across (colour_parameters : list ColourParameter)
    (i : Z) (offsetX offsetY : Q) : M (Q * Q) :=
  match colour_parameters with
  | [] => ret (offsetX, offsetY)
  | colour_parameter :: rest =>
      r <- lift (py_fmod i across) ;;
      let new_row := Qeq_bool r 0 && negb (i =? 0) in
      let offsetX := if new_row then 0%Q else offsetX in
      let offsetY := if new_row then (offsetY - (height + spacing))%Q else offsetY in
      let x0 := offsetX in
      let x1 := (offsetX + width)%Q in
      let y0 := offsetY in
      let y1 := (offsetY + height)%Q in
      call (Fill [x0; x1; x1; x0] [y0; y0; y1; y1] (cp_RGB colour_parameter)) ;;;
      (if negb (is_None (cp_name colour_parameter)) && text_display
       then call (Text (x0 + text_offset)%Q (y0 + text_offset)%Q
                       (cp_name colour_parameter) text_size)
       else ret tt) ;;;
      swatch_loop_float_across rest (i + 1) (offsetX + (width + spacing))%Q
        offsetY
  end.

Definition multi_colour_plot_float_across
    (colour_parameters : list ColourParameter) (kwargs : dict pyval) : M bool :=
  let x_limit_min := 0%Q in
  let y_limit_max := height in
  offsets <- swatch_loop_float_across colour_parameters 0 0%Q 0%Q ;;
  let offsetY := snd offsets in
  let count := inject_Z (Z.of_nat (List.length colour_parameters)) in
  let x_limit_max := if Qlt_le_dec across count then across else count in
  let x_limit_max := (x_limit_max * width + x_limit_max * spacing - spacing)%Q in
  let y_limit_min := offsetY in
  let settings :=
    dict_update
      [("x_tighten", PBool true); ("y_tighten", PBool true);
       ("no_ticks", PBool true);
       ("limits", PTuple [PFloat x_limit_min; PFloat x_limit_max;
                          PFloat y_limit_min; PFloat y_limit_max]);
       ("aspect", PStr "equal")]
      kwargs in
  bounding_box settings ;;;
  aspect settings ;;;
  display settings.
End MultiColourPlotFloatAcross.

(** The binding of a keyword to a parameter the body does arithmetic on.
    Python binds whatever is given and the arithmetic takes any number: an
    int, a float, or a bool, which is the int 0 or 1.  A value that is not a
    number makes the first operation on it raise [TypeError]; the call is
    made to raise it. *)
Definition kw_float (settings : dict pyval) (k : string) (default : Q) : result Q :=
  match dict_get settings k with
  | None => Ok default
  | Some (PFloat q) => Ok q
  | Some (PInt z) => Ok (inject_Z z)
  | Some (PBool b) => Ok (if b then 1 else 0)%Q
  | Some _ => Raise (TypeError "unsupported operand type(s)")
  end.

(** The same for [across], where an int and a float differ: in the modulo
    and in the error a zero raises. *)
Definition kw_number (settings : dict pyval) (k : string) (default : Z) :
    result pynum :=
  match dict_get settings k with
  | None => Ok (NInt default)
  | Some (PInt z) => Ok (NInt z)
  | Some (PBool b) => Ok (NInt (if b then 1 else 0))
  | Some (PFloat q) => Ok (NFloat q)
  | Some _ => Raise (TypeError "unsupported operand type(s)")
  end.

(** [multi_colour_plot(colour_parameters, **settings)]: the keywords that
    name a parameter are bound to it, with the defaults of the signature
    (lines 590-598) for the others; what is left is the callee's
    [**kwargs]. *)
Definition multi_colour_plot_kw (colour_parameters : list ColourParameter)
    (settings : dict pyval) : M bool :=
  width <- lift (kw_float settings "width" 1) ;;
  height <- lift (kw_float settings "height" 1) ;;
  spacing <- lift (kw_float settings "spacing" 0) ;;
  across <- lift (kw_number settings "across" 3) ;;
  let text_display :=
    match dict_get settings "text_display" with
    | Some v => truthy v
    | None => true
    end in
  let text_size :=
    match dict_get settings "text_size" with
    | Some v => v
    | None => PStr "large"
    end in
  text_offset <- lift (kw_float settings "text_offset" (75 # 1000)) ;;
  let kwargs :=
    fold_right dict_remove settings
      ["width"; "height"; "spacing"; "across"; "text_display"; "text_size";
       "text_offset"] in
  match across with
  | NInt across =>
      multi_colour_plot width height spacing across text_display text_size
        text_offset colour_parameters kwargs
  | NFloat across =>
      multi_colour_plot_float_across width height spacing across text_display
        text_size text_offset colour_parameters kwargs
  end.

Section ColourCheckerPlot.
Variable d : division.
Variables Illuminant XYZ sRGB : Type.
Variable COLOURCHECKERS : dict (colour_checker_t Illuminant).

(** From the colour models package and the language: the conversions of a
    sample to a displayable colour, [str.title], and the name of the sRGB
    colourspace. *)
Variable xyY_to_XYZ : Q * Q * Q -> XYZ.
Variable XYZ_to_sRGB : XYZ -> Illuminant -> sRGB.
Variable np_clip_ravel : sRGB -> pyval.
Variable str_title : string -> string.
Variable sRGB_name : string.

(** [text_x = width * (across / 2) + (across * (spacing / 2)) - spacing / 2] *)
Definition text_x : result pynum :=
  rbind (py_div d checker_across (NInt 2)) (fun across_2 =>
  rbind (py_div d checker_spacing (NInt 2)) (fun spacing_2 =>
  rbind (py_div d checker_spacing (NInt 2)) (fun spacing_2' =>
  Ok (py_sub (py_add (py_mul checker_width across_2)
                     (py_mul checker_across spacing_2))
             spacing_2')))).

(** [text_y = -(len(colour_parameters) / across + spacing / 2)] *)
Definition text_y (colour_parameters : list ColourParameter) : result pynum :=
  rbind (py_div d (NInt (Z.of_nat (List.length colour_parameters)))
                checker_across) (fun rows =>
  rbind (py_div d checker_spacing (NInt 2)) (fun spacing_2 =>
  Ok (py_neg (py_add rows spacing_2)))).

(** [colour_checker_plot]: lines 40-113 of [characterization.py] and, word
    for word, lines 674-747 of [plots.py]. *)
Definition colour_checker_plot (colour_checker : string)
    (kwargs : dict pyval) : M bool :=
  let name := colour_checker in
  colour_checker <- lift (get_colour_checker COLOURCHECKERS colour_checker) ;;
  let data := checker_data colour_checker in
  let illuminant := checker_illuminant colour_checker in
  let colour_parameters :=
    map (fun s =>
           let XYZ := xyY_to_XYZ (sample_xyY s) in
           let RGB := XYZ_to_sRGB XYZ illuminant in
           colour_parameter (PStr (str_title (sample_label s)))
                            (np_clip_ravel RGB))
        data in
  let background_colour := "0.1" in
  call (SetFacecolor background_colour) ;;;
  let settings :=
    dict_update
      [("standalone", PBool false); ("width", PFloat (to_Q checker_width));
       ("height", PFloat (to_Q checker_width));
       ("spacing", PFloat (to_Q checker_spacing));
       ("across", PInt 6);
       ("margins", PTuple [PFloat (-1 # 8); PFloat (1 # 8); PFloat (-1 # 2);
                           PFloat (1 # 8)])]
      kwargs in
  multi_colour_plot_kw colour_parameters settings ;;;
  text_x <- lift text_x ;;
  text_y <- lift (text_y colour_parameters) ;;
  call (ChartText (to_Q text_x) (to_Q text_y)
          (name ++ " - " ++ sRGB_name ++ " - Colour Rendition Chart")%string
          ha_center) ;;;
  let settings :=
    dict_update settings
      [("title", PStr name); ("facecolor", PStr background_colour);
       ("edgecolor", PNone); ("standalone", PBool true)] in
  bounding_box settings ;;;
  aspect settings ;;;
  display settings.
End ColourCheckerPlot.

(** The two copies of [colour_checker_plot] differ by the division their
    module is compiled with: [characterization.py] starts with
    [from __future__ import division], [plots.py] does not. *)
Module Plots.
Definition colour_checker_plot {Illuminant XYZ sRGB} :=
  @colour_checker_plot classic_division Illuminant XYZ sRGB.
End Plots.

Module Characterization.
Definition colour_checker_plot {Illuminant XYZ sRGB} :=
  @colour_checker_plot true_division Illuminant XYZ sRGB.
End Characterization.

(** ** Python lists: indexing and [bisect] *)

(** [l[i]]: a negative index counts from the end. *)
Definition getitem {A} (l : list A) (i : Z) : result A :=
  let n := Z.of_nat (List.length l) in
  let j := if i <? 0 then i + n else i in
  if (0 <=? j) && (j <? n) then
    match nth_error l (Z.to_nat j) with
    | Some a => Ok a
    | None => Raise (IndexError "list index out of range")
    end
  else Raise (IndexError "list index out of range").

(** [bisect.bisect], that is [bisect_right]: the loop
    [while lo < hi: mid = (lo + hi) // 2;
       if x < a[mid]: hi = mid else: lo = mid + 1]. *)
Equations? bisect_right (a : list Q) (x : Q) (lo hi : nat) : nat
  by wf (hi - lo)%nat lt :=
  bisect_right a x lo hi with lt_dec lo hi => {
    | right _ => lo
    | left Hlt with Qlt_le_dec x (nth ((lo + hi) / 2) a 0%Q) => {
        | left _ => bisect_right a x lo ((lo + hi) / 2)
        | right _ => bisect_right a x ((lo + hi) / 2 + 1) hi } }.
Proof.
  all: change (fst (Nat.divmod (lo + hi) 1 0 1)) with ((lo + hi) / 2)%nat.
  all: assert (lo <= (lo + hi) / 2 < hi)%nat
    by (split; [apply Nat.div_le_lower_bound
               | apply Nat.Div0.div_lt_upper_bound]; lia).
  all: lia.
Qed.

Definition bisect (a : list Q) (x : Q) : Z :=
  Z.of_nat (bisect_right a x 0 (List.length a)).

(** ** plots.py: the spectral locus and its wavelength labels *)

(** [dict(zip(wavelengths, zip(x, y))).get(k)]: of two entries with the
    same key the later one is kept. *)
Fixpoint coords_get (d : list (Q * vec)) (k : Q) : option vec :=
  match d with
  | [] => None
  | (k', v) :: d' =>
      match coords_get d' k with
      | Some v' => Some v'
      | None => if Qeq_bool k k' then Some v else None
      end
  end.

(** [d.get(k)[...]]: subscripting [None] is a [TypeError]. *)
Definition subscript_get (d : list (Q * vec)) (k : Q) : result vec :=
  match coords_get d k with
  | Some v => Ok v
  | None => Raise (TypeError "'NoneType' object has no attribute '__getitem__'")
  end.

Definition equal_energy : vec := (fdiv (Fin 1) (Fin 3), fdiv (Fin 1) (Fin 3)).

(** [norme = lambda x: x / np.linalg.norm(x)] *)
Definition norme (x : vec) : vec := vdiv x (np_linalg_norm x).

(** What lines 1231-1264 compute for one label drawn at [(x, y)]. *)
Record placement : Type := Placement {
  index : Z;
  left : Q;
  right : Q;
  dx : npfloat;
  dy : npfloat;
  chosen : vec;        (* the candidate normal picked by the test *)
  normal : vec;        (* normalised and divided by 25 *)
  tick_end : vec;
  text_at : vec;
  ha : halign
}.

Definition place_label (wavelengths : list Q) (coords : list (Q * vec))
    (label : Q) (x y : npfloat) : result placement :=
  let index := bisect wavelengths label in
  rbind (if 0 <=? index then getitem wavelengths (index - 1)
         else getitem wavelengths index) (fun left =>
  rbind (if index <? Z.of_nat (List.length wavelengths)
         then getitem wavelengths index
         else getitem wavelengths (-1)) (fun right =>
  rbind (subscript_get coords right) (fun r0 =>
  rbind (subscript_get coords left) (fun l0 =>
  let dx := fsub (fst r0) (fst l0) in
  rbind (subscript_get coords right) (fun r1 =>
  rbind (subscript_get coords left) (fun l1 =>
  let dy := fsub (snd r1) (snd l1) in
  let xy : vec := (x, y) in
  let direction : vec := (fneg dy, dx) in
  let chosen : vec :=
    if fgtb (np_dot (norme (vsub xy equal_energy)) (norme direction)) (Fin 0)
    then (fneg dy, dx) else (dy, fneg dx) in
  let normal := norme chosen in
  let normal := vdiv normal (Fin 25) in
  Ok {| index := index; left := left; right := right; dx := dx; dy := dy;
        chosen := chosen; normal := normal;
        tick_end := (fadd x (fmul (fst normal) (Fin (3 / 4))),
                     fadd y (fmul (snd normal) (Fin (3 / 4))));
        text_at := (fadd x (fst normal), fadd y (snd normal));
        ha := if fgeb (fst normal) (Fin 0) then ha_left else ha_right |})))))).

(** The body of [for label in labels:]. *)
Definition draw_label (wavelengths : list Q) (coords : list (Q * vec))
    (label : Q) : M unit :=
  match coords_get coords label with
  | None => raise (TypeError "'NoneType' object is not iterable")
  | Some (x, y) =>
      call (Plot [x] [y] "o" 2) ;;;
      p <- lift (place_label wavelengths coords label x y) ;;
      call (Plot [x; fst (tick_end p)] [y; snd (tick_end p)] "" (3 # 2)) ;;;
      call (LabelText (fst (text_at p)) (snd (text_at p)) label (ha p))
  end.

Fixpoint for_each {A} (l : list A) (body : A -> M unit) : M unit :=
  match l with
  | [] => ret tt
  | a :: l' => body a ;;; for_each l' body
  end.

(** A colour matching functions object: its name, its wavelengths and the
    tristimulus values it yields when iterated. *)
Record cmfs_t (XYZ : Type) : Type := Cmfs {
  cmfs_name : string;
  cmfs_wavelengths : list Q;
  cmfs_values : list XYZ
}.

Fixpoint replace_spaces (s : string) : string :=
  match s with
  | EmptyString => EmptyString
  | String c s' =>
      String (if Ascii.eqb c " "%char then "_"%char else c) (replace_spaces s')
  end.

Definition last_first (l : list npfloat) : list npfloat :=
  [last l NaN; hd NaN l].

Section ChromaticityDiagram.
Variable XYZ : Type.
Variable CMFS : dict (cmfs_t XYZ).

(** The part the three diagram functions share, given the conversion to
    the diagram's coordinates, the label list and the chart texts. *)
Definition chromaticity_diagram (diagram : string) (labels : list Q)
    (to_uv : XYZ -> vec) (settings : string -> dict pyval)
    (cmfs : string) (kwargs : dict pyval) : M bool :=
  let name := cmfs in
  cmfs <- lift (_get_cmfs CMFS cmfs) ;;
  call (Imshow (diagram ++ "_" ++ replace_spaces (cmfs_name cmfs) ++ "_Small.png")%string) ;;;
  let wavelengths := cmfs_wavelengths cmfs in
  let uvs := map to_uv (cmfs_values cmfs) in
  match uvs with
  | [] => raise (ValueError "need more than 0 values to unpack")
  | _ :: _ =>
      let u := map fst uvs in
      let v := map snd uvs in
      let wavelengths_chromaticity_coordinates := combine wavelengths uvs in
      call (Plot u v "" 2) ;;;
      call (Plot (last_first u) (last_first v) "" 2) ;;;
      for_each labels (draw_label wavelengths wavelengths_chromaticity_coordinates) ;;;
      let settings := dict_update (settings name) kwargs in
      bounding_box settings ;;;
      aspect settings ;;;
      display settings
  end.

Definition diagram_settings (title x_label y_label : string)
    (box : list Q) (name : string) : dict pyval :=
  [("title", PStr (title ++ " - " ++ name)%string);
   ("x_label", PStr x_label); ("y_label", PStr y_label);
   ("x_ticker", PBool true); ("y_ticker", PBool true);
   ("grid", PBool true);
   ("bounding_box", PTuple (map PFloat box));
   ("bbox_inches", PStr "tight"); ("pad_inches", PInt 0)].

Definition labels_1931 : list Q :=
  map inject_Z [390; 460; 470; 480; 490; 500; 510; 520; 540; 560; 580; 600;
                620; 700].

Definition labels_UCS : list Q :=
  map inject_Z [420; 430; 440; 450; 460; 470; 480; 490; 500; 510; 520; 530;
                540; 550; 560; 570; 580; 590; 600; 610; 620; 630; 640; 680].

(** The conversions of the colour models package. *)
Variables UCS Luv Illuminant : Type.
Variable XYZ_to_xy : XYZ -> vec.
Variable XYZ_to_UCS : XYZ -> UCS.
Variable UCS_to_uv : UCS -> vec.
Variable XYZ_to_Luv : XYZ -> Illuminant -> Luv.
Variable Luv_to_uv : Luv -> vec.
Variable D50 : Illuminant.

Definition CIE_1931_chromaticity_diagram_plot : string -> dict pyval -> M bool :=
  figure_size (PTuple [PInt 8; PInt 8])
    (chromaticity_diagram "CIE_1931_Chromaticity_Diagram" labels_1931
       XYZ_to_xy
       (diagram_settings "CIE 1931 Chromaticity Diagram" "CIE x" "CIE y"
          [-1 # 10; 9 # 10; -1 # 10; 9 # 10]%Q)).

Definition CIE_1960_UCS_chromaticity_diagram_plot : string -> dict pyval -> M bool :=
  figure_size (PTuple [PInt 8; PInt 8])
    (chromaticity_diagram "CIE_1960_UCS_Chromaticity_Diagram" labels_UCS
       (fun value => UCS_to_uv (XYZ_to_UCS value))
       (diagram_settings "CIE 1960 UCS Chromaticity Diagram" "CIE u" "CIE v"
          [-75 # 1000; 675 # 1000; -15 # 100; 6 # 10]%Q)).

Definition CIE_1976_UCS_chromaticity_diagram_plot : string -> dict pyval -> M bool :=
  figure_size (PTuple [PInt 8; PInt 8])
    (chromaticity_diagram "CIE_1976_UCS_Chromaticity_Diagram" labels_UCS
       (fun value => Luv_to_uv (XYZ_to_Luv value D50))
       (diagram_settings "CIE 1976 UCS Chromaticity Diagram"
          ("CIE u" ++ dq) ("CIE v" ++ dq)
          [-1 # 10; 7 # 10; -1 # 10; 7 # 10]%Q)).
End ChromaticityDiagram.

(** ** plots.py: the Munsell value, lightness and transfer function plots *)

(** [np.linspace(start, stop, num)]: [num] samples, both ends included. *)
Definition np_linspace (start stop : R) (num : nat) : list npfloat :=
  map (fun k => Fin (start + INR k * ((stop - start) / INR (num - 1)))%R)
      (seq 0 num).

(** [sep.join(l)] *)
Fixpoint join (sep : string) (l : list string) : string :=
  match l with
  | [] => ""
  | [s] => s
  | s :: l' => s ++ sep ++ join sep l'
  end.

(** What the plots read of an RGB colourspace: its name, its primaries
    (a 3 x 2 array of floats), its whitepoint and its two transfer
    functions. *)
Record RGB_Colourspace : Type := RGBColourspace {
  colourspace_name : string;
  primaries : (Q * Q) * (Q * Q) * (Q * Q);
  whitepoint : Q * Q;
  transfer_function : npfloat -> npfloat;
  inverse_transfer_function : npfloat -> npfloat
}.

Section FunctionPlots.
Variable V : Type.
Variable lookup : string -> result V.
Variable apply : V -> npfloat -> npfloat.
Variable samples : list npfloat.

(** The loop the three plots share,
    [for i, function in enumerate(functions)]: the name is looked up, then
    the function is plotted over the samples. *)
Definition function_curves (functions : list string) : M unit :=
  for_each functions (fun function =>
    let name := function in
    function <- lift (lookup name) ;;
    call (Plot samples (map (apply function) samples) "" 2)).

(** The loop followed by the settings, given the defaults of the plot. *)
Definition function_plot (defaults : list string -> dict pyval)
    (functions : list string) (kwargs : dict pyval) : M bool :=
  function_curves functions ;;;
  let settings := dict_update (defaults functions) kwargs in
  bounding_box settings ;;;
  aspect settings ;;;
  display settings.
End FunctionPlots.

(** The settings of lines 1968-1978, 2055-2065 and 2142-2151. *)
Definition function_settings (suffix : string) (labels : dict pyval)
    (upper : Q) (names : list string) : dict pyval :=
  ("title", PStr (join ", " names ++ suffix)%string)
  :: labels
  ++ [("x_tighten", PBool true); ("legend", PBool true);
      ("legend_location", PStr "upper left");
      ("x_ticker", PBool true); ("y_ticker", PBool true);
      ("grid", PBool true);
      ("limits", PTuple [PFloat 0; PFloat upper; PFloat 0; PFloat upper])].

(** [multi_munsell_value_function_plot], lines 1929-1985.  The functions
    of the table are taken to return a float on every sample. *)
Definition multi_munsell_value_function_plot
    (MUNSELL_VALUE_FUNCTIONS : dict (npfloat -> npfloat))
  : list string -> dict pyval -> M bool :=
  figure_size (PTuple [PInt 8; PInt 8])
    (function_plot (get_munsell_value_function MUNSELL_VALUE_FUNCTIONS)
       (fun function x => function x) (np_linspace 0 100 1000)
       (function_settings " - Munsell Functions"
          [("x_label", PStr "Luminance Y"); ("y_label", PStr "Munsell Value V")]
          100)).

(** [single_munsell_value_function_plot], lines 1898-1925. *)
Definition single_munsell_value_function_plot
    (MUNSELL_VALUE_FUNCTIONS : dict (npfloat -> npfloat))
    (function : string) (kwargs : dict pyval) : M bool :=
  let settings :=
    dict_update [("title", PStr (function ++ " - Munsell Value Function")%string)]
                kwargs in
  multi_munsell_value_function_plot MUNSELL_VALUE_FUNCTIONS [function] settings.

(** [multi_lightness_function_plot], lines 2017-2072. *)
Definition multi_lightness_function_plot
    (LIGHTNESS_FUNCTIONS : dict (npfloat -> npfloat))
  : list string -> dict pyval -> M bool :=
  figure_size (PTuple [PInt 8; PInt 8])
    (function_plot (get_lightness_function LIGHTNESS_FUNCTIONS)
       (fun function x => function x) (np_linspace 0 100 1000)
       (function_settings " - Lightness Functions"
          [("x_label", PStr "Luminance Y"); ("y_label", PStr "Lightness L*")]
          100)).

(** [single_lightness_function_plot], lines 1988-2013. *)
Definition single_lightness_function_plot
    (LIGHTNESS_FUNCTIONS : dict (npfloat -> npfloat))
    (function : string) (kwargs : dict pyval) : M bool :=
  let settings :=
    dict_update [("title", PStr (function ++ " - Lightness Function")%string)]
                kwargs in
  multi_lightness_function_plot LIGHTNESS_FUNCTIONS [function] settings.

(** [multi_transfer_function_plot], lines 2104-2158, called with
    [inverse], when given, as a keyword: it is bound to the parameter and
    the other keywords are the function's [**kwargs]. *)
Definition multi_transfer_function_plot
    (RGB_COLOURSPACES : dict RGB_Colourspace)
  : list string -> dict pyval -> M bool :=
  figure_size (PTuple [PInt 8; PInt 8])
    (fun colourspaces settings =>
       let inverse :=
         match dict_get settings "inverse" with
         | Some v => truthy v
         | None => false
         end in
       let kwargs := dict_remove "inverse" settings in
       function_plot (_get_RGB_colourspace RGB_COLOURSPACES)
         (fun colourspace x =>
            if inverse then inverse_transfer_function colourspace x
            else transfer_function colourspace x)
         (np_linspace 0 1 1000)
         (function_settings " - Transfer Functions" [] 1)
         colourspaces kwargs).

(** [single_transfer_function_plot], lines 2075-2100. *)
Definition single_transfer_function_plot
    (RGB_COLOURSPACES : dict RGB_Colourspace)
    (colourspace : string) (kwargs : dict pyval) : M bool :=
  let settings :=
    dict_update [("title", PStr (colourspace ++ " - Transfer Function")%string)]
                kwargs in
  multi_transfer_function_plot RGB_COLOURSPACES [colourspace] settings.

(** ** plots.py: the curve colours of multi_cmfs_plot *)

(** [reduce(lambda y, _: y * 0.5, range(i), x)]; halving a float is exact. *)
Definition halved (i : nat) (x : Q) : Q :=
  fold_left (fun y _ => (y * (1 # 2))%Q) (seq 0 i) x.

(** The colours that line 947 gives to the successive curves of one axis,
    from index [i] on: the loop variable [rgb] is rebound at each
    iteration of the inner loop, so that the colour of a curve is computed
    from the colour of the curve before it. *)
Fixpoint curve_colours {A} (cmfss : list A) (i : nat) (rgb : list Q)
  : list (list Q) :=
  match cmfss with
  | [] => []
  | _ :: rest =>
      let rgb := map (halved i) rgb in
      rgb :: curve_colours rest (S i) rgb
  end.

(** ** plots.py: the polygons of colour_parameters_plot *)

(** The arguments of the [pylab.fill] call of one iteration of the loop of
    lines 504-527, for the parameters of index [i] and [i + 1]: the x
    polygon, the y polygon and the colour. *)
Definition band_polygon (this next : ColourParameter)
  : list pyval * list pyval * pyval :=
  let x0 := cp_x this in
  let x01 := cp_x next in
  let y0 := if is_None (cp_y0 this) then PFloat 0 else cp_y0 this in
  let y1 := if is_None (cp_y1 this) then PFloat 1 else cp_y1 this in
  let y01 := if is_None (cp_y0 this) then PFloat 0 else cp_y0 next in
  let y11 := if is_None (cp_y1 this) then PFloat 1 else cp_y1 next in
  let x_polygon := [x0; x01; x01; x0] in
  let y_polygon := [y0; y01; y11; y1] in
  (x_polygon, y_polygon, cp_RGB this).

(** [for i in range(len(colour_parameters) - 1)]: one polygon per pair of
    neighbours. *)
Fixpoint band_polygons (colour_parameters : list ColourParameter)
  : list (list pyval * list pyval * pyval) :=
  match colour_parameters with
  | this :: (next :: _) as rest => band_polygon this next :: band_polygons rest
  | _ => []
  end.


(** ** plots.py: colourspaces_CIE_1931_chromaticity_diagram_plot *)

(** A float of a table as a numpy value. *)
Definition to_float (q : Q) : npfloat := Fin (Q2R q).

(** [min] and [max] over a first element and the others: the running
    value is replaced by an element that is smaller, or larger. *)
Definition amin (a : Q) (l : list Q) : Q :=
  fold_left (fun m x => if Qlt_le_dec x m then x else m) l a.

Definition amax (a : Q) (l : list Q) : Q :=
  fold_left (fun m x => if Qlt_le_dec m x then x else m) l a.

(** [min(l)] and [max(l)] *)
Definition py_min (l : list Q) : result Q :=
  match l with
  | [] => Raise (ValueError "min() arg is an empty sequence")
  | a :: l' => Ok (amin a l')
  end.

Definition py_max (l : list Q) : result Q :=
  match l with
  | [] => Raise (ValueError "max() arg is an empty sequence")
  | a :: l' => Ok (amax a l')
  end.

(** The four lists of lines 1322-1323. *)
Record limit_lists : Type := LimitLists {
  x_limit_min : list Q;
  x_limit_max : list Q;
  y_limit_min : list Q;
  y_limit_max : list Q
}.

Section ColourspacesDiagram.
Variable XYZ : Type.
Variable CMFS : dict (cmfs_t XYZ).
Variable XYZ_to_xy : XYZ -> vec.
Variable RGB_COLOURSPACES : dict RGB_Colourspace.
Variable POINTER_GAMUT_DATA : list (Q * Q).

(** The body of [for colourspace in colourspaces:], lines 1324-1377.  The
    colour of the lines, drawn at random for a colourspace, is not part of
    the logged call. *)
Definition plot_colourspace (colourspace : string) (limits : limit_lists)
  : M limit_lists :=
  if String.eqb colourspace "Pointer Gamut" then
    match POINTER_GAMUT_DATA with
    | [] => raise (ValueError "need more than 0 values to unpack")
    | _ :: _ =>
        let x := map (fun p => to_float (fst p)) POINTER_GAMUT_DATA in
        let y := map (fun p => to_float (snd p)) POINTER_GAMUT_DATA in
        call (Plot x y "" 2) ;;;
        call (Plot (last_first x) (last_first y) "" 2) ;;;
        ret limits
    end
  else
    let name := colourspace in
    colourspace <- lift (_get_RGB_colourspace RGB_COLOURSPACES colourspace) ;;
    let '(p0, p1, p2) := primaries colourspace in
    let whitepoint := whitepoint colourspace in
    let w0 := to_float (fst whitepoint) in
    let w1 := to_float (snd whitepoint) in
    call (Plot [w0; w0] [w1; w1] "" 2) ;;;
    call (Plot [w0; w0] [w1; w1] "o" 2) ;;;
    call (Plot [to_float (fst p0); to_float (fst p1)]
               [to_float (snd p0); to_float (snd p1)] "o-" 2) ;;;
    call (Plot [to_float (fst p1); to_float (fst p2)]
               [to_float (snd p1); to_float (snd p2)] "o-" 2) ;;;
    call (Plot [to_float (fst p2); to_float (fst p0)]
               [to_float (snd p2); to_float (snd p0)] "o-" 2) ;;;
    ret {| x_limit_min := x_limit_min limits ++ [amin (fst p0) [fst p1; fst p2]];
           y_limit_min := y_limit_min limits ++ [amin (snd p0) [snd p1; snd p2]];
           x_limit_max := x_limit_max limits ++ [amax (fst p0) [fst p1; fst p2]];
           y_limit_max := y_limit_max limits ++ [amax (snd p0) [snd p1; snd p2]] |}.

Fixpoint colourspaces_loop (colourspaces : list string) (limits : limit_lists)
  : M limit_lists :=
  match colourspaces with
  | [] => ret limits
  | colourspace :: rest =>
      limits <- plot_colourspace colourspace limits ;;
      colourspaces_loop rest limits
  end.

(** What follows the drawing of the diagram, lines 1322-1391: the
    colourspaces, then the settings, updated after the keywords of the
    caller have been merged. *)
Definition colourspaces_overlay (colourspaces : list string)
    (settings : dict pyval) : M pyval :=
  limits <- colourspaces_loop colourspaces
              {| x_limit_min := [-1 # 10]%Q; x_limit_max := [9 # 10]%Q;
                 y_limit_min := [-1 # 10]%Q; y_limit_max := [9 # 10]%Q |} ;;
  x_min <- lift (py_min (x_limit_min limits)) ;;
  x_max <- lift (py_max (x_limit_max limits)) ;;
  y_min <- lift (py_min (y_limit_min limits)) ;;
  y_max <- lift (py_max (y_limit_max limits)) ;;
  let settings :=
    dict_update settings
      [("legend", PBool true); ("legend_location", PStr "upper right");
       ("x_tighten", PBool true); ("y_tighten", PBool true);
       ("limits", PTuple [PFloat x_min; PFloat x_max;
                          PFloat y_min; PFloat y_max]);
       ("margins", PTuple [PFloat (-5 # 100); PFloat (5 # 100);
                           PFloat (-5 # 100); PFloat (5 # 100)]);
       ("standalone", PBool true)] in
  bounding_box settings ;;;
  aspect settings ;;;
  shown <- display settings ;;
  ret (PBool shown).

(** [colourspaces_CIE_1931_chromaticity_diagram_plot], lines 1284-1391.
    The diagram is drawn by a call of [CIE_1931_chromaticity_diagram_plot]
    with the settings as its keywords, a call that passes no [cmfs]; the
    function returns [None] when that call returns a false value, and the
    result of [display] otherwise. *)
Definition colourspaces_CIE_1931_chromaticity_diagram_plot
  : list string * string -> dict pyval -> M pyval :=
  figure_size (PTuple [PInt 8; PInt 8])
    (fun args kwargs =>
       let '(colourspaces, cmfs) := args in
       let name := cmfs in
       cmfs <- lift (_get_cmfs CMFS cmfs) ;;
       let settings :=
         dict_update
           [("title", PStr (join ", " colourspaces ++ " - " ++ name)%string);
            ("standalone", PBool false)]
           kwargs in
       drawn <- CIE_1931_chromaticity_diagram_plot CMFS XYZ_to_xy
                  "CIE 1931 2 Degree Standard Observer" settings ;;
       if negb drawn then ret PNone
       else colourspaces_overlay colourspaces settings).
End ColourspacesDiagram.

(** ** plots.py: single_colour_plot *)

(** [single_colour_plot], lines 564-587. *)
Definition single_colour_plot (colour_parameter : ColourParameter)
    (kwargs : dict pyval) : M bool :=
  multi_colour_plot_kw [colour_parameter] kwargs.

(** ** plots.py: multi_cmfs_plot and single_cmfs_plot *)

Section MultiCmfsPlot.
Variable XYZ : Type.
Variable CMFS : dict (cmfs_t XYZ).

(** From the colorimetry package: the value of a tristimulus value on an
    axis, and the shape (start, end, steps) of colour matching functions. *)
Variable component : string -> XYZ -> Q.
Variable shape : cmfs_t XYZ -> Q * Q * Q.

(** [[(key, value) for key, value in getattr(cmfs, axis)]] *)
Definition axis_items (axis : string) (cmfs : cmfs_t XYZ) : list (Q * Q) :=
  combine (cmfs_wavelengths cmfs) (map (component axis) (cmfs_values cmfs)).

(** The body of the inner loop, lines 945-963.  The colour of the curve,
    for which see [curve_colours], and its label are not part of the logged
    call. *)
Definition cmfs_curve (axis : string) (cmfs : string) (limits : limit_lists)
  : M limit_lists :=
  let name := cmfs in
  cmfs <- lift (_get_cmfs CMFS cmfs) ;;
  match axis_items axis cmfs with
  | [] => raise (ValueError "need more than 0 values to unpack")
  | (_ :: _) as items =>
      let wavelengths := map fst items in
      let values := map snd items in
      let '(start, end_, steps) := shape cmfs in
      y_min <- lift (py_min values) ;;
      y_max <- lift (py_max values) ;;
      call (Plot (map to_float wavelengths) (map to_float values) "" 2) ;;;
      ret {| x_limit_min := x_limit_min limits ++ [start];
             x_limit_max := x_limit_max limits ++ [end_];
             y_limit_min := y_limit_min limits ++ [y_min];
             y_limit_max := y_limit_max limits ++ [y_max] |}
  end.

(** [for i, cmfs in enumerate(cmfss):] *)
Fixpoint cmfs_loop (axis : string) (cmfss : list string) (limits : limit_lists)
  : M limit_lists :=
  match cmfss with
  | [] => ret limits
  | cmfs :: rest =>
      limits <- cmfs_curve axis cmfs limits ;;
      cmfs_loop axis rest limits
  end.

(** [for axis, rgb in (('x', ...), ('y', ...), ('z', ...)):] *)
Fixpoint axes_loop (axes : list string) (cmfss : list string)
    (limits : limit_lists) : M limit_lists :=
  match axes with
  | [] => ret limits
  | axis :: rest =>
      limits <- cmfs_loop axis cmfss limits ;;
      axes_loop rest cmfss limits
  end.

(** [multi_cmfs_plot], lines 918-983. *)
Definition multi_cmfs_plot (cmfss : list string) (kwargs : dict pyval) : M bool :=
  limits <- axes_loop ["x"; "y"; "z"] cmfss
              {| x_limit_min := []; x_limit_max := [];
                 y_limit_min := []; y_limit_max := [] |} ;;
  x_min <- lift (py_min (x_limit_min limits)) ;;
  x_max <- lift (py_max (x_limit_max limits)) ;;
  y_min <- lift (py_min (y_limit_min limits)) ;;
  y_max <- lift (py_max (y_limit_max limits)) ;;
  let settings :=
    dict_update
      [("title", PStr (join ", " cmfss ++ " - Colour Matching Functions")%string);
       ("x_label", PStr "Wavelength λ (nm)");
       ("y_label", PStr "Tristimulus Values");
       ("x_tighten", PBool true); ("legend", PBool true);
       ("legend_location", PStr "upper right");
       ("x_ticker", PBool true); ("y_ticker", PBool true);
       ("grid", PBool true); ("y_axis_line", PBool true);
       ("limits", PTuple [PFloat x_min; PFloat x_max;
                          PFloat y_min; PFloat y_max])]
      kwargs in
  bounding_box settings ;;;
  aspect settings ;;;
  display settings.

(** [single_cmfs_plot], lines 890-915. *)
Definition single_cmfs_plot (cmfs : string) (kwargs : dict pyval) : M bool :=
  let settings :=
    dict_update
      [("title", PStr (quoted cmfs ++ " - Colour Matching Functions")%string)]
      kwargs in
  multi_cmfs_plot [cmfs] settings.
End MultiCmfsPlot.

(** * Vocabulary of the properties

    What follows is not in the Python source: predicates and sample inputs
    used to state what the embedded functions do. *)

Section SwatchGridVocabulary.
Variables (width height spacing : Q) (across : Z).

(** The [pylab.fill] calls of the loop, in order. *)
Fixpoint fills_from (colour_parameters : list ColourParameter) (i : Z)
    (offsetX offsetY : Q) : list action :=
  match colour_parameters with
  | [] => []
  | colour_parameter :: rest =>
      let new_row := (i mod across =? 0) && negb (i =? 0) in
      let offsetX := if new_row then 0%Q else offsetX in
      let offsetY := if new_row then (offsetY - (height + spacing))%Q else offsetY in
      Fill [offsetX; (offsetX + width)%Q; (offsetX + width)%Q; offsetX]
           [offsetY; offsetY; (offsetY + height)%Q; (offsetY + height)%Q]
           (cp_RGB colour_parameter)
      :: fills_from rest (i + 1) (offsetX + (width + spacing))%Q offsetY
  end.

(** The offsets the loop holds when it enters iteration [i]. *)
Definition entering (i : Z) (ox oy : Q) : Prop :=
  if i =? 0 then (ox == 0 /\ oy == 0)%Q
  else (ox == inject_Z ((i - 1) mod across + 1) * (width + spacing)
        /\ oy == - (inject_Z ((i - 1) / across) * (height + spacing)))%Q.
End SwatchGridVocabulary.

(** The "standalone" option as the caller sees it: on unless overridden. *)
Definition standalone_option (kwargs : dict pyval) : bool :=
  match dict_get kwargs "standalone" with
  | Some v => truthy v
  | None => true
  end.

(** A filename is given when the caller passes one that is not [None]. *)
Definition filename_given (kwargs : dict pyval) : bool :=
  match dict_get kwargs "filename" with
  | Some v => negb (is_None v)
  | None => false
  end.

(** What [display] is expected to do with the backend. *)
Definition display_calls (kwargs : dict pyval) : list action :=
  if standalone_option kwargs then
    if filename_given kwargs then [Savefig kwargs; Close] else [Show; Close]
  else [].

(** The size the wrapped function runs under. *)
Definition requested_size (size : pyval) (kwargs : dict pyval) : pyval :=
  match dict_get kwargs "figure_size" with
  | Some v => if is_None v then size else v
  | None => size
  end.

Definition is_Fill (a : action) : bool :=
  match a with Fill _ _ _ => true | _ => false end.

(** The backend calls made between two worlds. *)
Definition new_calls (w w' : world) : list action :=
  skipn (List.length (calls w)) (calls w').

Definition appends {A} (m : M A) : Prop :=
  forall w, exists r out,
    m w = (r, World (figure_figsize w) (calls w ++ out)).

(** The log of a diagram plot starts with the background image, the locus
    traced through the coordinates in table order, and the segment from the
    last coordinate back to the first. *)
Definition closed_locus (uvs : list vec) (out : list action) : Prop :=
  exists image rest,
    out = Imshow image
          :: Plot (map fst uvs) (map snd uvs) "" 2
          :: Plot [fst (last uvs (NaN, NaN)); fst (hd (NaN, NaN) uvs)]
                  [snd (last uvs (NaN, NaN)); snd (hd (NaN, NaN) uvs)] "" 2
          :: rest.

(** The table invariant: wavelengths strictly increase. *)
Fixpoint strictly_increasing (l : list Q) : bool :=
  match l with
  | a :: (b :: _) as l' => negb (Qle_bool b a) && strictly_increasing l'
  | _ => true
  end.

(** The index of the right neighbour of the [k]-th wavelength: the next
    one, or the last sample when there is no next one. *)
Definition right_index (n k : nat) : nat :=
  if (S k <? n)%nat then S k else (n - 1)%nat.

(** The claim: the tangent joins the coordinates of the nearest table
    wavelength strictly below the label and of the nearest strictly above. *)
Definition tangent_between_bracketing_wavelengths
    (wl : list Q) (coords : list (Q * vec)) (label : Q) (p : placement) : Prop :=
  exists below above cb ca,
    In below wl /\ In above wl
    /\ (below < label)%Q /\ (label < above)%Q
    /\ (forall w', In w' wl -> (w' < label)%Q -> (w' <= below)%Q)
    /\ (forall w', In w' wl -> (label < w')%Q -> (above <= w')%Q)
    /\ coords_get coords below = Some cb
    /\ coords_get coords above = Some ca
    /\ dx p = fsub (fst ca) (fst cb) /\ dy p = fsub (snd ca) (snd cb).

Definition table3 : list Q := [1; 2; 3]%Q.
Definition corner3 : list vec := [(Fin 0, Fin 0); (Fin 1, Fin 0); (Fin 1, Fin 1)].

(** The claim: at either end of the table the tick end and the text
    position are well-defined numbers. *)
Definition positions_well_defined (p : placement) : Prop :=
  is_finite (fst (tick_end p)) /\ is_finite (snd (tick_end p))
  /\ is_finite (fst (text_at p)) /\ is_finite (snd (text_at p)).

Definition table2 : list Q := [1; 2]%Q.
Definition edge2 : list vec := [(Fin 1, Fin 0); (Fin 1, Fin 1)].

(** The claim: left when the normal's x-component is negative, right
    otherwise. *)
Definition left_when_negative_right_otherwise (p : placement) : Prop :=
  forall nx, fst (normal p) = Fin nx ->
             ((nx < 0)%R -> ha p = ha_left) /\ (~ (nx < 0)%R -> ha p = ha_right).

Definition observers : dict (cmfs_t vec) :=
  [("CIE 1931 2 Degree Standard Observer",
    Cmfs "CIE 1931 2 Degree Standard Observer" table3 corner3)].

(** The caller leaves the grid parameters of [colour_checker_plot] alone. *)
Definition grid_parameters_kept (kwargs : dict pyval) : Prop :=
  forall k, In k ["width"; "height"; "spacing"; "across"; "text_offset"] ->
            dict_get kwargs k = None.

Definition seven_samples : list sample :=
  map (fun i => Sample i "neutral" (31 # 100, 33 # 100, 1 # 5)) [1; 2; 3; 4; 5; 6; 7].

Definition seven : dict (colour_checker_t unit) :=
  [("Seven", ColourChecker "Seven" seven_samples tt)].

(** ** Vocabulary of the further properties *)

Definition is_Text (a : action) : bool :=
  match a with Text _ _ _ _ => true | _ => false end.

(** A call that saves, shows or closes the figure. *)
Definition is_display (a : action) : bool :=
  match a with Savefig _ | Show | Close => true | _ => false end.

(** The strings of the [pylab.text] calls of the swatch grid, in order. *)
Fixpoint text_strings (l : list action) : list pyval :=
  match l with
  | [] => []
  | Text _ _ s _ :: l' => s :: text_strings l'
  | _ :: l' => text_strings l'
  end.

(** The wavelengths of the label texts of a diagram, in order. *)
Fixpoint label_texts (l : list action) : list Q :=
  match l with
  | [] => []
  | LabelText _ _ label _ :: l' => label :: label_texts l'
  | _ :: l' => label_texts l'
  end.

(** A table with one coordinate per wavelength, wavelengths increasing. *)
Definition well_formed_table {XYZ} (c : cmfs_t XYZ) : Prop :=
  strictly_increasing (cmfs_wavelengths c) = true
  /\ List.length (cmfs_values c) = List.length (cmfs_wavelengths c).

(** The wavelength [label] is one of the table. *)
Definition in_table (wl : list Q) (label : Q) : Prop :=
  exists k, (k < List.length wl)%nat /\ (label == nth k wl 0)%Q.

Section SwatchLoopVocabulary.
Variables (height spacing : Q) (across : Z).

(** The offsets the loop of [multi_colour_plot] ends with. *)
Fixpoint offsets_from (colour_parameters : list ColourParameter) (i : Z)
    (offsetX offsetY : Q) (width : Q) : Q * Q :=
  match colour_parameters with
  | [] => (offsetX, offsetY)
  | _ :: rest =>
      let new_row := (i mod across =? 0) && negb (i =? 0) in
      let offsetX := if new_row then 0%Q else offsetX in
      let offsetY := if new_row then (offsetY - (height + spacing))%Q else offsetY in
      offsets_from rest (i + 1) (offsetX + (width + spacing))%Q offsetY width
  end.
End SwatchLoopVocabulary.

(** The names the grid writes: those that are not [None]. *)
Definition names_written (text_display : bool)
    (colour_parameters : list ColourParameter) : list pyval :=
  if text_display
  then filter (fun v => negb (is_None v)) (map cp_name colour_parameters)
  else [].

(** The figure is displayed the way the caller asked: saved and closed
    when a filename is given, shown and closed otherwise, and left alone
    when "standalone" is false. *)
Definition displayed_as_asked (kwargs : dict pyval) (out : list action) : Prop :=
  if standalone_option kwargs then
    if filename_given kwargs
    then exists settings, filter is_display out = [Savefig settings; Close]
    else filter is_display out = [Show; Close]
  else filter is_display out = [].

(** A diagram plot that returned [True], wrote the given labels in order
    and displayed the figure. *)
Definition labels_drawn (labels : list Q) (kwargs : dict pyval)
    (run : result bool * world) (w : world) : Prop :=
  fst run = Ok true
  /\ label_texts (new_calls w (snd run)) = labels
  /\ displayed_as_asked kwargs (new_calls w (snd run)).

(** A diagram plot that stopped at a label the table lacks: the labels
    before it are written, the figure is neither saved, shown nor closed. *)
Definition stopped_at_missing_label (wl labels : list Q)
    (run : result bool * world) (w : world) : Prop :=
  fst run = Raise (TypeError "'NoneType' object is not iterable")
  /\ filter is_display (new_calls w (snd run)) = []
  /\ exists missing rest,
       labels = label_texts (new_calls w (snd run)) ++ missing :: rest
       /\ Forall (in_table wl) (label_texts (new_calls w (snd run)))
       /\ ~ in_table wl missing.

(** Sample tables: the wavelengths 390, 400, ..., 700, which hold every
    labelled wavelength of the three diagrams, and 400, 410, ..., 590,
    which lack labels of each of them. *)
Definition decades (first : Z) (n : nat) : list Q :=
  map (fun k => inject_Z (first + 10 * Z.of_nat k)) (seq 0 n).

Definition ramp (n : nat) : list vec :=
  map (fun k => (Fin (INR k), Fin (INR k * INR k))) (seq 0 n).

Definition full_table : cmfs_t vec := Cmfs "full" (decades 390 32) (ramp 32).
Definition short_table : cmfs_t vec := Cmfs "short" (decades 400 20) (ramp 20).

Definition sample_tables : dict (cmfs_t vec) :=
  [("full", full_table); ("short", short_table)].

(** The "standalone" keyword as passed by the caller of
    [colour_checker_plot], whose own default for the grid is [False]. *)
Definition standalone_passed (kwargs : dict pyval) : bool :=
  match dict_get kwargs "standalone" with
  | Some v => truthy v
  | None => false
  end.

(** The figure is saved, when a filename is given, or else shown, and
    then closed. *)
Definition shown_or_saved (kwargs : dict pyval) (l : list action) : Prop :=
  if filename_given kwargs
  then exists settings, l = [Savefig settings; Close]
  else l = [Show; Close].

Definition is_ChartText (a : action) : bool :=
  match a with ChartText _ _ _ _ => true | _ => false end.

Definition is_Plot (a : action) : bool :=
  match a with Plot _ _ _ _ => true | _ => false end.

(** The curve of a function over the samples. *)
Definition curve (samples : list npfloat) (f : npfloat -> npfloat) : action :=
  Plot samples (map f samples) "" 2.

(** The names are those of the table entries [vs], in order. *)
Definition found_in {V} (table : dict V) (names : list string) (vs : list V) : Prop :=
  Forall2 (fun name v => dict_get table name = Some v) names vs.

(** A function plot that drew the given curves, decorated the axes and
    displayed the figure as the caller asked. *)
Definition curves_drawn (curves : list action) (kwargs : dict pyval)
    (run : result bool * world) (w : world) : Prop :=
  fst run = Ok true
  /\ filter is_Plot (new_calls w (snd run)) = curves
  /\ displayed_as_asked kwargs (new_calls w (snd run)).

(** A function plot that stopped at a name its table lacks, with a
    [KeyError] that carries the name and the sorted keys of the table,
    leaving the given curves and nothing else. *)
Definition stopped_at_unknown_name {V} (table : dict V) (unknown : string)
    (curves : list action) (run : result bool * world) (w : world) : Prop :=
  (exists template,
     fst run = Raise (KeyError (Format template [PStr unknown; sorted_keys table])))
  /\ new_calls w (snd run) = curves.

(** The title the axes are decorated with. *)
Definition decorated_with_title (title : pyval) (out : list action) : Prop :=
  exists settings, In (Aspect settings) out /\ attr settings "title" = title
                   /\ forall s, In (Aspect s) out -> s = settings.

(** Sample tables of functions and colourspaces. *)
Definition sample_functions : dict (npfloat -> npfloat) :=
  [("identity", fun x => x); ("square", fun x => fmul x x)].

Definition linear_space : RGB_Colourspace :=
  RGBColourspace "linear"
    ((64 # 100, 33 # 100), (3 # 10, 6 # 10), (15 # 100, 6 # 100))%Q
    (3127 # 10000, 3290 # 10000)%Q
    (fun x => x) (fun x => x).

Definition wide_space : RGB_Colourspace :=
  RGBColourspace "wide"
    ((7347 # 10000, 2653 # 10000), (0, 1), (1 # 10000, -77 # 1000))%Q
    (32168 # 100000, 33767 # 100000)%Q
    (fun x => fmul x x) (fun x => fsqrt x).

Definition sample_colourspaces : dict RGB_Colourspace :=
  [("linear", linear_space); ("wide", wide_space)].

(** The "inverse" keyword of [multi_transfer_function_plot]. *)
Definition inverse_passed (kwargs : dict pyval) : bool :=
  match dict_get kwargs "inverse" with
  | Some v => truthy v
  | None => false
  end.

(** The title the caller passes, or else the given one. *)
Definition title_or (kwargs : dict pyval) (title : string) : pyval :=
  match dict_get kwargs "title" with
  | Some t => t
  | None => PStr title
  end.

(** The two right and the two left corners of a polygon of
    [colour_parameters_plot], bottom first. *)
Definition right_edge (p : list pyval * list pyval * pyval)
  : (pyval * pyval) * (pyval * pyval) :=
  let '(xs, ys, _) := p in
  ((nth 1 xs PNone, nth 1 ys PNone), (nth 2 xs PNone, nth 2 ys PNone)).

Definition left_edge (p : list pyval * list pyval * pyval)
  : (pyval * pyval) * (pyval * pyval) :=
  let '(xs, ys, _) := p in
  ((nth 0 xs PNone, nth 0 ys PNone), (nth 3 xs PNone, nth 3 ys PNone)).

(** Every parameter gives the field, or none does. *)
Definition all_or_none (field : ColourParameter -> pyval)
    (colour_parameters : list ColourParameter) : Prop :=
  forall a b, In a colour_parameters -> In b colour_parameters ->
              is_None (field a) = is_None (field b).

(** The three rows of a primaries array. *)
Definition rows (primaries : (Q * Q) * (Q * Q) * (Q * Q)) : list (Q * Q) :=
  let '(p0, p1, p2) := primaries in [p0; p1; p2].

(** The point lies within the limits [x_min, x_max, y_min, y_max]. *)
Definition encloses (limits : pyval) (p : Q * Q) : Prop :=
  exists x_min x_max y_min y_max,
    limits = PTuple [PFloat x_min; PFloat x_max; PFloat y_min; PFloat y_max]
    /\ (x_min <= fst p <= x_max)%Q /\ (y_min <= snd p <= y_max)%Q.

(** The name is "Pointer Gamut" or a colourspace of the table. *)
Definition plottable (RGB_COLOURSPACES : dict RGB_Colourspace) (name : string)
  : Prop :=
  name = "Pointer Gamut" \/ exists cs, dict_get RGB_COLOURSPACES name = Some cs.

(** The lists only grow, and hold the extrema of every colourspace
    plotted. *)
Definition limits_extend (before after : limit_lists) : Prop :=
  incl (x_limit_min before) (x_limit_min after)
  /\ incl (x_limit_max before) (x_limit_max after)
  /\ incl (y_limit_min before) (y_limit_min after)
  /\ incl (y_limit_max before) (y_limit_max after).

Definition limits_hold (cs : RGB_Colourspace) (limits : limit_lists) : Prop :=
  exists x0 x1 y0 y1,
    In x0 (x_limit_min limits) /\ In x1 (x_limit_max limits)
    /\ In y0 (y_limit_min limits) /\ In y1 (y_limit_max limits)
    /\ forall p, In p (rows (primaries cs)) ->
         (x0 <= fst p <= x1)%Q /\ (y0 <= snd p <= y1)%Q.

(** The run of the diagram inside
    [colourspaces_CIE_1931_chromaticity_diagram_plot]: on the standard
    observer, under the settings of the caller. *)
Definition colourspaces_settings (colourspaces : list string) (cmfs : string)
    (kwargs : dict pyval) : dict pyval :=
  dict_update
    [("title", PStr (join ", " colourspaces ++ " - " ++ cmfs)%string);
     ("standalone", PBool false)]
    kwargs.

(** Two observers: the standard one on the table of 390, ..., 700 and
    another one on the table of 400, ..., 590. *)
Definition two_observers : dict (cmfs_t vec) :=
  [("CIE 1931 2 Degree Standard Observer",
    Cmfs "CIE 1931 2 Degree Standard Observer" (decades 390 32) (ramp 32));
   ("CIE 1964 10 Degree Standard Observer", short_table)].

Definition pointer_gamut_sample : list (Q * Q) :=
  [(5 # 10, 3 # 10); (3 # 10, 5 # 10); (2 # 10, 2 # 10)]%Q.

(** Each string is at most the next one. *)
Fixpoint ascending (l : list string) : bool :=
  match l with
  | a :: (b :: _) as l' => String.leb a b && ascending l'
  | _ => true
  end.

(** The keys of the table, each one once, in ascending order. *)
Definition keys_of {V} (table : dict V) (keys : list string) : Prop :=
  (forall k, In k keys <-> dict_get table k <> None)
  /\ NoDup keys /\ ascending keys = true.

(** A lookup that reports an unknown name with the keys of its table. *)
Definition reports_unknown {V} (table : dict V) (name : string)
    (r : result V) : Prop :=
  exists template keys,
    r = Raise (KeyError (Format template [PStr name; PTuple (map PStr keys)]))
    /\ keys_of table keys.

(** The curve of colour matching functions on one axis. *)
Definition axis_curve {XYZ} (component : string -> XYZ -> Q) (axis : string)
    (c : cmfs_t XYZ) : action :=
  Plot (map to_float (map fst (axis_items component axis c)))
       (map to_float (map snd (axis_items component axis c))) "" 2.

(** The table has wavelengths and values. *)
Definition not_empty_table {XYZ} (c : cmfs_t XYZ) : Prop :=
  cmfs_wavelengths c <> [] /\ cmfs_values c <> [].

(** The lists hold a lower and an upper bound of the values. *)
Definition values_hold (values : list Q) (limits : limit_lists) : Prop :=
  exists y0 y1,
    In y0 (y_limit_min limits) /\ In y1 (y_limit_max limits)
    /\ forall v, In v values -> (y0 <= v <= y1)%Q.

(** The x lists are not empty. *)
Definition x_limits_given (limits : limit_lists) : Prop :=
  exists x0 x1, In x0 (x_limit_min limits) /\ In x1 (x_limit_max limits).

(** Sample colour matching functions: tristimulus values as triples. *)
Definition triple_component (axis : string) (v : Q * Q * Q) : Q :=
  let '(x, y, z) := v in
  if String.eqb axis "x" then x else if String.eqb axis "y" then y else z.

Definition sample_cmfs : dict (cmfs_t (Q * Q * Q)) :=
  [("one", Cmfs "one" [400; 500; 600]%Q
             [(1 # 10, 0, 7 # 10); (0, 1, 1 # 10); (1, 6 # 10, 0)]%Q);
   ("two", Cmfs "two" [450; 550]%Q [(3 # 10, 1 # 10, 17 # 10); (4 # 10, 1, 0)]%Q)].

Definition sample_shape (c : cmfs_t (Q * Q * Q)) : Q * Q * Q :=
  (hd 0 (cmfs_wavelengths c), last (cmfs_wavelengths c) 0, 100)%Q.

(** * Properties *)

(** ** Dictionaries and sorting *)

Lemma dict_get_update {V} (d d2 : dict V) (k : string) :
  dict_get (dict_update d d2) k =
  match dict_get d2 k with Some v => Some v | None => dict_get d k end.
Proof.
  unfold dict_update.
  induction d2 as [|[k' v] d2 IH]; simpl; [reflexivity|].
  destruct (String.eqb k k'); [reflexivity | exact IH].
Qed.

Lemma attr_update (d d2 : dict pyval) (k : string) :
  attr (dict_update d d2) k =
  match dict_get d2 k with Some v => v | None => attr d k end.
Proof.
  unfold attr. rewrite dict_get_update.
  destruct (dict_get d2 k); reflexivity.
Qed.

Lemma dict_get_Some_In {V} (d : dict V) (k : string) (v : V) :
  dict_get d k = Some v -> In k (map fst d).
Proof.
  induction d as [|[k' v'] d IH]; simpl; [discriminate|].
  destruct (String.eqb_spec k k') as [->|Hne]; intros H.
  - left; reflexivity.
  - right; exact (IH H).
Qed.

Lemma insert_sorted_In (s x : string) (l : list string) :
  In x (insert_sorted s l) <-> x = s \/ In x l.
Proof.
  induction l as [|y l IH]; simpl.
  - intuition congruence.
  - destruct (String.leb s y); simpl; [intuition congruence|].
    rewrite IH. intuition.
Qed.

Lemma sorted_In (x : string) (l : list string) : In x (sorted l) <-> In x l.
Proof.
  unfold sorted.
  induction l as [|y l IH]; simpl; [reflexivity|].
  rewrite insert_sorted_In, IH. intuition congruence.
Qed.

(** Every key bound in the table is among the sorted keys of a message. *)
Lemma sorted_keys_complete {V} (table : dict V) (k : string) (v : V) :
  dict_get table k = Some v ->
  exists l, sorted_keys table = PTuple l /\ In (PStr k) l.
Proof.
  intros H. eexists; split; [reflexivity|].
  apply in_map, sorted_In. unfold dict_keys.
  apply nodup_In. exact (dict_get_Some_In _ _ H).
Qed.

(** ** The monad: what a computation adds to the backend log *)

Lemma call_run (a : action) (w : world) :
  call a w = (Ok tt, World (figure_figsize w) (calls w ++ [a])).
Proof. reflexivity. Qed.

Lemma bounding_box_run (kwargs : dict pyval) (w : world) :
  exists s, bounding_box kwargs w
            = (Ok true, World (figure_figsize w) (calls w ++ [BoundingBox s])).
Proof. eexists. reflexivity. Qed.

Lemma aspect_run (kwargs : dict pyval) (w : world) :
  exists s, aspect kwargs w
            = (Ok true, World (figure_figsize w) (calls w ++ [Aspect s])).
Proof. eexists. reflexivity. Qed.

(** [display] returns [True] and only saves, shows and closes. *)
Lemma display_run (kwargs : dict pyval) (w : world) :
  exists out,
    display kwargs w = (Ok true, World (figure_figsize w) (calls w ++ out))
    /\ incl out [Savefig kwargs; Show; Close].
Proof.
  unfold display, bind, ret.
  destruct (truthy _); [destruct (negb _)|]; cbn.
  - exists [Savefig kwargs; Close]. rewrite <- app_assoc.
    split; [reflexivity|]. intros a [<-|[<-|[]]]; cbn; auto.
  - exists [Show; Close]. rewrite <- app_assoc.
    split; [reflexivity|]. intros a [<-|[<-|[]]]; cbn; auto.
  - exists []. rewrite app_nil_r. destruct w; split; [reflexivity|].
    intros a [].
Qed.

Lemma filter_none {A} (f : A -> bool) (l : list A) :
  (forall a, In a l -> f a = false) -> filter f l = [].
Proof.
  induction l as [|a l IH]; intros H; cbn; [reflexivity|].
  rewrite (H a (or_introl eq_refl)). apply IH. intros b Hb. apply H. now right.
Qed.

(** ** The display helper *)

(** C7. [display] saves the figure exactly when "standalone" is true and a
    filename is given, shows it exactly when "standalone" is true and no
    filename is given, closes the figure after either, touches nothing when
    "standalone" is false, and returns [True] in every case. *)
Theorem display_save_show_or_nothing (kwargs : dict pyval) (w : world) :
  display kwargs w
  = (Ok true, World (figure_figsize w) (calls w ++ display_calls kwargs)).
Proof.
  unfold display, display_calls, standalone_option, filename_given.
  rewrite !attr_update.
  unfold bind, ret.
  destruct (dict_get kwargs "standalone") as [s|];
    destruct (dict_get kwargs "filename") as [f|]; cbn [attr dict_get String.eqb].
  all: try destruct (truthy s); try destruct (is_None f); cbn;
    rewrite <- ?app_assoc, ?app_nil_r; cbn; try reflexivity;
    destruct w; reflexivity.
Qed.

(** The three cases of C7 read off the log. *)
Corollary display_saves_iff (kwargs : dict pyval) (w : world) :
  (In (Savefig kwargs) (display_calls kwargs)
     <-> standalone_option kwargs = true /\ filename_given kwargs = true)
  /\ (In Show (display_calls kwargs)
     <-> standalone_option kwargs = true /\ filename_given kwargs = false)
  /\ (In Close (display_calls kwargs) <-> standalone_option kwargs = true).
Proof.
  unfold display_calls.
  destruct (standalone_option kwargs), (filename_given kwargs); simpl;
    intuition congruence.
Qed.

(** ** The [figure_size] decorator *)

(** C9. After a call to a function decorated with [figure_size], whether
    the function returned or raised, and whether or not a [figure_size]
    keyword was passed, [rcParams['figure.figsize']] is
    [DEFAULT_FIGURE_SIZE], that is (14, 7); the outcome of the call is the
    outcome of the function run under the requested size. *)
Theorem figure_size_restores_default
    {Args A} (size : pyval) (object : Args -> dict pyval -> M A)
    (args : Args) (kwargs : dict pyval) (w : world) :
  let after := figure_size size object args kwargs w in
  let inner := object args kwargs (World (requested_size size kwargs) (calls w)) in
  figure_figsize (snd after) = PTuple [PInt 14; PInt 7]
  /\ fst after = fst inner
  /\ calls (snd after) = calls (snd inner).
Proof.
  unfold figure_size, requested_size, attr, set_figsize. cbn zeta.
  destruct (dict_get kwargs "figure_size") as [v|]; cbn.
  - destruct (is_None v); cbn;
      match goal with |- context [object args kwargs ?w0] =>
        destruct (object args kwargs w0) as [r w2] end; cbn; auto.
  - destruct (object args kwargs _) as [r w2]; cbn; auto.
Qed.

(** ** Name lookups *)

(** The lookups that follow the common pattern raise a [KeyError] that
    names the key and lists every key of the table. *)
Lemma get_or_KeyError_unknown {V} (tmpl : string) (table : dict V) (name : string) :
  dict_get table name = None ->
  get_or_KeyError tmpl table name
  = Raise (KeyError (Format tmpl [PStr name; sorted_keys table])).
Proof. unfold get_or_KeyError. intros ->. reflexivity. Qed.

(** The message names the unknown key and lists every key of the table. *)
Lemma get_or_KeyError_message {V} (tmpl : string) (table : dict V) (name : string) :
  dict_get table name = None ->
  exists keys,
    get_or_KeyError tmpl table name
    = Raise (KeyError (Format tmpl [PStr name; PTuple keys]))
    /\ forall k v, dict_get table k = Some v -> In (PStr k) keys.
Proof.
  intros H. rewrite (get_or_KeyError_unknown tmpl table name H).
  eexists. split; [reflexivity|].
  intros k v Hk. destruct (sorted_keys_complete table k Hk) as (l & El & Hin).
  injection El as <-. exact Hin.
Qed.

Lemma get_or_KeyError_known {V} (tmpl : string) (table : dict V) (name : string) (v : V) :
  dict_get table name = Some v -> get_or_KeyError tmpl table name = Ok v.
Proof. unfold get_or_KeyError. intros ->. reflexivity. Qed.

Lemma sibling_lookups_raise_KeyError {V} (table : dict V) (name : string) :
  dict_get table name = None ->
  is_KeyError (_get_illuminant table name) = true
  /\ is_KeyError (_get_RGB_colourspace table name) = true
  /\ is_KeyError (get_colour_checker table name) = true
  /\ is_KeyError (get_munsell_value_function table name) = true
  /\ is_KeyError (get_lightness_function table name) = true
  /\ is_KeyError (planckian_1931_illuminant table name) = true.
Proof.
  intros H.
  unfold _get_illuminant, _get_RGB_colourspace, get_colour_checker,
    get_munsell_value_function, get_lightness_function,
    planckian_1931_illuminant.
  rewrite !get_or_KeyError_unknown by exact H. cbn. repeat split.
Qed.

(** C4, as the code has it for colour matching functions: an unknown name
    makes [_get_cmfs] raise [AttributeError] while it builds the message,
    so no [KeyError] naming the key and the valid keys is ever raised. *)
Theorem get_cmfs_unknown_is_AttributeError {V} (CMFS : dict V) (cmfs : string) :
  dict_get CMFS cmfs = None ->
  _get_cmfs CMFS cmfs
  = Raise (AttributeError "'NoneType' object has no attribute 'CMFS'")
  /\ is_KeyError (_get_cmfs CMFS cmfs) = false.
Proof.
  intros H. unfold _get_cmfs. rewrite H. cbn. split; reflexivity.
Qed.

(** The lookup of "CIE 1931" in a table that only knows the full name. *)
Lemma get_cmfs_unknown_is_AttributeError_witness :
  dict_get [("CIE 1931 2 Degree Standard Observer", 2%nat)] "CIE 1931" = None
  /\ _get_cmfs [("CIE 1931 2 Degree Standard Observer", 2%nat)] "CIE 1931"
     = Raise (AttributeError "'NoneType' object has no attribute 'CMFS'")
  /\ is_KeyError (_get_cmfs [("CIE 1931 2 Degree Standard Observer", 2%nat)]
                            "CIE 1931") = false.
Proof.
  split; [reflexivity|].
  apply (get_cmfs_unknown_is_AttributeError
           [("CIE 1931 2 Degree Standard Observer", 2%nat)] "CIE 1931").
  reflexivity.
Defined.

(** An unknown colour checker leaves [colour_checker_plot] as the
    [KeyError] of the common pattern, with nothing drawn. *)
Lemma colour_checker_plot_unknown (d : division) {Illuminant XYZ sRGB}
    (COLOURCHECKERS : dict (colour_checker_t Illuminant))
    (xyY_to_XYZ : Q * Q * Q -> XYZ) (XYZ_to_sRGB : XYZ -> Illuminant -> sRGB)
    (np_clip_ravel : sRGB -> pyval) (str_title : string -> string)
    (sRGB_name : string) (name : string) (kwargs : dict pyval) (w : world) :
  dict_get COLOURCHECKERS name = None ->
  exists tmpl keys,
    colour_checker_plot d COLOURCHECKERS xyY_to_XYZ XYZ_to_sRGB np_clip_ravel
      str_title sRGB_name name kwargs w
    = (Raise (KeyError (Format tmpl [PStr name; PTuple keys])), w)
    /\ forall k v, dict_get COLOURCHECKERS k = Some v -> In (PStr k) keys.
Proof.
  intros H. unfold colour_checker_plot, get_colour_checker.
  destruct (get_or_KeyError_message
              ("Colour checker " ++ quoted "{0}"
               ++ " not found in colour checkers: " ++ quoted "{1}" ++ ".")%string
              COLOURCHECKERS name H) as (keys & Hget & Hkeys).
  unfold bind at 1, lift. rewrite Hget. eauto.
Qed.

(** Every diagram function starts with [_get_cmfs], so the same exception
    leaves it, with nothing drawn. *)
Lemma chromaticity_diagram_unknown_cmfs {XYZ} (CMFS : dict (cmfs_t XYZ))
    diagram labels to_uv settings (cmfs : string) kwargs (w : world) :
  dict_get CMFS cmfs = None ->
  chromaticity_diagram CMFS diagram labels to_uv settings cmfs kwargs w
  = (Raise (AttributeError "'NoneType' object has no attribute 'CMFS'"), w).
Proof.
  intros H. unfold chromaticity_diagram, bind, lift, _get_cmfs.
  rewrite H. reflexivity.
Qed.

(** In the CIE 1960 planckian locus plot the conversion runs before the
    test: when it raises on a missing entry, that exception is what the
    caller gets. *)
Lemma planckian_1960_unknown_illuminant {XY UV}
    (xy_to_uv : option XY -> result (option UV)) (illuminants : dict XY)
    (illuminant : string) (e : exn) :
  dict_get illuminants illuminant = None ->
  xy_to_uv None = Raise e ->
  planckian_1960_illuminant xy_to_uv illuminants illuminant = Raise e.
Proof.
  intros H He. unfold planckian_1960_illuminant. rewrite H, He. reflexivity.
Qed.

(** ** The colour swatch grid *)

Lemma new_calls_app (w : world) (fs : pyval) (out : list action) :
  new_calls w (World fs (calls w ++ out)) = out.
Proof.
  unfold new_calls. cbn. rewrite skipn_app, skipn_all, Nat.sub_diag. reflexivity.
Qed.

Lemma div_mod_pred (a i : Z) :
  0 < a -> 0 < i ->
  (i mod a = 0 -> (i - 1) / a + 1 = i / a)
  /\ (i mod a <> 0 -> (i - 1) mod a + 1 = i mod a /\ (i - 1) / a = i / a).
Proof.
  intros Ha Hi.
  pose proof (Z.div_mod i a ltac:(lia)) as Hdm.
  pose proof (Z.mod_pos_bound i a Ha) as Hb.
  split.
  - intros H0.
    assert ((i - 1) / a = i / a - 1); [|lia].
    symmetry. apply Z.div_unique with (r := a - 1); lia.
  - intros Hn.
    assert (Hq : (i - 1) / a = i / a)
      by (symmetry; apply Z.div_unique with (r := i mod a - 1); lia).
    split; [|exact Hq].
    pose proof (Z.div_mod (i - 1) a ltac:(lia)). rewrite Hq in *. lia.
Qed.

Section SwatchGrid.
Variables (width height spacing : Q) (across : Z).
Variables (text_display : bool) (text_size : pyval) (text_offset : Q).
Hypothesis across_pos : 0 < across.

Lemma swatch_loop_run (cps : list ColourParameter) :
  forall (i : Z) (ox oy : Q) (w : world),
  exists out offsets,
    swatch_loop width height spacing across text_display text_size
                text_offset cps i ox oy w
    = (Ok offsets, World (figure_figsize w) (calls w ++ out))
    /\ filter is_Fill out = fills_from width height spacing across cps i ox oy.
Proof.
  induction cps as [|cp rest IH]; intros i ox oy w.
  - exists [], (ox, oy). cbn. rewrite app_nil_r. destruct w; auto.
  - cbn [swatch_loop fills_from].
    unfold bind at 1, lift, py_mod.
    destruct (Z.eqb_spec across 0) as [E|_]; [lia|].
    set (new_row := (i mod across =? 0) && negb (i =? 0)).
    set (ox' := if new_row then 0%Q else ox).
    set (oy' := if new_row then (oy - (height + spacing))%Q else oy).
    unfold bind at 1. rewrite call_run.
    set (w1 := World _ _).
    destruct (negb (is_None (cp_name cp)) && text_display).
    + unfold bind at 1. rewrite call_run.
      destruct (IH (i + 1) (ox' + (width + spacing))%Q oy'
                   (World (figure_figsize w1) (calls w1 ++
                      [Text (ox' + text_offset)%Q (oy' + text_offset)%Q
                            (cp_name cp) text_size])))
        as (out & offs & Hrun & Hfill).
      rewrite Hrun. subst w1. cbn [figure_figsize calls].
      eexists (_ :: _ :: out), offs. split.
      * rewrite <- !app_assoc. reflexivity.
      * cbn. rewrite Hfill. reflexivity.
    + unfold bind at 1, ret.
      destruct (IH (i + 1) (ox' + (width + spacing))%Q oy' w1)
        as (out & offs & Hrun & Hfill).
      rewrite Hrun. subst w1. cbn [figure_figsize calls].
      eexists (_ :: out), offs. split.
      * rewrite <- !app_assoc. reflexivity.
      * cbn. rewrite Hfill. reflexivity.
Qed.

Lemma fills_from_nth (cps : list ColourParameter) :
  forall (i : Z) (ox oy : Q) (k : nat) (cp : ColourParameter),
  0 <= i -> entering width height spacing across i ox oy ->
  nth_error cps k = Some cp ->
  exists x0 y0,
    nth_error (fills_from width height spacing across cps i ox oy) k
    = Some (Fill [x0; (x0 + width)%Q; (x0 + width)%Q; x0]
                 [y0; y0; (y0 + height)%Q; (y0 + height)%Q] (cp_RGB cp))
    /\ (x0 == inject_Z ((i + Z.of_nat k) mod across) * (width + spacing))%Q
    /\ (y0 == - (inject_Z ((i + Z.of_nat k) / across) * (height + spacing)))%Q.
Proof.
  induction cps as [|c rest IH]; intros i ox oy k cp Hi Hent Hnth.
  - destruct k; discriminate.
  - cbn [fills_from].
    set (new_row := (i mod across =? 0) && negb (i =? 0)).
    set (ox' := if new_row then 0%Q else ox).
    set (oy' := if new_row then (oy - (height + spacing))%Q else oy).
    assert (Hafter : (ox' == inject_Z (i mod across) * (width + spacing)
                      /\ oy' == - (inject_Z (i / across) * (height + spacing)))%Q).
    { unfold entering in Hent. subst ox' oy' new_row.
      destruct (Z.eqb_spec i 0) as [->|Hne].
      - rewrite andb_false_r. rewrite Z.mod_0_l, Z.div_0_l by lia.
        destruct Hent as [-> ->]. split; ring.
      - destruct Hent as [Hx Hy].
        destruct (div_mod_pred across_pos (i := i) ltac:(lia)) as [H0 H1].
        destruct (Z.eqb_spec (i mod across) 0) as [E|E]; cbn [andb negb].
        + rewrite E. rewrite Hy, <- (H0 E), inject_Z_plus. split; ring.
        + destruct (H1 E) as [Hm Hd]. rewrite Hx, Hy, Hm, Hd. split; reflexivity. }
    destruct k as [|k].
    + cbn in Hnth. injection Hnth as ->. exists ox', oy'.
      rewrite Z.add_0_r. cbn [nth_error]. tauto.
    + cbn [nth_error] in *.
      destruct (IH (i + 1) (ox' + (width + spacing))%Q oy' k cp
                  ltac:(lia)) as (x0 & y0 & Hn & Hx & Hy); [|exact Hnth|].
      * unfold entering. destruct (Z.eqb_spec (i + 1) 0) as [E|_]; [lia|].
        replace (i + 1 - 1) with i by lia.
        destruct Hafter as [Hx Hy]. rewrite Hx, inject_Z_plus.
        split; [ring | exact Hy].
      * exists x0, y0. split; [exact Hn|].
        replace (i + Z.of_nat (S k)) with (i + 1 + Z.of_nat k) by lia.
        tauto.
Qed.

(** A call of [multi_colour_plot] returns [True]; the [pylab.fill] calls
    it makes are those of the loop. *)
Lemma multi_colour_plot_run
    (colour_parameters : list ColourParameter) (kwargs : dict pyval)
    (w : world) :
  exists out,
    multi_colour_plot width height spacing across text_display text_size
      text_offset colour_parameters kwargs w
    = (Ok true, World (figure_figsize w) (calls w ++ out))
    /\ filter is_Fill out
       = fills_from width height spacing across colour_parameters 0 0%Q 0%Q.
Proof.
  destruct (swatch_loop_run colour_parameters 0 0%Q 0%Q w)
    as (out & offs & Hrun & Hfill).
  unfold multi_colour_plot, bind at 1. rewrite Hrun.
  match goal with |- context [bounding_box ?s] =>
    destruct (bounding_box_run s (World (figure_figsize w) (calls w ++ out)))
      as (sb & Hb); unfold bind at 1; rewrite Hb;
    destruct (aspect_run s (World (figure_figsize w)
                ((calls w ++ out) ++ [BoundingBox sb])))
      as (sa & Ha); cbn [figure_figsize calls] in Ha |- *;
    unfold bind at 1; rewrite Ha;
    destruct (display_run s (World (figure_figsize w)
                (((calls w ++ out) ++ [BoundingBox sb]) ++ [Aspect sa])))
      as (od & Hd & Hnf); cbn [figure_figsize calls] in Hd; rewrite Hd
  end.
  exists (out ++ [BoundingBox sb] ++ [Aspect sa] ++ od). split.
  - rewrite <- !app_assoc. reflexivity.
  - rewrite filter_app, Hfill. cbn [app filter is_Fill].
    rewrite (filter_none is_Fill od); [apply app_nil_r|].
    intros a Ha'. apply Hnf in Ha'. cbn in Ha'.
    destruct Ha' as [<-|[<-|[<-|[]]]]; reflexivity.
Qed.

(** C10. The [i]-th swatch drawn by [multi_colour_plot] is the rectangle
    of corners [(x0, y0)] and [(x0 + width, y0 + height)] with
    [x0 = (i mod across) * (width + spacing)] and
    [y0 = - floor(i / across) * (height + spacing)], in the colour of the
    [i]-th parameter: rows of [across] swatches, left to right, each row
    [height + spacing] below the one before. *)
Theorem multi_colour_plot_swatch_grid
    (colour_parameters : list ColourParameter) (kwargs : dict pyval)
    (w : world) (i : nat) (cp : ColourParameter) :
  nth_error colour_parameters i = Some cp ->
  let w' := snd (multi_colour_plot width height spacing across text_display
                   text_size text_offset colour_parameters kwargs w) in
  exists x0 y0,
    nth_error (filter is_Fill (new_calls w w')) i
    = Some (Fill [x0; (x0 + width)%Q; (x0 + width)%Q; x0]
                 [y0; y0; (y0 + height)%Q; (y0 + height)%Q] (cp_RGB cp))
    /\ (x0 == inject_Z (Z.of_nat i mod across) * (width + spacing))%Q
    /\ (y0 == - (inject_Z (Z.of_nat i / across) * (height + spacing)))%Q.
Proof.
  intros Hnth w'.
  destruct (@fills_from_nth colour_parameters 0 0%Q 0%Q i cp
              ltac:(lia) ltac:(cbn; split; reflexivity) Hnth)
    as (x0 & y0 & Hn & Hx & Hy).
  exists x0, y0. split; [|split; assumption].
  rewrite <- Hn. f_equal.
  destruct (multi_colour_plot_run colour_parameters kwargs w)
    as (out & Hrun & Hfill).
  subst w'. rewrite Hrun. cbn [snd]. rewrite new_calls_app. exact Hfill.
Qed.
End SwatchGrid.

(** Three swatches in rows of two: the third one starts the second row. *)
Lemma multi_colour_plot_swatch_grid_witness :
  let cps := [COLOUR_PARAMETER (PStr "dark skin") (PInt 1) PNone PNone PNone;
              COLOUR_PARAMETER (PStr "light skin") (PInt 2) PNone PNone PNone;
              COLOUR_PARAMETER PNone (PInt 3) PNone PNone PNone] in
  let w := World DEFAULT_FIGURE_SIZE [] in
  0 < 2
  /\ nth_error cps 2 = Some (COLOUR_PARAMETER PNone (PInt 3) PNone PNone PNone)
  /\ exists x0 y0,
       nth_error (filter is_Fill
                    (new_calls w (snd (multi_colour_plot 1 1 (1 # 4) 2 true
                       (PStr "large") (75 # 1000) cps [] w)))) 2
       = Some (Fill [x0; (x0 + 1)%Q; (x0 + 1)%Q; x0]
                    [y0; y0; (y0 + 1)%Q; (y0 + 1)%Q] (PInt 3))
       /\ (x0 == inject_Z (Z.of_nat 2 mod 2) * (1 + (1 # 4)))%Q
       /\ (y0 == - (inject_Z (Z.of_nat 2 / 2) * (1 + (1 # 4))))%Q.
Proof.
  cbv zeta. split; [lia|]. split; [reflexivity|].
  apply (@multi_colour_plot_swatch_grid 1 1 (1 # 4) 2 true (PStr "large")
           (75 # 1000) ltac:(lia) _ [] (World DEFAULT_FIGURE_SIZE []) 2%nat
           (COLOUR_PARAMETER PNone (PInt 3) PNone PNone PNone)).
  reflexivity.
Defined.

(** ** The position of the chart title *)

(** Both divisions of [text_x] and [text_y] have a non-zero divisor. *)
Lemma text_position (d : division) (cps : list ColourParameter) :
  exists tx ty,
    text_x d = Ok (NFloat tx) /\ text_y d cps = Ok (NFloat ty)
    /\ (tx == 1 * (6 / 2) + 6 * ((1 # 4) / 2) - (1 # 4) / 2)%Q
    /\ (ty == match d with
              | true_division =>
                  - (inject_Z (Z.of_nat (List.length cps)) / 6 + (1 # 4) / 2)
              | classic_division =>
                  - (inject_Z (Z.of_nat (List.length cps) / 6) + (1 # 4) / 2)
              end)%Q.
Proof.
  destruct d; do 2 eexists; (split; [reflexivity|]); (split; [reflexivity|]);
    (split; [reflexivity|]); cbn; reflexivity.
Qed.

Lemma kw_float_default (kwargs defaults : dict pyval) (k : string) (q : Q) :
  dict_get kwargs k = None ->
  (dict_get defaults k = None \/ dict_get defaults k = Some (PFloat q)) ->
  kw_float (dict_update defaults kwargs) k q = Ok q.
Proof.
  intros Hk Hd. unfold kw_float. rewrite dict_get_update, Hk.
  destruct Hd as [-> | ->]; reflexivity.
Qed.

(** The steps that end every plotting function. *)
Lemma decorate_and_display_run (settings : dict pyval) (w : world) :
  exists out,
    (bounding_box settings ;;; aspect settings ;;; display settings) w
    = (Ok true, World (figure_figsize w) (calls w ++ out))
    /\ (forall a, In a out -> is_Fill a = false).
Proof.
  destruct (bounding_box_run settings w) as (sb & Hb).
  unfold bind at 1. rewrite Hb.
  match goal with |- context [bind _ _ ?w1] =>
    destruct (aspect_run settings w1) as (sa & Ha);
    unfold bind at 1; rewrite Ha
  end.
  match goal with |- context [display _ ?w2] =>
    destruct (display_run settings w2) as (od & Hd & Hnf); rewrite Hd
  end.
  cbn [figure_figsize calls].
  exists ([BoundingBox sb; Aspect sa] ++ od). split.
  - rewrite <- !app_assoc. reflexivity.
  - intros a [<-|[<-|Hin]]; try reflexivity.
    apply Hnf in Hin. cbn in Hin. destruct Hin as [<-|[<-|[<-|[]]]]; reflexivity.
Qed.

(** With the grid parameters left alone, [colour_checker_plot] draws the
    grid, then the title at [(text_x, text_y)], and returns [True]. *)
Lemma colour_checker_plot_run (d : division) {Illuminant XYZ sRGB}
    (COLOURCHECKERS : dict (colour_checker_t Illuminant))
    (xyY_to_XYZ : Q * Q * Q -> XYZ) (XYZ_to_sRGB : XYZ -> Illuminant -> sRGB)
    (np_clip_ravel : sRGB -> pyval) (str_title : string -> string)
    (sRGB_name : string) (name : string) (kwargs : dict pyval) (w : world)
    (c : colour_checker_t Illuminant) :
  dict_get COLOURCHECKERS name = Some c ->
  grid_parameters_kept kwargs ->
  exists cps tx ty title before after,
    List.length cps = List.length (checker_data c)
    /\ text_x d = Ok tx /\ text_y d cps = Ok ty
    /\ colour_checker_plot d COLOURCHECKERS xyY_to_XYZ XYZ_to_sRGB
         np_clip_ravel str_title sRGB_name name kwargs w
       = (Ok true,
          World (figure_figsize w)
                (calls w ++ before
                 ++ ChartText (to_Q tx) (to_Q ty) title ha_center :: after)).
Proof.
  intros Hc Hk. unfold colour_checker_plot, get_colour_checker.
  rewrite (get_or_KeyError_known _ _ _ Hc).
  unfold bind at 1, lift. unfold bind at 1. rewrite call_run.
  set (cps := map _ (checker_data c)).
  destruct (text_position d cps) as (tx & ty & Htx & Hty & _).
  exists cps, (NFloat tx), (NFloat ty).
  unfold bind at 1. unfold multi_colour_plot_kw.
  unfold bind at 1, lift.
  rewrite kw_float_default with (q := 1%Q);
    [|apply Hk; cbn; tauto|right; reflexivity].
  unfold bind at 1.
  rewrite kw_float_default with (q := 1%Q);
    [|apply Hk; cbn; tauto|right; reflexivity].
  unfold bind at 1. unfold kw_float at 1. rewrite dict_get_update.
  rewrite (Hk "spacing") by (cbn; tauto). cbn [dict_get String.eqb Ascii.eqb Bool.eqb].
  unfold bind at 1. unfold kw_number. rewrite dict_get_update.
  rewrite (Hk "across") by (cbn; tauto). cbn [dict_get String.eqb Ascii.eqb Bool.eqb].
  unfold bind at 1.
  rewrite kw_float_default with (q := (75 # 1000)%Q);
    [|apply Hk; cbn; tauto|left; reflexivity].
  match goal with |- context [multi_colour_plot ?wd ?h ?sp ?ac ?td ?ts ?to ?c0 ?kw ?w0] =>
    destruct (@multi_colour_plot_run wd h sp ac td ts to eq_refl c0 kw w0)
      as (out & Hrun & _); rewrite Hrun
  end.
  rewrite Htx, Hty. unfold bind at 1. unfold bind at 1.
  unfold bind at 1. rewrite call_run. cbn [figure_figsize calls].
  match goal with |- context [bind (bounding_box ?s) _ ?w0] =>
    destruct (decorate_and_display_run s w0) as (od & Hd & _); rewrite Hd
  end.
  cbn [figure_figsize calls].
  eexists _, (SetFacecolor "0.1" :: out), od.
  split; [unfold cps; apply length_map|]. split; [reflexivity|].
  split; [reflexivity|].
  rewrite <- !app_assoc. reflexivity.
Qed.

(** In [characterization.py] both divisions are true divisions: the title
    is drawn at [width * (across / 2) + across * (spacing / 2) - spacing / 2]
    and [-(len(colour_parameters) / across + spacing / 2)], nothing
    floored. *)
Lemma characterization_title_position {Illuminant XYZ sRGB}
    (COLOURCHECKERS : dict (colour_checker_t Illuminant))
    (xyY_to_XYZ : Q * Q * Q -> XYZ) (XYZ_to_sRGB : XYZ -> Illuminant -> sRGB)
    (np_clip_ravel : sRGB -> pyval) (str_title : string -> string)
    (sRGB_name : string) (name : string) (kwargs : dict pyval) (w : world)
    (c : colour_checker_t Illuminant) :
  dict_get COLOURCHECKERS name = Some c ->
  grid_parameters_kept kwargs ->
  exists tx ty title before after,
    Characterization.colour_checker_plot COLOURCHECKERS xyY_to_XYZ XYZ_to_sRGB
      np_clip_ravel str_title sRGB_name name kwargs w
    = (Ok true,
       World (figure_figsize w)
             (calls w ++ before ++ ChartText tx ty title ha_center :: after))
    /\ (tx == 1 * (6 / 2) + 6 * ((1 # 4) / 2) - (1 # 4) / 2)%Q
    /\ (ty == - (inject_Z (Z.of_nat (List.length (checker_data c))) / 6
                 + (1 # 4) / 2))%Q.
Proof.
  intros Hc Hk.
  destruct (@colour_checker_plot_run true_division _ _ _ COLOURCHECKERS xyY_to_XYZ
              XYZ_to_sRGB np_clip_ravel str_title sRGB_name name kwargs w c
              Hc Hk)
    as (cps & tx & ty & title & before & after & Hlen & Htx & Hty & Hrun).
  destruct (text_position true_division cps) as (qx & qy & Hqx & Hqy & Hx & Hy).
  rewrite Hqx in Htx. rewrite Hqy in Hty.
  injection Htx as <-. injection Hty as <-.
  exists qx, qy, title, before, after.
  split; [exact Hrun|]. split; [exact Hx|]. rewrite <- Hlen. exact Hy.
Qed.

(** The same with the flooring division of [plots.py]. *)
Lemma plots_title_position {Illuminant XYZ sRGB}
    (COLOURCHECKERS : dict (colour_checker_t Illuminant))
    (xyY_to_XYZ : Q * Q * Q -> XYZ) (XYZ_to_sRGB : XYZ -> Illuminant -> sRGB)
    (np_clip_ravel : sRGB -> pyval) (str_title : string -> string)
    (sRGB_name : string) (name : string) (kwargs : dict pyval) (w : world)
    (c : colour_checker_t Illuminant) :
  dict_get COLOURCHECKERS name = Some c ->
  grid_parameters_kept kwargs ->
  exists tx ty title before after,
    Plots.colour_checker_plot COLOURCHECKERS xyY_to_XYZ XYZ_to_sRGB
      np_clip_ravel str_title sRGB_name name kwargs w
    = (Ok true,
       World (figure_figsize w)
             (calls w ++ before ++ ChartText tx ty title ha_center :: after))
    /\ (tx == 1 * (6 / 2) + 6 * ((1 # 4) / 2) - (1 # 4) / 2)%Q
    /\ (ty == - (inject_Z (Z.of_nat (List.length (checker_data c)) / 6)
                 + (1 # 4) / 2))%Q.
Proof.
  intros Hc Hk.
  destruct (@colour_checker_plot_run classic_division _ _ _ COLOURCHECKERS xyY_to_XYZ
              XYZ_to_sRGB np_clip_ravel str_title sRGB_name name kwargs w c
              Hc Hk)
    as (cps & tx & ty & title & before & after & Hlen & Htx & Hty & Hrun).
  destruct (text_position classic_division cps) as (qx & qy & Hqx & Hqy & Hx & Hy).
  rewrite Hqx in Htx. rewrite Hqy in Hty.
  injection Htx as <-. injection Hty as <-.
  exists qx, qy, title, before, after.
  split; [exact Hrun|]. split; [exact Hx|]. rewrite <- Hlen. exact Hy.
Qed.

(** C8, at a checker of seven colours drawn by the copy in [plots.py]: the
    chart title is drawn at [text_y = -(1 + spacing / 2)], the count
    floored to one row, and not at [-(7 / 6 + spacing / 2)] as true
    division gives. *)
Theorem plots_title_of_seven_colours_is_floored :
  exists tx ty title,
    In (ChartText tx ty title ha_center)
       (calls (snd (Plots.colour_checker_plot seven
                      (fun xyY => xyY) (fun XYZ (_ : unit) => XYZ)
                      (fun _ => PStr "0.5") (fun s => s) "sRGB"
                      "Seven" [] (World DEFAULT_FIGURE_SIZE []))))
    /\ (ty == - (1 + (1 # 4) / 2))%Q
    /\ ~ (ty == - (7 / 6 + (1 # 4) / 2))%Q.
Proof.
  do 3 eexists. split.
  - vm_compute. repeat (first [left; reflexivity | right]).
  - split; [reflexivity|]. intros H. vm_compute in H. discriminate H.
Qed.

(** ** Computations only add to the backend log *)

Lemma appends_ret {A} (a : A) : appends (ret a).
Proof. intros w. exists (Ok a), []. rewrite app_nil_r. destruct w; reflexivity. Qed.

Lemma appends_raise {A} (e : exn) : appends (@raise A e).
Proof. intros w. exists (Raise e), []. rewrite app_nil_r. destruct w; reflexivity. Qed.

Lemma appends_lift {A} (r : result A) : appends (lift r).
Proof. intros w. exists r, []. rewrite app_nil_r. destruct w; reflexivity. Qed.

Lemma appends_call (a : action) : appends (call a).
Proof. intros w. exists (Ok tt), [a]. reflexivity. Qed.

Lemma appends_bind {A B} (m : M A) (f : A -> M B) :
  appends m -> (forall a, appends (f a)) -> appends (bind m f).
Proof.
  intros Hm Hf w. unfold bind.
  destruct (Hm w) as (r & out & ->).
  destruct r as [a|e].
  - destruct (Hf a (World (figure_figsize w) (calls w ++ out))) as (r' & out' & ->).
    exists r', (out ++ out'). cbn. rewrite app_assoc. reflexivity.
  - exists (Raise e), out. reflexivity.
Qed.

Create HintDb appends.
#[local] Hint Resolve appends_ret appends_raise appends_lift appends_call
  appends_bind : appends.

Lemma appends_display (kwargs : dict pyval) : appends (display kwargs).
Proof.
  intros w. destruct (display_run kwargs w) as (out & -> & _).
  eexists _, out. reflexivity.
Qed.

Lemma appends_bounding_box (kwargs : dict pyval) : appends (bounding_box kwargs).
Proof. unfold bounding_box. auto with appends. Qed.

Lemma appends_aspect (kwargs : dict pyval) : appends (aspect kwargs).
Proof. unfold aspect. auto with appends. Qed.

Lemma appends_draw_label wavelengths coords label :
  appends (draw_label wavelengths coords label).
Proof.
  unfold draw_label. destruct (coords_get coords label) as [[x y]|];
    auto 10 with appends.
Qed.

Lemma appends_for_each {A} (l : list A) (body : A -> M unit) :
  (forall a, appends (body a)) -> appends (for_each l body).
Proof.
  intros H. induction l as [|a l IH]; cbn; auto with appends.
Qed.

#[local] Hint Resolve appends_display appends_bounding_box appends_aspect
  appends_draw_label appends_for_each : appends.

Lemma figure_size_calls {Args A} (size : pyval)
    (object : Args -> dict pyval -> M A) (args : Args) (kwargs : dict pyval)
    (w : world) :
  calls (snd (figure_size size object args kwargs w))
  = calls (snd (object args kwargs (World (requested_size size kwargs) (calls w)))).
Proof.
  unfold figure_size, requested_size, attr, set_figsize. cbn zeta.
  destruct (dict_get kwargs "figure_size") as [v|]; cbn.
  - destruct (is_None v); cbn;
      match goal with |- context [object args kwargs ?w0] =>
        destruct (object args kwargs w0) as [r w2] end; reflexivity.
  - destruct (object args kwargs _) as [r w2]; reflexivity.
Qed.

(** ** The spectral locus is a closed polygon *)

Lemma last_map {A B} (f : A -> B) (l : list A) (d : A) (d' : B) :
  l <> [] -> last (map f l) d' = f (last l d).
Proof.
  induction l as [|a l IH]; intros H; [contradiction|].
  destruct l as [|b l]; [reflexivity|].
  change (last (map f (b :: l)) d' = f (last (b :: l) d)).
  apply IH. discriminate.
Qed.

Lemma chromaticity_diagram_closed_locus {XYZ} (CMFS : dict (cmfs_t XYZ))
    diagram labels (to_uv : XYZ -> vec) settings (cmfs : string) kwargs
    (w : world) (c : cmfs_t XYZ) :
  dict_get CMFS cmfs = Some c ->
  cmfs_values c <> [] ->
  closed_locus (map to_uv (cmfs_values c))
    (new_calls w (snd (chromaticity_diagram CMFS diagram labels to_uv settings
                         cmfs kwargs w))).
Proof.
  intros Hc Hne. unfold chromaticity_diagram, _get_cmfs.
  rewrite Hc. unfold bind at 1, lift. unfold bind at 1. rewrite call_run.
  remember (map to_uv (cmfs_values c)) as uvs eqn:Huvs.
  assert (Hu : uvs <> []) by (subst; destruct (cmfs_values c); [contradiction|discriminate]).
  destruct uvs as [|p uvs']; [contradiction|].
  unfold bind at 1. rewrite call_run. unfold bind at 1. rewrite call_run.
  cbn [figure_figsize calls].
  match goal with |- context [bind ?m ?f ?w0] =>
    assert (Ha : appends (bind m f)) by auto 10 with appends;
    destruct (Ha w0) as (r & out & ->) end.
  cbn [snd figure_figsize calls]. rewrite <- !app_assoc. rewrite new_calls_app.
  exists (diagram ++ "_" ++ replace_spaces (cmfs_name c) ++ "_Small.png")%string, out.
  cbn [app]. unfold last_first.
  rewrite (@last_map _ _ fst (p :: uvs') (NaN, NaN) NaN Hu).
  rewrite (@last_map _ _ snd (p :: uvs') (NaN, NaN) NaN Hu).
  reflexivity.
Qed.

(** C6. For a table that is found and not empty, each of the three diagram
    plots traces the locus through the chromaticity coordinates in table
    order and then draws the segment from the last coordinate back to the
    first: the boundary is a closed polygon. *)
Theorem spectral_locus_is_closed {XYZ UCS Luv Illuminant}
    (CMFS : dict (cmfs_t XYZ))
    (XYZ_to_xy : XYZ -> vec) (XYZ_to_UCS : XYZ -> UCS) (UCS_to_uv : UCS -> vec)
    (XYZ_to_Luv : XYZ -> Illuminant -> Luv) (Luv_to_uv : Luv -> vec)
    (D50 : Illuminant)
    (cmfs : string) (kwargs : dict pyval) (w : world) (c : cmfs_t XYZ) :
  dict_get CMFS cmfs = Some c ->
  cmfs_values c <> [] ->
  closed_locus (map XYZ_to_xy (cmfs_values c))
    (new_calls w (snd (CIE_1931_chromaticity_diagram_plot CMFS XYZ_to_xy
                         cmfs kwargs w)))
  /\ closed_locus (map (fun v => UCS_to_uv (XYZ_to_UCS v)) (cmfs_values c))
    (new_calls w (snd (CIE_1960_UCS_chromaticity_diagram_plot CMFS XYZ_to_UCS
                         UCS_to_uv cmfs kwargs w)))
  /\ closed_locus (map (fun v => Luv_to_uv (XYZ_to_Luv v D50)) (cmfs_values c))
    (new_calls w (snd (CIE_1976_UCS_chromaticity_diagram_plot CMFS XYZ_to_Luv
                         Luv_to_uv D50 cmfs kwargs w))).
Proof.
  intros Hc Hne.
  unfold CIE_1931_chromaticity_diagram_plot,
    CIE_1960_UCS_chromaticity_diagram_plot,
    CIE_1976_UCS_chromaticity_diagram_plot, new_calls.
  rewrite !figure_size_calls.
  repeat split;
    match goal with |- context [chromaticity_diagram _ ?d ?l ?f ?s _ _ ?w0] =>
      exact (chromaticity_diagram_closed_locus CMFS d l f s cmfs kwargs w0 Hc Hne)
    end.
Qed.

(** ** Sorted tables, [bisect] and the coordinate dictionary *)

Lemma strictly_increasing_cons (l : list Q) :
  forall a, strictly_increasing (a :: l) = true ->
  strictly_increasing l = true
  /\ forall k, (k < List.length l)%nat -> (a < nth k l 0)%Q.
Proof.
  induction l as [|b l IH]; intros a H.
  - split; [reflexivity|]. cbn. lia.
  - change (negb (Qle_bool b a) && strictly_increasing (b :: l) = true) in H.
    apply andb_true_iff in H. destruct H as [Hab Hl].
    apply negb_true_iff in Hab.
    rewrite <- not_true_iff_false, Qle_bool_iff in Hab.
    apply Qnot_le_lt in Hab.
    split; [exact Hl|]. intros [|k] Hk; cbn [nth]; [exact Hab|].
    apply Qlt_trans with b; [exact Hab|].
    apply (IH b Hl). cbn in Hk. lia.
Qed.

Lemma strictly_increasing_nth (l : list Q) :
  strictly_increasing l = true ->
  forall i j, (i < j < List.length l)%nat -> (nth i l 0 < nth j l 0)%Q.
Proof.
  induction l as [|a l IH]; intros H i j Hij; [cbn in Hij; lia|].
  destruct (strictly_increasing_cons l a H) as [Hl Hhd].
  cbn [List.length] in Hij.
  destruct i as [|i]; destruct j as [|j]; try lia; cbn [nth].
  - apply Hhd. lia.
  - apply IH; [exact Hl|]. lia.
Qed.

Lemma bisect_right_spec (a : list Q) (x : Q) (lo hi : nat) :
  (forall i j, (i < j < List.length a)%nat -> (nth i a 0 < nth j a 0)%Q) ->
  (lo <= hi <= List.length a)%nat ->
  (forall j, (j < lo)%nat -> (nth j a 0 <= x)%Q) ->
  (forall j, (hi <= j < List.length a)%nat -> (x < nth j a 0)%Q) ->
  let r := bisect_right a x lo hi in
  (lo <= r <= hi)%nat
  /\ (forall j, (j < r)%nat -> (nth j a 0 <= x)%Q)
  /\ (forall j, (r <= j < List.length a)%nat -> (x < nth j a 0)%Q).
Proof.
  intros Hs. funelim (bisect_right a x lo hi).
  - intros Hb Hlo Hhi. assert (lo = hi) by lia. subst hi.
    split; [lia|]. split; [exact Hlo|exact Hhi].
  - intros Hb Hlo Hhi.
    assert (Hm : (lo <= (lo + hi) / 2 < hi)%nat)
      by (split; [apply Nat.div_le_lower_bound
                 | apply Nat.Div0.div_lt_upper_bound]; lia).
    match goal with IH : _ -> _ -> _ -> _ -> _ |- _ =>
      destruct (IH Hs) as (Hr & Hle & Hgt); [lia|exact Hlo| |] end.
    + intros j Hj. destruct (Nat.eq_dec j ((lo + hi) / 2)) as [->|Hne]; [assumption|].
      eapply Qlt_trans; [eassumption|]. apply Hs. lia.
    + split; [lia|]. split; assumption.
  - intros Hb Hlo Hhi.
    assert (Hm : (lo <= (lo + hi) / 2 < hi)%nat)
      by (split; [apply Nat.div_le_lower_bound
                 | apply Nat.Div0.div_lt_upper_bound]; lia).
    match goal with IH : _ -> _ -> _ -> _ -> _ |- _ =>
      destruct (IH Hs) as (Hr & Hle & Hgt); [lia| |exact Hhi|] end.
    + intros j Hj. destruct (Nat.eq_dec j ((lo + hi) / 2)) as [->|Hne]; [assumption|].
      eapply Qle_trans; [|eassumption]. apply Qlt_le_weak, Hs. lia.
    + split; [lia|]. split; assumption.
Qed.

(** On a strictly increasing table, [bisect] of a table wavelength is the
    index just after it. *)
Lemma bisect_table_wavelength (wl : list Q) (label : Q) (k : nat) :
  strictly_increasing wl = true ->
  (k < List.length wl)%nat -> (label == nth k wl 0)%Q ->
  bisect wl label = Z.of_nat k + 1.
Proof.
  intros Hs Hk Hl. unfold bisect.
  pose proof (strictly_increasing_nth wl Hs) as Hn.
  destruct (@bisect_right_spec wl label 0 (List.length wl) Hn ltac:(lia))
    as (Hr & Hle & Hgt).
  - intros j Hj. lia.
  - intros j Hj. lia.
  - set (r := bisect_right wl label 0 (List.length wl)) in *.
    assert (k < r)%nat.
    { destruct (le_lt_dec r k) as [Hrk|]; [|assumption].
      specialize (Hgt k ltac:(lia)). rewrite Hl in Hgt.
      exfalso. exact (Qlt_irrefl _ Hgt). }
    assert (r <= S k)%nat.
    { destruct (le_lt_dec r (S k)) as [|Hrk]; [assumption|].
      specialize (Hle (S k) Hrk). rewrite Hl in Hle.
      specialize (Hn k (S k) ltac:(lia)).
      exfalso. exact (Qlt_not_le _ _ Hn Hle). }
    lia.
Qed.

Lemma getitem_nth {A} (l : list A) (k : nat) (d : A) :
  (k < List.length l)%nat -> getitem l (Z.of_nat k) = Ok (nth k l d).
Proof.
  intros Hk. unfold getitem.
  destruct (Z.ltb_spec (Z.of_nat k) 0) as [|_]; [lia|].
  destruct (Z.leb_spec 0 (Z.of_nat k)) as [_|]; [|lia].
  destruct (Z.ltb_spec (Z.of_nat k) (Z.of_nat (List.length l))) as [_|]; [|lia].
  cbn [andb]. rewrite Nat2Z.id.
  rewrite (nth_error_nth' l d Hk). reflexivity.
Qed.

Lemma getitem_last {A} (l : list A) (d : A) :
  l <> [] -> getitem l (-1) = Ok (nth (List.length l - 1) l d).
Proof.
  intros Hne. unfold getitem.
  assert (0 < List.length l)%nat by (destruct l; [contradiction|cbn; lia]).
  change (-1 <? 0) with true. cbv iota.
  destruct (Z.leb_spec 0 (-1 + Z.of_nat (List.length l))) as [_|]; [|lia].
  destruct (Z.ltb_spec (-1 + Z.of_nat (List.length l)) (Z.of_nat (List.length l)))
    as [_|]; [|lia].
  cbn [andb].
  replace (Z.to_nat (-1 + Z.of_nat (List.length l))) with (List.length l - 1)%nat by lia.
  rewrite (@nth_error_nth' _ l (List.length l - 1) d ltac:(lia)). reflexivity.
Qed.

Lemma coords_get_Qeq (d : list (Q * vec)) (k k' : Q) :
  (k == k')%Q -> coords_get d k = coords_get d k'.
Proof.
  intros H. induction d as [|[k0 v] d IH]; cbn; [reflexivity|].
  rewrite IH.
  assert (Qeq_bool k k0 = Qeq_bool k' k0) as ->; [|reflexivity].
  destruct (Qeq_bool k' k0) eqn:E.
  - apply Qeq_bool_iff. apply Qeq_bool_iff in E. rewrite H. exact E.
  - apply not_true_iff_false. intros E'. apply Qeq_bool_iff in E'.
    rewrite H in E'. apply Qeq_bool_iff in E'. congruence.
Qed.

Lemma coords_get_combine_None (wl : list Q) :
  forall (uvs : list vec) (k : Q),
  (forall j, (j < List.length wl)%nat -> ~ (k == nth j wl 0)%Q) ->
  coords_get (combine wl uvs) k = None.
Proof.
  induction wl as [|a wl IH]; intros uvs k H; [reflexivity|].
  destruct uvs as [|v uvs]; [reflexivity|]. cbn.
  rewrite IH.
  - destruct (Qeq_bool k a) eqn:E; [|reflexivity].
    apply Qeq_bool_iff in E. exfalso. apply (H 0%nat); [cbn; lia|exact E].
  - intros j Hj. apply (H (S j)). cbn. lia.
Qed.

(** In a table with strictly increasing wavelengths the entry of the
    [k]-th wavelength is the [k]-th coordinate. *)
Lemma coords_get_combine_nth (wl : list Q) :
  forall (uvs : list vec) (k : nat) (d : vec),
  strictly_increasing wl = true ->
  List.length uvs = List.length wl -> (k < List.length wl)%nat ->
  coords_get (combine wl uvs) (nth k wl 0%Q) = Some (nth k uvs d).
Proof.
  induction wl as [|a wl IH]; intros uvs k d Hs Hlen Hk; [cbn in Hk; lia|].
  destruct uvs as [|v uvs]; [discriminate|].
  destruct (strictly_increasing_cons wl a Hs) as [Hs' Hhd].
  cbn [combine coords_get]. destruct k as [|k]; cbn [nth].
  - rewrite coords_get_combine_None.
    + rewrite (proj2 (Qeq_bool_iff a a) (Qeq_refl a)). reflexivity.
    + intros j Hj E. specialize (Hhd j Hj). rewrite <- E in Hhd.
      exact (Qlt_irrefl _ Hhd).
  - rewrite (IH uvs k d Hs'); [reflexivity| |]; cbn in *; lia.
Qed.

(** A lookup that succeeds found a table wavelength. *)
Lemma coords_get_Some_nth (wl : list Q) :
  forall (uvs : list vec) (k : Q) (v : vec),
  coords_get (combine wl uvs) k = Some v ->
  exists j, (j < List.length wl)%nat /\ (k == nth j wl 0)%Q.
Proof.
  induction wl as [|a wl IH]; intros uvs k v H; [discriminate|].
  destruct uvs as [|v0 uvs]; [discriminate|]. cbn in H.
  destruct (coords_get (combine wl uvs) k) eqn:E.
  - destruct (IH _ _ _ E) as (j & Hj & Hq). exists (S j). cbn. split; [lia|exact Hq].
  - destruct (Qeq_bool k a) eqn:Eq; [|discriminate].
    exists 0%nat. cbn. split; [lia|]. apply Qeq_bool_iff. exact Eq.
Qed.

(** ** numpy arithmetic on finite values *)

Local Open Scope R_scope.

Lemma fdiv_Fin (x y : R) : y <> 0 -> fdiv (Fin x) (Fin y) = Fin (x / y).
Proof. intros H. unfold fdiv. destruct (Req_dec_T y 0); [contradiction|reflexivity]. Qed.

Lemma fdiv_zero_by_zero (x y : R) : x = 0 -> y = 0 -> fdiv (Fin x) (Fin y) = NaN.
Proof.
  intros -> ->. unfold fdiv, inf_times.
  destruct (Req_dec_T 0 0); [|contradiction].
  destruct (Rlt_dec 0 0); [lra|reflexivity].
Qed.

Lemma equal_energy_eq : equal_energy = (Fin (1 / 3), Fin (1 / 3)).
Proof. unfold equal_energy. rewrite fdiv_Fin by lra. reflexivity. Qed.

Lemma np_linalg_norm_Fin (a b : R) :
  np_linalg_norm (Fin a, Fin b) = Fin (sqrt (a * a + b * b)).
Proof.
  unfold np_linalg_norm, fsqrt. cbn.
  destruct (Rlt_dec (a * a + b * b) 0); [nra|reflexivity].
Qed.

Lemma norm_pos (a b : R) : a <> 0 \/ b <> 0 -> 0 < sqrt (a * a + b * b).
Proof. intros H. apply sqrt_lt_R0. nra. Qed.

Lemma norme_Fin (a b : R) :
  a <> 0 \/ b <> 0 ->
  norme (Fin a, Fin b)
  = (Fin (a / sqrt (a * a + b * b)), Fin (b / sqrt (a * a + b * b))).
Proof.
  intros H. pose proof (norm_pos H).
  unfold norme, vdiv. rewrite np_linalg_norm_Fin. cbn [fst snd].
  rewrite !fdiv_Fin by lra. reflexivity.
Qed.

Lemma norme_zero (a b : R) : a = 0 -> b = 0 -> norme (Fin a, Fin b) = (NaN, NaN).
Proof.
  intros -> ->. unfold norme, vdiv. rewrite np_linalg_norm_Fin. cbn [fst snd].
  replace (0 * 0 + 0 * 0) with 0 by ring. rewrite sqrt_0.
  rewrite fdiv_zero_by_zero by reflexivity. reflexivity.
Qed.

Lemma fgtb_Fin_0 (d : R) : fgtb (Fin d) (Fin 0) = true <-> 0 < d.
Proof. unfold fgtb. destruct (Rlt_dec 0 d); intuition discriminate. Qed.

Lemma fgeb_Fin_0 (d : R) : fgeb (Fin d) (Fin 0) = true <-> 0 <= d.
Proof. unfold fgeb. destruct (Rle_dec 0 d); intuition discriminate. Qed.

(** The sign of the dot product of two normalised vectors is the sign of
    the dot product of the vectors. *)
Lemma dot_norme_sign (ax ay bx b_y : R) :
  ax <> 0 \/ ay <> 0 -> bx <> 0 \/ b_y <> 0 ->
  exists d, np_dot (norme (Fin ax, Fin ay)) (norme (Fin bx, Fin b_y)) = Fin d
            /\ (0 < d <-> 0 < ax * bx + ay * b_y).
Proof.
  intros Ha Hb. rewrite !norme_Fin by assumption.
  pose proof (norm_pos Ha) as Hna. pose proof (norm_pos Hb) as Hnb.
  set (na := sqrt (ax * ax + ay * ay)) in *.
  set (nb := sqrt (bx * bx + b_y * b_y)) in *.
  eexists. split; [reflexivity|].
  replace (ax / na * (bx / nb) + ay / na * (b_y / nb))
    with ((ax * bx + ay * b_y) * / (na * nb)) by (field; lra).
  assert (0 < / (na * nb)) by (apply Rinv_0_lt_compat; nra).
  split; intros; nra.
Qed.

(** The candidate the test picks has a non-negative dot product with the
    vector from the equal-energy point to the label. *)
Lemma chosen_candidate (ax ay a b : R) :
  ax <> 0 \/ ay <> 0 -> a <> 0 \/ b <> 0 ->
  exists cx cy,
    (if fgtb (np_dot (norme (Fin ax, Fin ay)) (norme (fneg (Fin b), Fin a))) (Fin 0)
     then (fneg (Fin b), Fin a) else (Fin b, fneg (Fin a)))
    = (Fin cx, Fin cy)
    /\ (cx <> 0 \/ cy <> 0)
    /\ 0 <= cx * ax + cy * ay
    /\ ((0 < ax * - b + ay * a /\ cx = - b /\ cy = a)
        \/ (~ 0 < ax * - b + ay * a /\ cx = b /\ cy = - a)).
Proof.
  intros Ha Hd. cbn [fneg].
  destruct (@dot_norme_sign ax ay (- b) a Ha ltac:(lra)) as (d & -> & Hsign).
  destruct (fgtb (Fin d) (Fin 0)) eqn:E.
  - apply fgtb_Fin_0 in E. exists (- b), a. split; [reflexivity|]. split; [lra|].
    apply Hsign in E. split; [lra|]. left. auto.
  - exists b, (- a). split; [reflexivity|]. split; [lra|].
    assert (~ 0 < d) by (intros H; apply fgtb_Fin_0 in H; congruence).
    assert (~ 0 < ax * - b + ay * a) by tauto. split; [lra|]. right. auto.
Qed.

(** Normalising and dividing by 25 keeps the direction. *)
Lemma scaled_normal (cx cy : R) :
  cx <> 0 \/ cy <> 0 ->
  exists s, 0 < s
            /\ vdiv (norme (Fin cx, Fin cy)) (Fin 25) = (Fin (cx * s), Fin (cy * s)).
Proof.
  intros H. pose proof (norm_pos H) as Hn.
  rewrite norme_Fin by assumption. unfold vdiv. cbn [fst snd].
  rewrite !fdiv_Fin by lra.
  set (n := sqrt (cx * cx + cy * cy)) in *.
  exists (/ n * / 25). split.
  - assert (0 < / n) by (apply Rinv_0_lt_compat; lra). nra.
  - f_equal; f_equal; field; lra.
Qed.

(** ** What [place_label] returns *)

Lemma place_label_inv wl coords label x y p :
  place_label wl coords label x y = Ok p ->
  index p = bisect wl label
  /\ (if (0 <=? index p)%Z then getitem wl (index p - 1)
      else getitem wl (index p)) = Ok (left p)
  /\ (if (index p <? Z.of_nat (List.length wl))%Z then getitem wl (index p)
      else getitem wl (-1)) = Ok (right p)
  /\ (exists cr cl,
        subscript_get coords (right p) = Ok cr
        /\ subscript_get coords (left p) = Ok cl
        /\ dx p = fsub (fst cr) (fst cl) /\ dy p = fsub (snd cr) (snd cl))
  /\ chosen p
     = (if fgtb (np_dot (norme (vsub (x, y) equal_energy))
                        (norme (fneg (dy p), dx p))) (Fin 0)
        then (fneg (dy p), dx p) else (dy p, fneg (dx p)))
  /\ normal p = vdiv (norme (chosen p)) (Fin 25)
  /\ tick_end p = (fadd x (fmul (fst (normal p)) (Fin (3 / 4))),
                   fadd y (fmul (snd (normal p)) (Fin (3 / 4))))
  /\ text_at p = (fadd x (fst (normal p)), fadd y (snd (normal p)))
  /\ ha p = (if fgeb (fst (normal p)) (Fin 0) then ha_left else ha_right).
Proof.
  unfold place_label.
  destruct (if (0 <=? bisect wl label)%Z then _ else _) as [l|] eqn:El; [|discriminate].
  destruct (if (bisect wl label <? _)%Z then _ else _) as [r|] eqn:Er; [|discriminate].
  cbn [rbind].
  destruct (subscript_get coords r) as [cr|] eqn:Ecr; [|discriminate].
  destruct (subscript_get coords l) as [cl|] eqn:Ecl; [|discriminate].
  cbn [rbind]. intros H. injection H as <-. cbn.
  repeat split; try assumption.
  exists cr, cl. auto.
Qed.

Lemma vsub_equal_energy (x y : R) :
  vsub (Fin x, Fin y) equal_energy = (Fin (x + - (1 / 3)), Fin (y + - (1 / 3))).
Proof. rewrite equal_energy_eq. reflexivity. Qed.

(** The normal of a label with a non-zero tangent, away from the
    equal-energy point: one of the two candidates, scaled by a positive
    factor. *)
Lemma place_label_normal wl coords label (x y a b : R) p :
  place_label wl coords label (Fin x) (Fin y) = Ok p ->
  dx p = Fin a -> dy p = Fin b ->
  a <> 0 \/ b <> 0 ->
  x <> 1 / 3 \/ y <> 1 / 3 ->
  exists cx cy s,
    0 < s
    /\ chosen p = (Fin cx, Fin cy)
    /\ normal p = (Fin (cx * s), Fin (cy * s))
    /\ 0 <= cx * (x + - (1 / 3)) + cy * (y + - (1 / 3))
    /\ ((0 < (x + - (1 / 3)) * - b + (y + - (1 / 3)) * a /\ cx = - b /\ cy = a)
        \/ (~ 0 < (x + - (1 / 3)) * - b + (y + - (1 / 3)) * a /\ cx = b /\ cy = - a)).
Proof.
  intros Hp Hdx Hdy Htan Hpt.
  destruct (place_label_inv _ _ _ _ _ Hp)
    as (_ & _ & _ & _ & Hch & Hn & _).
  rewrite Hdx, Hdy, vsub_equal_energy in Hch.
  destruct (@chosen_candidate (x + - (1 / 3)) (y + - (1 / 3)) a b
              ltac:(lra) Htan) as (cx & cy & Hc & Hnz & Hpos & Hwhich).
  assert (Hch' : chosen p = (Fin cx, Fin cy))
    by (etransitivity; [exact Hch | exact Hc]).
  destruct (scaled_normal Hnz) as (s & Hs & Hsn).
  rewrite Hch' in Hn. rewrite Hsn in Hn.
  exists cx, cy, s. auto.
Qed.

(** C1. For each of the three diagrams (they place labels with the same
    code), a label whose tangent is not zero and whose point is not the
    equal-energy point gets a normal whose dot product with the vector
    from the equal-energy point to the label point is non-negative: both
    the candidate chosen and the normal used for the tick and the text,
    which is that candidate normalised and divided by 25. *)
Theorem normal_points_away_from_equal_energy
    wl coords label (x y a b : R) p :
  place_label wl coords label (Fin x) (Fin y) = Ok p ->
  dx p = Fin a -> dy p = Fin b ->
  a <> 0 \/ b <> 0 ->
  x <> 1 / 3 \/ y <> 1 / 3 ->
  (exists d, np_dot (chosen p) (vsub (Fin x, Fin y) equal_energy) = Fin d /\ 0 <= d)
  /\ (exists d, np_dot (normal p) (vsub (Fin x, Fin y) equal_energy) = Fin d /\ 0 <= d).
Proof.
  intros Hp Hdx Hdy Htan Hpt.
  destruct (place_label_normal _ _ _ Hp Hdx Hdy Htan Hpt)
    as (cx & cy & s & Hs & Hch & Hn & Hpos & _).
  rewrite vsub_equal_energy, Hch, Hn.
  unfold np_dot. cbn [fst snd fmul fadd].
  split; eexists; (split; [reflexivity|]); nra.
Qed.

Lemma last_nth_pred {A} (l : list A) (d : A) :
  last l d = nth (List.length l - 1) l d.
Proof.
  induction l as [|a l IH]; [reflexivity|].
  destruct l as [|b l]; [reflexivity|].
  change (last (b :: l) d = nth (List.length (b :: l)) (a :: b :: l) d).
  rewrite IH. cbn. rewrite Nat.sub_0_r. reflexivity.
Qed.

(** On a well-formed table, placing a label that is the [k]-th wavelength
    succeeds, with the label itself as left neighbour. *)
Lemma place_label_at_index wl uvs label x y (k : nat) (d : vec) :
  strictly_increasing wl = true ->
  List.length uvs = List.length wl ->
  (k < List.length wl)%nat -> (label == nth k wl 0)%Q ->
  exists p,
    place_label wl (combine wl uvs) label x y = Ok p
    /\ index p = (Z.of_nat k + 1)%Z
    /\ left p = nth k wl 0%Q
    /\ right p = nth (right_index (List.length wl) k) wl 0%Q
    /\ dx p = fsub (fst (nth (right_index (List.length wl) k) uvs d)) (fst (nth k uvs d))
    /\ dy p = fsub (snd (nth (right_index (List.length wl) k) uvs d)) (snd (nth k uvs d)).
Proof.
  intros Hs Hlen Hk Hl. unfold place_label.
  rewrite (bisect_table_wavelength wl Hs Hk Hl).
  assert (E1 : (if (0 <=? Z.of_nat k + 1)%Z
                then getitem wl (Z.of_nat k + 1 - 1)
                else getitem wl (Z.of_nat k + 1)) = Ok (nth k wl 0%Q)).
  { destruct (Z.leb_spec 0 (Z.of_nat k + 1)) as [_|]; [|lia].
    replace (Z.of_nat k + 1 - 1)%Z with (Z.of_nat k) by lia.
    apply getitem_nth. exact Hk. }
  assert (Hr : (right_index (List.length wl) k < List.length wl)%nat).
  { unfold right_index. destruct (Nat.ltb_spec (S k) (List.length wl)); lia. }
  assert (E2 : (if (Z.of_nat k + 1 <? Z.of_nat (List.length wl))%Z
                then getitem wl (Z.of_nat k + 1)
                else getitem wl (-1))
               = Ok (nth (right_index (List.length wl) k) wl 0%Q)).
  { unfold right_index.
    destruct (Z.ltb_spec (Z.of_nat k + 1) (Z.of_nat (List.length wl)));
      destruct (Nat.ltb_spec (S k) (List.length wl)); try lia.
    - replace (Z.of_nat k + 1)%Z with (Z.of_nat (S k)) by lia.
      apply getitem_nth. assumption.
    - apply getitem_last. destruct wl; [cbn in Hk; lia|discriminate]. }
  rewrite E1, E2. cbn [rbind]. unfold subscript_get.
  rewrite !(coords_get_combine_nth wl uvs d Hs Hlen Hr).
  rewrite !(coords_get_combine_nth wl uvs d Hs Hlen Hk).
  cbn [rbind]. eexists. split; [reflexivity|]. cbn. repeat split.
Qed.

(** With a zero tangent both candidate normals are zero vectors, and
    normalising one yields nan. *)
Lemma fmul_NaN_r (a : npfloat) : fmul a NaN = NaN.
Proof. destruct a; reflexivity. Qed.

Lemma fadd_NaN_r (a : npfloat) : fadd a NaN = NaN.
Proof. destruct a; reflexivity. Qed.

Lemma place_label_zero_tangent wl coords label x y p (a b : R) :
  place_label wl coords label x y = Ok p ->
  dx p = Fin a -> dy p = Fin b -> a = 0 -> b = 0 ->
  normal p = (NaN, NaN) /\ tick_end p = (NaN, NaN) /\ text_at p = (NaN, NaN)
  /\ ha p = ha_right.
Proof.
  intros Hp Hdx Hdy Ha Hb.
  destruct (place_label_inv _ _ _ _ _ Hp)
    as (_ & _ & _ & _ & Hch & Hn & Ht & Hx & Hha).
  rewrite Hdx, Hdy in Hch. cbn [fneg] in Hch.
  rewrite (@norme_zero (- b) a) in Hch by lra.
  unfold np_dot in Hch. cbn [fst snd] in Hch.
  rewrite !fmul_NaN_r in Hch. cbn in Hch.
  rewrite Hch in Hn. rewrite (@norme_zero b (- a)) in Hn by lra.
  cbn in Hn. rewrite Hn in Ht, Hx, Hha. cbn in Ht, Hx, Hha.
  rewrite !fadd_NaN_r in Ht, Hx. auto.
Qed.

(** ** Which neighbours the tangent is taken between *)

(** C3, amended. For a label that is a table wavelength strictly between
    the first and the last, the tangent runs from the label's own
    coordinate to the coordinate of the nearest table wavelength strictly
    above it: [bisect] returns the index just after the label, so the left
    neighbour is the label itself and not the wavelength below it. *)
Theorem tangent_runs_from_label_to_next_wavelength wl uvs label x y :
  strictly_increasing wl = true ->
  List.length uvs = List.length wl ->
  coords_get (combine wl uvs) label = Some (x, y) ->
  (hd 0 wl < label)%Q -> (label < last wl 0)%Q ->
  exists p cr,
    place_label wl (combine wl uvs) label x y = Ok p
    /\ (left p == label)%Q
    /\ (label < right p)%Q /\ In (right p) wl
    /\ (forall w', In w' wl -> (label < w')%Q -> (right p <= w')%Q)
    /\ coords_get (combine wl uvs) (right p) = Some cr
    /\ dx p = fsub (fst cr) x /\ dy p = fsub (snd cr) y.
Proof.
  intros Hs Hlen Hget _ Hlast.
  destruct (coords_get_Some_nth _ _ _ Hget) as (k & Hk & Hq).
  pose proof (strictly_increasing_nth wl Hs) as Hinc.
  assert (Hk' : (S k < List.length wl)%nat).
  { destruct (Nat.eq_dec k (List.length wl - 1)) as [->|]; [|lia].
    rewrite last_nth_pred, <- Hq in Hlast. exfalso. exact (Qlt_irrefl _ Hlast). }
  destruct (@place_label_at_index wl uvs label x y k (NaN, NaN) Hs Hlen Hk Hq)
    as (p & Hp & _ & Hl & Hr & Hdx & Hdy).
  assert (Eri : right_index (List.length wl) k = S k).
  { unfold right_index. destruct (Nat.ltb_spec (S k) (List.length wl)); lia. }
  rewrite Eri in *.
  assert (Hxy : nth k uvs (NaN, NaN) = (x, y)).
  { rewrite (coords_get_Qeq _ Hq) in Hget.
    rewrite (coords_get_combine_nth wl uvs (NaN, NaN) Hs Hlen Hk) in Hget.
    congruence. }
  rewrite Hxy in Hdx, Hdy. cbn [fst snd] in Hdx, Hdy.
  exists p, (nth (S k) uvs (NaN, NaN)).
  split; [exact Hp|]. rewrite Hl, Hr.
  split; [symmetry; exact Hq|].
  split; [rewrite Hq; apply Hinc; lia|].
  split; [apply nth_In; exact Hk'|].
  split; [|split; [apply coords_get_combine_nth; assumption|split; assumption]].
  intros w' Hin Hlt.
  destruct (In_nth _ _ 0%Q Hin) as (j & Hj & <-).
  rewrite Hq in Hlt.
  destruct (lt_eq_lt_dec (S k) j) as [[Hlt'|<-]|Hgt].
  - apply Qlt_le_weak, Hinc. lia.
  - apply Qle_refl.
  - exfalso. destruct (Nat.eq_dec j k) as [->|Hne].
    + exact (Qlt_irrefl _ Hlt).
    + assert (Hjk : (nth j wl 0 < nth k wl 0)%Q) by (apply Hinc; lia).
      exact (Qlt_irrefl _ (Qlt_trans _ _ _ Hlt Hjk)).
Qed.

(** Counterexample to C3 as stated. In the table 1, 2, 3 with coordinates
    (0, 0), (1, 0), (1, 1), the tangent at the label 2 is
    (1 - 1, 1 - 0) = (0, 1), the difference between the coordinates of 3
    and of 2, not the difference (1, 1) between those of 3 and of 1. *)
Lemma tangent_not_between_bracketing_wavelengths :
  exists p,
    place_label table3 (combine table3 corner3) 2 (Fin 1) (Fin 0) = Ok p
    /\ ~ tangent_between_bracketing_wavelengths table3 (combine table3 corner3) 2 p.
Proof.
  destruct (@place_label_at_index table3 corner3 2%Q (Fin 1) (Fin 0) 1 (NaN, NaN)
              eq_refl eq_refl ltac:(cbn; lia) ltac:(reflexivity))
    as (p & Hp & _ & _ & _ & Hdx & _).
  exists p. split; [exact Hp|].
  intros (below & above & cb & ca & Hb & Ha & Hlt & Hgt & _ & _ & Hcb & Hca & Hx & _).
  cbn in Hdx.
  assert (below = 1%Q) as ->.
  { destruct Hb as [<-|[<-|[<-|[]]]]; [reflexivity| |];
      exfalso; revert Hlt; unfold Qlt; cbn; lia. }
  assert (above = 3%Q) as ->.
  { destruct Ha as [<-|[<-|[<-|[]]]]; [| |reflexivity];
      exfalso; revert Hgt; unfold Qlt; cbn; lia. }
  cbn in Hcb, Hca. injection Hcb as <-. injection Hca as <-.
  rewrite Hdx in Hx. cbn in Hx. injection Hx as Hx. lra.
Qed.

(** ** Labels at the ends of the table *)

(** With a finite non-zero tangent the tick end and the text position are
    finite, whichever candidate normal is chosen. *)
Lemma positions_finite wl coords label (x y a b : R) p :
  place_label wl coords label (Fin x) (Fin y) = Ok p ->
  dx p = Fin a -> dy p = Fin b -> a <> 0 \/ b <> 0 ->
  is_finite (fst (tick_end p)) /\ is_finite (snd (tick_end p))
  /\ is_finite (fst (text_at p)) /\ is_finite (snd (text_at p)).
Proof.
  intros Hp Hdx Hdy Htan.
  destruct (place_label_inv _ _ _ _ _ Hp)
    as (_ & _ & _ & _ & Hch & Hn & Ht & Hx & _).
  rewrite Hdx, Hdy in Hch. cbn [fneg] in Hch.
  assert (Hc : exists cx cy, chosen p = (Fin cx, Fin cy) /\ (cx <> 0 \/ cy <> 0)).
  { destruct (fgtb _ _) in Hch; [exists (- b), a|exists b, (- a)];
      (split; [exact Hch|lra]). }
  destruct Hc as (cx & cy & Hc & Hnz).
  destruct (scaled_normal Hnz) as (s & _ & Hsn).
  rewrite Hc, Hsn in Hn. rewrite Hn in Ht, Hx.
  rewrite Ht, Hx. cbn. auto.
Qed.

(** A label at the first or the last wavelength of a table is placed
    without an exception and its neighbours stay inside the table: at the
    last wavelength the right neighbour is clamped to the last sample, and
    the left neighbour is the label too; at the first wavelength of a table
    of two samples or more the neighbours are the label and the second
    sample.  The tick end and the text position are finite when the
    tangent is finite and not zero. *)
Lemma labels_at_table_ends_raise_nothing wl uvs label x y (w : world) :
  strictly_increasing wl = true ->
  List.length uvs = List.length wl ->
  coords_get (combine wl uvs) label = Some (x, y) ->
  (label == hd 0 wl \/ label == last wl 0)%Q ->
  exists p,
    place_label wl (combine wl uvs) label x y = Ok p
    /\ fst (draw_label wl (combine wl uvs) label w) = Ok tt
    /\ ((label == last wl 0)%Q ->
        index p = Z.of_nat (List.length wl)
        /\ (left p == label)%Q /\ right p = last wl 0%Q
        /\ dx p = fsub x x
        /\ dy p = fsub y y)
    /\ ((label == hd 0 wl)%Q -> (2 <= List.length wl)%nat ->
        index p = 1%Z /\ (left p == label)%Q /\ right p = nth 1 wl 0%Q)
    /\ (forall x' y' a b,
          x = Fin x' -> y = Fin y' -> dx p = Fin a -> dy p = Fin b ->
          a <> 0 \/ b <> 0 -> positions_well_defined p).
Proof.
  intros Hs Hlen Hget Hend.
  destruct (coords_get_Some_nth _ _ _ Hget) as (k & Hk & Hq).
  pose proof (strictly_increasing_nth wl Hs) as Hinc.
  destruct (@place_label_at_index wl uvs label x y k (NaN, NaN) Hs Hlen Hk Hq)
    as (p & Hp & Hi & Hl & Hr & Hdx & Hdy).
  assert (Hxy : nth k uvs (NaN, NaN) = (x, y)).
  { rewrite (coords_get_Qeq _ Hq) in Hget.
    rewrite (coords_get_combine_nth wl uvs (NaN, NaN) Hs Hlen Hk) in Hget.
    congruence. }
  assert (Hsame : forall j, (j < List.length wl)%nat ->
                            (label == nth j wl 0)%Q -> j = k).
  { intros j Hj Hqj. rewrite Hq in Hqj.
    destruct (lt_eq_lt_dec j k) as [[H|H]|H]; [|exact H|]; exfalso.
    - specialize (Hinc j k ltac:(lia)). rewrite Hqj in Hinc.
      exact (Qlt_irrefl _ Hinc).
    - specialize (Hinc k j ltac:(lia)). rewrite Hqj in Hinc.
      exact (Qlt_irrefl _ Hinc). }
  exists p. split; [exact Hp|]. split.
  - unfold draw_label. rewrite Hget. unfold bind, lift, call. rewrite Hp.
    reflexivity.
  - split; [|split].
    3: { intros x' y' a b -> -> Ha Hb Hab.
         eapply positions_finite; eassumption. }
    + intros Hlast. rewrite last_nth_pred in Hlast.
      assert (Ek : k = (List.length wl - 1)%nat)
        by (symmetry; apply Hsame; [lia|exact Hlast]).
      assert (Eri : right_index (List.length wl) k = k).
      { unfold right_index. destruct (Nat.ltb_spec (S k) (List.length wl)); lia. }
      rewrite Eri, Hxy in *. cbn [fst snd] in Hdx, Hdy.
      split; [lia|]. split; [rewrite Hl; symmetry; exact Hq|].
      split; [rewrite Hr, last_nth_pred, Ek; reflexivity|]. auto.
    + intros Hfirst Hn.
      assert (Ek : k = 0%nat).
      { symmetry. apply Hsame; [lia|]. destruct wl; [cbn in Hk; lia|exact Hfirst]. }
      subst k. split; [lia|]. split; [rewrite Hl; symmetry; exact Hq|].
      rewrite Hr. unfold right_index.
      destruct (Nat.ltb_spec 1 (List.length wl)); [reflexivity|lia].
Qed.

(** C5, a defect of the code. The label at the last wavelength of a table
    is the one the clamp of lines 1233-1235 is written for, and it is not
    placed as the claim says.  No exception is raised and the right
    neighbour is clamped to the last sample; but the left neighbour is the
    label too, the tangent is (0, 0), [norme] divides it by its norm, which
    is zero, and the tick end and the text position are (nan, nan): the
    tick and the text of the label are handed to the backend at nan, with
    finite coordinates in the table. *)
Theorem label_at_last_wavelength_lands_on_nan wl uvs label (x y : R) (w : world) :
  strictly_increasing wl = true ->
  List.length uvs = List.length wl ->
  coords_get (combine wl uvs) label = Some (Fin x, Fin y) ->
  (label == last wl 0)%Q ->
  exists p,
    place_label wl (combine wl uvs) label (Fin x) (Fin y) = Ok p
    /\ index p = Z.of_nat (List.length wl)
    /\ (left p == label)%Q /\ right p = last wl 0%Q
    /\ dx p = Fin 0 /\ dy p = Fin 0
    /\ normal p = (NaN, NaN)
    /\ tick_end p = (NaN, NaN) /\ text_at p = (NaN, NaN)
    /\ ~ positions_well_defined p
    /\ draw_label wl (combine wl uvs) label w
       = (Ok tt,
          World (figure_figsize w)
                (calls w ++ [Plot [Fin x] [Fin y] "o" 2;
                             Plot [Fin x; NaN] [Fin y; NaN] "" (3 # 2);
                             LabelText NaN NaN label ha_right])).
Proof.
  intros Hs Hlen Hget Hlast.
  destruct (@labels_at_table_ends_raise_nothing wl uvs label (Fin x) (Fin y) w
              Hs Hlen Hget (or_intror Hlast))
    as (p & Hp & _ & Hend & _ & _).
  destruct (Hend Hlast) as (Hi & Hl & Hr & Hdx & Hdy).
  assert (Hdx0 : dx p = Fin 0) by (rewrite Hdx; cbn; f_equal; lra).
  assert (Hdy0 : dy p = Fin 0) by (rewrite Hdy; cbn; f_equal; lra).
  destruct (place_label_zero_tangent _ _ _ _ _ Hp Hdx0 Hdy0 eq_refl eq_refl)
    as (Hn & Ht & Hx & Hha).
  exists p. repeat (split; [assumption|]). split.
  - unfold positions_well_defined. rewrite Hx. cbn. tauto.
  - unfold draw_label. rewrite Hget. unfold bind at 1. rewrite call_run.
    unfold bind at 1, lift. rewrite Hp. unfold bind at 1. rewrite call_run.
    rewrite call_run. rewrite Ht, Hx, Hha. cbn [figure_figsize calls fst snd].
    rewrite <- !app_assoc. reflexivity.
Qed.

(** ** The alignment of the label text *)

(** C2, amended. The text of a placed label is aligned "left" when the
    x-component of its normal is zero or positive and "right" when it is
    negative (or nan), the reverse of the claim; the text [draw_label]
    draws carries that alignment.  The rule holds for every table and
    label, so for the 700 nm label of the CIE 1931 2 degree table too. *)
Theorem label_text_alignment wl coords label x y p (w : world) :
  place_label wl coords label x y = Ok p ->
  (forall nx, fst (normal p) = Fin nx ->
              (0 <= nx -> ha p = ha_left) /\ (nx < 0 -> ha p = ha_right))
  /\ (fst (normal p) = NaN -> ha p = ha_right)
  /\ (coords_get coords label = Some (x, y) ->
      In (LabelText (fst (text_at p)) (snd (text_at p)) label (ha p))
         (new_calls w (snd (draw_label wl coords label w)))).
Proof.
  intros Hp.
  destruct (place_label_inv _ _ _ _ _ Hp) as (_ & _ & _ & _ & _ & _ & _ & _ & Hha).
  split; [|split].
  - intros nx Hnx. rewrite Hnx in Hha. rewrite Hha. unfold fgeb.
    destruct (Rle_dec 0 nx); split; intros; (reflexivity || lra).
  - intros Hnan. rewrite Hnan in Hha. exact Hha.
  - intros Hget. unfold draw_label. rewrite Hget.
    unfold bind, lift, call. rewrite Hp. cbn [snd calls figure_figsize].
    rewrite <- !app_assoc, new_calls_app. cbn. auto.
Qed.

(** Counterexample to C2 as stated. In the table 1, 2 with coordinates
    (1, 0), (1, 1), the label 1 gets the normal (1, 0) / 25, of positive
    x-component, and its text is aligned "left", where the claim says
    "right". *)
Lemma alignment_is_left_for_a_positive_normal :
  exists p nx,
    place_label table2 (combine table2 edge2) 1 (Fin 1) (Fin 0) = Ok p
    /\ fst (normal p) = Fin nx /\ 0 < nx /\ ha p = ha_left
    /\ ~ left_when_negative_right_otherwise p.
Proof.
  destruct (@place_label_at_index table2 edge2 1%Q (Fin 1) (Fin 0) 0 (NaN, NaN)
              eq_refl eq_refl ltac:(cbn; lia) ltac:(reflexivity))
    as (p & Hp & _ & _ & _ & Hdx & Hdy).
  cbn in Hdx, Hdy.
  destruct (place_label_normal _ _ _ Hp Hdx Hdy ltac:(lra) ltac:(lra))
    as (cx & cy & s & Hs & _ & Hn & _ & [(H & _)|(_ & -> & _)]); [lra|].
  assert (Hnx : fst (normal p) = Fin ((1 + - 0) * s)) by (rewrite Hn; reflexivity).
  assert (Hpos : 0 < (1 + - 0) * s) by nra.
  destruct (place_label_inv _ _ _ _ _ Hp) as (_ & _ & _ & _ & _ & _ & _ & _ & Hha).
  assert (Hleft : ha p = ha_left).
  { rewrite Hha, Hnx. unfold fgeb. destruct (Rle_dec 0 ((1 + - 0) * s)); [reflexivity|lra]. }
  exists p, ((1 + - 0) * s). repeat (split; [assumption|]).
  intros Hclaim. destruct (Hclaim _ Hnx) as [_ Hr].
  rewrite Hr in Hleft by lra. discriminate.
Qed.

(** ** The theorems at sample tables *)

(** The label 1 of the table 1, 2 with coordinates (1, 0), (1, 1). *)
Lemma normal_points_away_from_equal_energy_witness :
  exists p a b,
    place_label table2 (combine table2 edge2) 1 (Fin 1) (Fin 0) = Ok p
    /\ dx p = Fin a /\ dy p = Fin b
    /\ (a <> 0 \/ b <> 0) /\ (1 <> 1 / 3 \/ 0 <> 1 / 3)
    /\ (exists d, np_dot (chosen p) (vsub (Fin 1, Fin 0) equal_energy) = Fin d
                  /\ 0 <= d)
    /\ (exists d, np_dot (normal p) (vsub (Fin 1, Fin 0) equal_energy) = Fin d
                  /\ 0 <= d).
Proof.
  destruct (@place_label_at_index table2 edge2 1%Q (Fin 1) (Fin 0) 0 (NaN, NaN)
              eq_refl eq_refl ltac:(cbn; lia) ltac:(reflexivity))
    as (p & Hp & _ & _ & _ & Hdx & Hdy).
  cbn in Hdx, Hdy.
  exists p, (1 + - 1), (1 + - 0).
  split; [exact Hp|]. split; [exact Hdx|]. split; [exact Hdy|].
  split; [right; lra|]. split; [left; lra|].
  apply (@normal_points_away_from_equal_energy table2 (combine table2 edge2)
           1%Q 1 0 (1 + - 1) (1 + - 0) p Hp Hdx Hdy); [right; lra|left; lra].
Defined.

(** The label 2 of the table 1, 2, 3. *)
Lemma tangent_runs_from_label_to_next_wavelength_witness :
  strictly_increasing table3 = true
  /\ List.length corner3 = List.length table3
  /\ coords_get (combine table3 corner3) 2 = Some (Fin 1, Fin 0)
  /\ (hd 0 table3 < 2)%Q /\ (2 < last table3 0)%Q
  /\ exists p cr,
      place_label table3 (combine table3 corner3) 2 (Fin 1) (Fin 0) = Ok p
      /\ (left p == 2)%Q
      /\ (2 < right p)%Q /\ In (right p) table3
      /\ (forall w', In w' table3 -> (2 < w')%Q -> (right p <= w')%Q)
      /\ coords_get (combine table3 corner3) (right p) = Some cr
      /\ dx p = fsub (fst cr) (Fin 1) /\ dy p = fsub (snd cr) (Fin 0).
Proof.
  split; [reflexivity|]. split; [reflexivity|]. split; [reflexivity|].
  split; [reflexivity|]. split; [reflexivity|].
  apply (@tangent_runs_from_label_to_next_wavelength table3 corner3 2%Q
           (Fin 1) (Fin 0)); reflexivity.
Defined.

(** The label 2, last wavelength of the table 1, 2. *)
Lemma label_at_last_wavelength_lands_on_nan_witness :
  strictly_increasing table2 = true
  /\ List.length edge2 = List.length table2
  /\ coords_get (combine table2 edge2) 2 = Some (Fin 1, Fin 1)
  /\ (2 == last table2 0)%Q
  /\ exists p,
      place_label table2 (combine table2 edge2) 2 (Fin 1) (Fin 1) = Ok p
      /\ index p = Z.of_nat (List.length table2)
      /\ (left p == 2)%Q /\ right p = last table2 0%Q
      /\ dx p = Fin 0 /\ dy p = Fin 0
      /\ normal p = (NaN, NaN)
      /\ tick_end p = (NaN, NaN) /\ text_at p = (NaN, NaN)
      /\ ~ positions_well_defined p
      /\ draw_label table2 (combine table2 edge2) 2 (World DEFAULT_FIGURE_SIZE [])
         = (Ok tt,
            World (figure_figsize (World DEFAULT_FIGURE_SIZE []))
                  (calls (World DEFAULT_FIGURE_SIZE [])
                   ++ [Plot [Fin 1] [Fin 1] "o" 2;
                       Plot [Fin 1; NaN] [Fin 1; NaN] "" (3 # 2);
                       LabelText NaN NaN 2 ha_right])).
Proof.
  split; [reflexivity|]. split; [reflexivity|]. split; [reflexivity|].
  split; [reflexivity|].
  apply (@label_at_last_wavelength_lands_on_nan table2 edge2 2%Q 1%R 1%R
           (World DEFAULT_FIGURE_SIZE []));
    reflexivity.
Defined.

(** The label 1 of the table 1, 2. *)
Lemma label_text_alignment_witness :
  exists p,
    place_label table2 (combine table2 edge2) 1 (Fin 1) (Fin 0) = Ok p
    /\ (forall nx, fst (normal p) = Fin nx ->
                   (0 <= nx -> ha p = ha_left) /\ (nx < 0 -> ha p = ha_right))
    /\ (fst (normal p) = NaN -> ha p = ha_right)
    /\ (coords_get (combine table2 edge2) 1 = Some (Fin 1, Fin 0) ->
        In (LabelText (fst (text_at p)) (snd (text_at p)) 1 (ha p))
           (new_calls (World DEFAULT_FIGURE_SIZE [])
              (snd (draw_label table2 (combine table2 edge2) 1
                      (World DEFAULT_FIGURE_SIZE []))))).
Proof.
  destruct (@place_label_at_index table2 edge2 1%Q (Fin 1) (Fin 0) 0 (NaN, NaN)
              eq_refl eq_refl ltac:(cbn; lia) ltac:(reflexivity))
    as (p & Hp & _).
  exists p. split; [exact Hp|].
  apply (@label_text_alignment table2 (combine table2 edge2) 1%Q (Fin 1) (Fin 0)
           p (World DEFAULT_FIGURE_SIZE []) Hp).
Defined.

(** A table of three samples whose tristimulus values are taken as their
    own chromaticity coordinates. *)
Lemma spectral_locus_is_closed_witness :
  let c := Cmfs "CIE 1931 2 Degree Standard Observer" table3 corner3 in
  let w := World DEFAULT_FIGURE_SIZE [] in
  dict_get observers "CIE 1931 2 Degree Standard Observer" = Some c
  /\ cmfs_values c <> []
  /\ closed_locus (map (fun v => v) (cmfs_values c))
       (new_calls w (snd (CIE_1931_chromaticity_diagram_plot observers
                            (fun v => v)
                            "CIE 1931 2 Degree Standard Observer" [] w)))
  /\ closed_locus (map (fun v => v) (cmfs_values c))
       (new_calls w (snd (CIE_1960_UCS_chromaticity_diagram_plot observers
                            (fun v => v) (fun v => v)
                            "CIE 1931 2 Degree Standard Observer" [] w)))
  /\ closed_locus (map (fun v => v) (cmfs_values c))
       (new_calls w (snd (CIE_1976_UCS_chromaticity_diagram_plot observers
                            (fun v (_ : unit) => v) (fun v => v) tt
                            "CIE 1931 2 Degree Standard Observer" [] w))).
Proof.
  cbv zeta. split; [reflexivity|]. split; [discriminate|].
  apply (@spectral_locus_is_closed vec vec vec unit observers
           (fun v => v) (fun v => v) (fun v => v) (fun v (_ : unit) => v)
           (fun v => v) tt "CIE 1931 2 Degree Standard Observer" []
           (World DEFAULT_FIGURE_SIZE [])
           (Cmfs "CIE 1931 2 Degree Standard Observer" table3 corner3));
    [reflexivity | discriminate].
Defined.

(** * Further properties *)

(** ** The offset of a label *)

(** X1. The offset of a label whose tangent is finite and not zero is
    perpendicular to the tangent and 1/25 long, wherever the label lies;
    the tick ends three quarters of the way to the text. *)
Theorem label_offset_is_perpendicular_and_scaled
    wl coords label (x y a b : R) p :
  place_label wl coords label (Fin x) (Fin y) = Ok p ->
  dx p = Fin a -> dy p = Fin b -> a <> 0 \/ b <> 0 ->
  exists nx ny,
    normal p = (Fin nx, Fin ny)
    /\ nx * a + ny * b = 0
    /\ nx * nx + ny * ny = (1 / 25) * (1 / 25)
    /\ text_at p = (Fin (x + nx), Fin (y + ny))
    /\ tick_end p = (Fin (x + nx * (3 / 4)), Fin (y + ny * (3 / 4))).
Proof.
  intros Hp Hdx Hdy Htan.
  destruct (place_label_inv _ _ _ _ _ Hp)
    as (_ & _ & _ & _ & Hch & Hn & Ht & Hx & _).
  rewrite Hdx, Hdy in Hch. cbn [fneg] in Hch.
  assert (Hc : exists cx cy, chosen p = (Fin cx, Fin cy)
                             /\ (cx <> 0 \/ cy <> 0) /\ cx * a + cy * b = 0).
  { destruct (fgtb _ _) in Hch; [exists (- b), a|exists b, (- a)];
      (split; [exact Hch|split; lra]). }
  destruct Hc as (cx & cy & Hc & Hnz & Hperp).
  rewrite Hc, (norme_Fin Hnz) in Hn. unfold vdiv in Hn. cbn [fst snd] in Hn.
  rewrite !fdiv_Fin in Hn by lra.
  pose proof (norm_pos Hnz) as Hpos.
  assert (Hsq : sqrt (cx * cx + cy * cy) * sqrt (cx * cx + cy * cy)
                = cx * cx + cy * cy) by (apply sqrt_sqrt; nra).
  set (n := sqrt (cx * cx + cy * cy)) in *.
  exists (cx / n / 25), (cy / n / 25).
  split; [exact Hn|]. split.
  - replace (cx / n / 25 * a + cy / n / 25 * b)
      with ((cx * a + cy * b) / n / 25) by (field; lra).
    rewrite Hperp. field. lra.
  - split.
    + replace (cx / n / 25 * (cx / n / 25) + cy / n / 25 * (cy / n / 25))
        with ((cx * cx + cy * cy) / (n * n) * (1 / 25 * (1 / 25)))
        by (field; lra).
      rewrite Hsq. field. nra.
    + rewrite Hn in Ht, Hx. rewrite Ht, Hx. cbn. auto.
Qed.

(** The label 1 of the table 1, 2 with coordinates (1, 0), (1, 1). *)
Lemma label_offset_is_perpendicular_and_scaled_witness :
  exists p a b,
    place_label table2 (combine table2 edge2) 1 (Fin 1) (Fin 0) = Ok p
    /\ dx p = Fin a /\ dy p = Fin b /\ (a <> 0 \/ b <> 0)
    /\ exists nx ny,
         normal p = (Fin nx, Fin ny)
         /\ nx * a + ny * b = 0
         /\ nx * nx + ny * ny = (1 / 25) * (1 / 25)
         /\ text_at p = (Fin (1 + nx), Fin (0 + ny))
         /\ tick_end p = (Fin (1 + nx * (3 / 4)), Fin (0 + ny * (3 / 4))).
Proof.
  destruct (@place_label_at_index table2 edge2 1%Q (Fin 1) (Fin 0) 0 (NaN, NaN)
              eq_refl eq_refl ltac:(cbn; lia) ltac:(reflexivity))
    as (p & Hp & _ & _ & _ & Hdx & Hdy).
  cbn in Hdx, Hdy.
  exists p, (1 + - 1), (1 + - 0).
  split; [exact Hp|]. split; [exact Hdx|]. split; [exact Hdy|].
  split; [right; lra|].
  apply (@label_offset_is_perpendicular_and_scaled table2
           (combine table2 edge2) 1%Q 1 0 (1 + - 1) (1 + - 0) p Hp Hdx Hdy).
  right; lra.
Defined.

Local Close Scope R_scope.

(** ** More on the colour swatch grid *)


(** [display] logs exactly [display_calls]. *)
Lemma display_log (kwargs : dict pyval) (w : world) :
  display kwargs w
  = (Ok true, World (figure_figsize w) (calls w ++ display_calls kwargs)).
Proof.
  unfold display, display_calls, standalone_option, filename_given.
  rewrite !attr_update. unfold bind, ret.
  destruct (dict_get kwargs "standalone") as [s|];
    destruct (dict_get kwargs "filename") as [f|]; cbn [attr dict_get String.eqb].
  all: try destruct (truthy s); try destruct (is_None f); cbn;
    rewrite <- ?app_assoc, ?app_nil_r; cbn; try reflexivity;
    destruct w; reflexivity.
Qed.

(** The steps that end every plotting function, call by call. *)
Lemma decorate_and_display_log (settings : dict pyval) (w : world) :
  exists sb sa,
    (bounding_box settings ;;; aspect settings ;;; display settings) w
    = (Ok true,
       World (figure_figsize w)
             (calls w ++ BoundingBox sb :: Aspect sa :: display_calls settings))
    /\ (forall k, dict_get settings k <> None -> attr sb k = attr settings k)
    /\ (forall k, dict_get settings k <> None -> attr sa k = attr settings k).
Proof.
  unfold bounding_box, aspect.
  eexists _, _. split; [|split].
  - unfold bind at 1. unfold bind at 1. rewrite call_run. unfold ret.
    unfold bind at 1. unfold bind at 1. rewrite call_run.
    rewrite display_log. cbn [figure_figsize calls].
    rewrite <- !app_assoc. reflexivity.
  - intros k Hk. rewrite attr_update. unfold attr.
    destruct (dict_get settings k); [reflexivity|contradiction].
  - intros k Hk. rewrite attr_update. unfold attr.
    destruct (dict_get settings k); [reflexivity|contradiction].
Qed.

Lemma display_calls_kinds (kwargs : dict pyval) (a : action) :
  In a (display_calls kwargs) -> is_display a = true.
Proof.
  unfold display_calls.
  destruct (standalone_option kwargs), (filename_given kwargs); cbn;
    intros H; repeat (destruct H as [<-|H]; [reflexivity|]); destruct H.
Qed.

Lemma text_strings_app (l1 l2 : list action) :
  text_strings (l1 ++ l2) = text_strings l1 ++ text_strings l2.
Proof.
  induction l1 as [|a l1 IH]; [reflexivity|].
  destruct a; cbn; rewrite ?IH; reflexivity.
Qed.

Lemma text_strings_display (kwargs : dict pyval) :
  text_strings (display_calls kwargs) = [].
Proof.
  unfold display_calls.
  destruct (standalone_option kwargs), (filename_given kwargs); reflexivity.
Qed.

Lemma filter_Fill_display (kwargs : dict pyval) :
  filter is_Fill (display_calls kwargs) = [].
Proof.
  unfold display_calls.
  destruct (standalone_option kwargs), (filename_given kwargs); reflexivity.
Qed.

Lemma fills_from_length width height spacing across (cps : list ColourParameter) :
  forall i ox oy,
  List.length (fills_from width height spacing across cps i ox oy)
  = List.length cps.
Proof.
  induction cps as [|c l IH]; intros; cbn; [reflexivity|].
  rewrite IH. reflexivity.
Qed.

(** What the loop logs and returns, whatever the sign of [across]. *)
Lemma swatch_loop_log width height spacing across text_display text_size
    text_offset (cps : list ColourParameter) :
  across <> 0 ->
  forall (i : Z) (ox oy : Q) (w : world),
  exists out,
    swatch_loop width height spacing across text_display text_size
                text_offset cps i ox oy w
    = (Ok (offsets_from height spacing across cps i ox oy width),
       World (figure_figsize w) (calls w ++ out))
    /\ filter is_Fill out = fills_from width height spacing across cps i ox oy
    /\ text_strings out = names_written text_display cps
    /\ (forall a, In a out -> is_Fill a || is_Text a = true).
Proof.
  intros Hnz.
  induction cps as [|cp rest IH]; intros i ox oy w.
  - exists []. cbn. rewrite app_nil_r. unfold names_written.
    destruct w, text_display; cbn; repeat split; intros a [].
  - cbn [swatch_loop fills_from offsets_from].
    unfold bind at 1, lift, py_mod.
    destruct (Z.eqb_spec across 0) as [E|_]; [contradiction|].
    set (new_row := (i mod across =? 0) && negb (i =? 0)).
    set (ox' := if new_row then 0%Q else ox).
    set (oy' := if new_row then (oy - (height + spacing))%Q else oy).
    unfold bind at 1. rewrite call_run.
    set (w1 := World _ _).
    assert (Hn : names_written text_display (cp :: rest)
                 = (if negb (is_None (cp_name cp)) && text_display
                    then [cp_name cp] else [])
                   ++ names_written text_display rest).
    { unfold names_written. cbn [map filter].
      destruct (negb (is_None (cp_name cp))), text_display; reflexivity. }
    rewrite Hn.
    destruct (negb (is_None (cp_name cp)) && text_display).
    + unfold bind at 1. rewrite call_run.
      match goal with |- context [swatch_loop _ _ _ _ _ _ _ rest _ _ _ ?w2] =>
        destruct (IH (i + 1) (ox' + (width + spacing))%Q oy' w2)
          as (out & Hrun & Hfill & Htext & Hkind); rewrite Hrun
      end.
      subst w1. cbn [figure_figsize calls].
      eexists (_ :: _ :: out).
      split; [rewrite <- !app_assoc; reflexivity|].
      split; [cbn; rewrite Hfill; reflexivity|].
      split; [cbn; rewrite Htext; reflexivity|].
      intros a Ha. repeat (destruct Ha as [<-|Ha]; [reflexivity|]).
      exact (Hkind a Ha).
    + unfold bind at 1, ret.
      destruct (IH (i + 1) (ox' + (width + spacing))%Q oy' w1)
        as (out & Hrun & Hfill & Htext & Hkind). rewrite Hrun.
      subst w1. cbn [figure_figsize calls].
      eexists (_ :: out).
      split; [rewrite <- !app_assoc; reflexivity|].
      split; [cbn; rewrite Hfill; reflexivity|].
      split; [cbn; rewrite Htext; reflexivity|].
      intros a Ha. repeat (destruct Ha as [<-|Ha]; [reflexivity|]).
      exact (Hkind a Ha).
Qed.

(** The whole of [multi_colour_plot], call by call. *)
Lemma multi_colour_plot_log width height spacing across text_display
    text_size text_offset (cps : list ColourParameter) (kwargs : dict pyval)
    (w : world) :
  across <> 0 ->
  exists out sb sa settings,
    multi_colour_plot width height spacing across text_display text_size
      text_offset cps kwargs w
    = (Ok true,
       World (figure_figsize w)
             (calls w ++ out
              ++ BoundingBox sb :: Aspect sa :: display_calls settings))
    /\ filter is_Fill out = fills_from width height spacing across cps 0 0%Q 0%Q
    /\ text_strings out = names_written text_display cps
    /\ (forall a, In a out -> is_Fill a || is_Text a = true)
    /\ standalone_option settings = standalone_option kwargs
    /\ filename_given settings = filename_given kwargs
    /\ (dict_get kwargs "limits" = None ->
        exists xmax,
          attr sb "limits"
          = PTuple [PFloat 0; PFloat xmax;
                    PFloat (snd (offsets_from height spacing across cps 0 0 0
                                   width));
                    PFloat height]
          /\ (xmax == inject_Z (Z.min (Z.of_nat (List.length cps)) across)
                      * (width + spacing) - spacing)%Q).
Proof.
  intros Hnz. unfold multi_colour_plot.
  destruct (swatch_loop_log width height spacing text_display text_size
              text_offset cps Hnz 0 0%Q 0%Q w)
    as (out & Hrun & Hfill & Htext & Hkind).
  unfold bind at 1. rewrite Hrun.
  match goal with |- context [bind (bounding_box ?s) _ ?w0] =>
    destruct (decorate_and_display_log s w0) as (sb & sa & Hd & Hsb & _);
    rewrite Hd; exists out, sb, sa, s
  end.
  cbn [figure_figsize calls]. rewrite <- app_assoc.
  split; [reflexivity|]. split; [exact Hfill|]. split; [exact Htext|].
  split; [exact Hkind|].
  split; [unfold standalone_option; rewrite dict_get_update;
          destruct (dict_get kwargs "standalone"); reflexivity|].
  split; [unfold filename_given; rewrite dict_get_update;
          destruct (dict_get kwargs "filename"); reflexivity|].
  intros Hl. eexists. split.
  - rewrite Hsb.
    + rewrite attr_update, Hl. reflexivity.
    + rewrite dict_get_update, Hl. discriminate.
  - cbn [snd]. ring.
Qed.



Section GridLimits.
Variables (width height spacing : Q) (across : Z).
Hypothesis across_pos : 0 < across.

(** The offsets once the test for a new row is passed. *)
Lemma after_new_row_test (i : Z) (ox oy : Q) :
  0 <= i -> entering width height spacing across i ox oy ->
  let new_row := (i mod across =? 0) && negb (i =? 0) in
  ((if new_row then 0 else ox) == inject_Z (i mod across) * (width + spacing)
   /\ (if new_row then oy - (height + spacing) else oy)
      == - (inject_Z (i / across) * (height + spacing)))%Q.
Proof.
  intros Hi Hent. cbv zeta. unfold entering in Hent.
  destruct (Z.eqb_spec i 0) as [->|Hne].
  - rewrite andb_false_r. rewrite Z.mod_0_l, Z.div_0_l by lia.
    destruct Hent as [-> ->]. split; ring.
  - destruct Hent as [Hx Hy].
    destruct (div_mod_pred across_pos (i := i) ltac:(lia)) as [H0 H1].
    destruct (Z.eqb_spec (i mod across) 0) as [E|E]; cbn [andb negb].
    + rewrite E. rewrite Hy, <- (H0 E), inject_Z_plus. split; ring.
    + destruct (H1 E) as [Hm Hd]. rewrite Hx, Hy, Hm, Hd. split; reflexivity.
Qed.

Lemma offsets_from_last_row (cps : list ColourParameter) :
  forall (i : Z) (ox oy : Q),
  0 <= i -> entering width height spacing across i ox oy -> cps <> [] ->
  (snd (offsets_from height spacing across cps i ox oy width)
   == - (inject_Z ((i + Z.of_nat (List.length cps) - 1) / across)
         * (height + spacing)))%Q.
Proof.
  induction cps as [|c rest IH]; intros i ox oy Hi Hent Hne; [contradiction|].
  cbn [offsets_from].
  destruct (@after_new_row_test i ox oy Hi Hent) as [Hx Hy]. cbv zeta in Hx, Hy.
  set (new_row := (i mod across =? 0) && negb (i =? 0)) in *.
  set (ox' := if new_row then 0%Q else ox) in *.
  set (oy' := if new_row then (oy - (height + spacing))%Q else oy) in *.
  destruct rest as [|c' rest'].
  - cbn [offsets_from snd List.length].
    replace (i + Z.of_nat 1 - 1) with i by lia. exact Hy.
  - rewrite (IH (i + 1) (ox' + (width + spacing))%Q oy');
      [|lia| |discriminate].
    + replace (i + 1 + Z.of_nat (List.length (c' :: rest')) - 1)
        with (i + Z.of_nat (List.length (c :: c' :: rest')) - 1)
        by (cbn [List.length]; lia).
      reflexivity.
    + unfold entering. destruct (Z.eqb_spec (i + 1) 0) as [E|_]; [lia|].
      replace (i + 1 - 1) with i by lia.
      rewrite Hx, inject_Z_plus. split; [ring | exact Hy].
Qed.

(** X4. For a list that is not empty, rows of [across >= 1] swatches and
    sizes that are not negative, the limits [multi_colour_plot] computes
    (and uses, unless the caller passes limits) enclose every swatch:
    each one lies between 0 and the upper x limit and between the lower y
    limit and [height]. *)
Theorem multi_colour_plot_limits_enclose_swatches
    (text_display : bool) (text_size : pyval) (text_offset : Q)
    (colour_parameters : list ColourParameter) (kwargs : dict pyval)
    (w : world) :
  (0 <= width)%Q -> (0 <= height)%Q -> (0 <= spacing)%Q ->
  colour_parameters <> [] ->
  dict_get kwargs "limits" = None ->
  let run := multi_colour_plot width height spacing across text_display
               text_size text_offset colour_parameters kwargs w in
  exists sb xmax ymin,
    In (BoundingBox sb) (new_calls w (snd run))
    /\ attr sb "limits" = PTuple [PFloat 0; PFloat xmax; PFloat ymin; PFloat height]
    /\ forall i cp,
         nth_error colour_parameters i = Some cp ->
         exists x0 y0,
           nth_error (filter is_Fill (new_calls w (snd run))) i
           = Some (Fill [x0; (x0 + width)%Q; (x0 + width)%Q; x0]
                        [y0; y0; (y0 + height)%Q; (y0 + height)%Q] (cp_RGB cp))
           /\ (0 <= x0 /\ x0 + width <= xmax
               /\ ymin <= y0 /\ y0 + height <= height)%Q.
Proof.
  intros Hw Hh Hs Hne Hl. cbv zeta.
  destruct (@multi_colour_plot_log width height spacing across text_display
              text_size text_offset colour_parameters kwargs w ltac:(lia))
    as (out & sb & sa & s & Hrun & Hfill & _ & _ & _ & _ & Hlim).
  destruct (Hlim Hl) as (xmax & Hsb & Hxmax).
  rewrite Hrun. cbn [snd]. rewrite new_calls_app.
  eexists sb, xmax, _. split; [apply in_or_app; right; left; reflexivity|].
  split; [exact Hsb|].
  intros i cp Hnth.
  destruct (@fills_from_nth width height spacing across across_pos
              colour_parameters 0 0%Q 0%Q i cp
              ltac:(lia) ltac:(cbn; split; reflexivity) Hnth)
    as (x0 & y0 & Hn & Hx & Hy).
  exists x0, y0. split.
  - rewrite filter_app. cbn [filter is_Fill]. rewrite filter_Fill_display.
    rewrite app_nil_r, Hfill. exact Hn.
  - assert (Hi : (i < List.length colour_parameters)%nat)
      by (apply nth_error_Some; congruence).
    rewrite Z.add_0_l in Hx, Hy.
    pose proof (Z.mod_pos_bound (Z.of_nat i) across across_pos) as Hmod.
    assert (Hm : Z.of_nat i mod across
                 <= Z.min (Z.of_nat (List.length colour_parameters)) across - 1).
    { destruct (Z.le_gt_cases (Z.of_nat (List.length colour_parameters)) across).
      - rewrite Z.min_l by lia. rewrite Z.mod_small by lia. lia.
      - rewrite Z.min_r by lia. lia. }
    assert (Hd : 0 <= Z.of_nat i / across
                 <= (Z.of_nat (List.length colour_parameters) - 1) / across).
    { split; [apply Z.div_pos; lia|]. apply Z.div_le_mono; lia. }
    rewrite (@offsets_from_last_row colour_parameters 0 0%Q 0%Q ltac:(lia)
               ltac:(cbn; split; reflexivity) Hne).
    rewrite Z.add_0_l.
    set (m := Z.min (Z.of_nat (List.length colour_parameters)) across) in *.
    set (r := Z.of_nat i mod across) in *.
    set (q := Z.of_nat i / across) in *.
    set (ql := (Z.of_nat (List.length colour_parameters) - 1) / across) in *.
    assert (Hr0 : (inject_Z 0 <= inject_Z r)%Q) by (rewrite <- Zle_Qle; lia).
    assert (Hrm : (inject_Z r <= inject_Z m - 1)%Q).
    { assert (H1 : (inject_Z r <= inject_Z (m + - 1))%Q)
        by (rewrite <- Zle_Qle; lia).
      rewrite inject_Z_plus in H1. exact H1. }
    assert (Hq0 : (inject_Z 0 <= inject_Z q)%Q) by (rewrite <- Zle_Qle; lia).
    change (inject_Z 0) with 0%Q in Hr0, Hq0.
    assert (Hql : (inject_Z q <= inject_Z ql)%Q) by (rewrite <- Zle_Qle; lia).
    rewrite Hx, Hy, Hxmax.
    repeat split; nra.
Qed.
End GridLimits.

(** Seven swatches in rows of three. *)
Lemma multi_colour_plot_limits_enclose_swatches_witness :
  let cps := repeat (COLOUR_PARAMETER PNone (PStr "r") PNone PNone PNone) 7 in
  let w := World DEFAULT_FIGURE_SIZE [] in
  let run := multi_colour_plot 1 1 (1 # 4) 3 true (PStr "large") (75 # 1000)
               cps [] w in
  0 < 3 /\ (0 <= 1)%Q /\ (0 <= 1)%Q /\ (0 <= 1 # 4)%Q /\ cps <> []
  /\ dict_get ([] : dict pyval) "limits" = None
  /\ exists sb xmax ymin,
       In (BoundingBox sb) (new_calls w (snd run))
       /\ attr sb "limits" = PTuple [PFloat 0; PFloat xmax; PFloat ymin; PFloat 1]
       /\ forall i cp,
            nth_error cps i = Some cp ->
            exists x0 y0,
              nth_error (filter is_Fill (new_calls w (snd run))) i
              = Some (Fill [x0; (x0 + 1)%Q; (x0 + 1)%Q; x0]
                           [y0; y0; (y0 + 1)%Q; (y0 + 1)%Q] (cp_RGB cp))
              /\ (0 <= x0 /\ x0 + 1 <= xmax /\ ymin <= y0 /\ y0 + 1 <= 1)%Q.
Proof.
  cbv zeta. split; [lia|]. split; [discriminate|]. split; [discriminate|].
  split; [discriminate|]. split; [discriminate|]. split; [reflexivity|].
  apply (@multi_colour_plot_limits_enclose_swatches 1 1 (1 # 4) 3
           ltac:(lia) true (PStr "large") (75 # 1000)
           (repeat (COLOUR_PARAMETER PNone (PStr "r") PNone PNone PNone) 7) []
           (World DEFAULT_FIGURE_SIZE []));
    [discriminate | discriminate | discriminate | discriminate | reflexivity].
Defined.

(** ** The wavelength labels of a diagram *)

Lemma figure_size_result {Args A} (size : pyval)
    (object : Args -> dict pyval -> M A) (args : Args) (kwargs : dict pyval)
    (w : world) :
  fst (figure_size size object args kwargs w)
  = fst (object args kwargs (World (requested_size size kwargs) (calls w))).
Proof.
  unfold figure_size, requested_size, attr, set_figsize. cbn zeta.
  destruct (dict_get kwargs "figure_size") as [v|]; cbn.
  - destruct (is_None v); cbn;
      match goal with |- context [object args kwargs ?w0] =>
        destruct (object args kwargs w0) as [r w2] end; reflexivity.
  - destruct (object args kwargs _) as [r w2]; reflexivity.
Qed.

Lemma label_texts_app (l1 l2 : list action) :
  label_texts (l1 ++ l2) = label_texts l1 ++ label_texts l2.
Proof.
  induction l1 as [|a l1 IH]; [reflexivity|].
  destruct a; cbn; rewrite ?IH; reflexivity.
Qed.

Lemma label_texts_display (kwargs : dict pyval) :
  label_texts (display_calls kwargs) = [].
Proof.
  unfold display_calls.
  destruct (standalone_option kwargs), (filename_given kwargs); reflexivity.
Qed.

Lemma filter_display_calls (kwargs : dict pyval) :
  filter is_display (display_calls kwargs) = display_calls kwargs.
Proof.
  unfold display_calls.
  destruct (standalone_option kwargs), (filename_given kwargs); reflexivity.
Qed.

(** Defaults that leave "standalone" and "filename" to the caller. *)
Lemma display_calls_update (defaults kwargs : dict pyval) :
  dict_get defaults "standalone" = None ->
  dict_get defaults "filename" = None ->
  displayed_as_asked kwargs (display_calls (dict_update defaults kwargs)).
Proof.
  intros Hs Hf. unfold displayed_as_asked.
  rewrite filter_display_calls.
  unfold display_calls, standalone_option, filename_given.
  rewrite !dict_get_update, Hs, Hf.
  destruct (dict_get kwargs "standalone") as [s|];
    destruct (dict_get kwargs "filename") as [f|];
    try destruct (truthy s); try destruct (is_None f); cbn;
    try reflexivity; eexists; reflexivity.
Qed.

Lemma displayed_as_asked_filter (kwargs : dict pyval) (out out' : list action) :
  filter is_display out = filter is_display out' ->
  displayed_as_asked kwargs out' -> displayed_as_asked kwargs out.
Proof. unfold displayed_as_asked. intros ->. exact (fun H => H). Qed.

(** A label of the table is marked with a dot, a tick and its text. *)
Lemma draw_label_in_table (wl : list Q) (uvs : list vec) (label : Q) (w : world) :
  strictly_increasing wl = true ->
  List.length uvs = List.length wl ->
  in_table wl label ->
  exists x y tx ty lx ly h,
    draw_label wl (combine wl uvs) label w
    = (Ok tt, World (figure_figsize w)
                    (calls w ++ [Plot [x] [y] "o" 2;
                                 Plot [x; tx] [y; ty] "" (3 # 2);
                                 LabelText lx ly label h])).
Proof.
  intros Hs Hlen (k & Hk & Hl). unfold draw_label.
  rewrite (coords_get_Qeq (combine wl uvs) Hl).
  rewrite (coords_get_combine_nth wl uvs (NaN, NaN) Hs Hlen Hk).
  destruct (nth k uvs (NaN, NaN)) as [x y].
  destruct (@place_label_at_index wl uvs label x y k (NaN, NaN) Hs Hlen Hk Hl)
    as (p & Hp & _).
  rewrite Hp.
  exists x, y, (fst (tick_end p)), (snd (tick_end p)),
    (fst (text_at p)), (snd (text_at p)), (ha p).
  unfold bind, lift. rewrite !call_run. cbn [figure_figsize calls].
  rewrite <- !app_assoc. reflexivity.
Qed.

Lemma for_each_draw_label_log (wl : list Q) (uvs : list vec) :
  strictly_increasing wl = true ->
  List.length uvs = List.length wl ->
  forall (labels : list Q) (w : world),
  Forall (in_table wl) labels ->
  exists out,
    for_each labels (draw_label wl (combine wl uvs)) w
    = (Ok tt, World (figure_figsize w) (calls w ++ out))
    /\ label_texts out = labels
    /\ filter is_display out = [].
Proof.
  intros Hs Hlen. induction labels as [|l labels IH]; intros w Hall.
  - exists []. rewrite app_nil_r. destruct w. repeat split.
  - inversion Hall as [|? ? Hl Hrest]; subst.
    destruct (@draw_label_in_table wl uvs l w Hs Hlen Hl)
      as (x & y & tx & ty & lx & ly & h & Hd).
    cbn [for_each]. unfold bind at 1. rewrite Hd.
    destruct (IH (World (figure_figsize w)
                    (calls w ++ [Plot [x] [y] "o" 2;
                                 Plot [x; tx] [y; ty] "" (3 # 2);
                                 LabelText lx ly l h])) Hrest)
      as (out & Hrun & Hlab & Hdis).
    rewrite Hrun. cbn [figure_figsize calls].
    eexists. rewrite <- app_assoc. split; [reflexivity|].
    cbn. rewrite Hlab, Hdis. split; reflexivity.
Qed.

Lemma for_each_draw_label_missing (wl : list Q) (uvs : list vec) :
  strictly_increasing wl = true ->
  List.length uvs = List.length wl ->
  forall (labels : list Q) (w : world),
  (exists l, In l labels /\ ~ in_table wl l) ->
  exists out missing rest,
    for_each labels (draw_label wl (combine wl uvs)) w
    = (Raise (TypeError "'NoneType' object is not iterable"),
       World (figure_figsize w) (calls w ++ out))
    /\ filter is_display out = []
    /\ labels = label_texts out ++ missing :: rest
    /\ Forall (in_table wl) (label_texts out)
    /\ ~ in_table wl missing.
Proof.
  intros Hs Hlen. induction labels as [|l labels IH]; intros w (l0 & Hin & Hmiss).
  - destruct Hin.
  - cbn [for_each]. unfold bind at 1.
    destruct (coords_get (combine wl uvs) l) as [v|] eqn:Hget.
    + assert (Hl : in_table wl l) by exact (coords_get_Some_nth wl uvs l Hget).
      destruct (@draw_label_in_table wl uvs l w Hs Hlen Hl)
        as (x & y & tx & ty & lx & ly & h & Hd).
      rewrite Hd.
      assert (Hex : exists l1, In l1 labels /\ ~ in_table wl l1).
      { destruct Hin as [->|Hin]; [contradiction|]. exists l0. split; assumption. }
      destruct (IH (World (figure_figsize w)
                      (calls w ++ [Plot [x] [y] "o" 2;
                                   Plot [x; tx] [y; ty] "" (3 # 2);
                                   LabelText lx ly l h])) Hex)
        as (out & missing & rest & Hrun & Hdis & Hlab & Hall & Hm).
      rewrite Hrun. cbn [figure_figsize calls].
      eexists _, missing, rest. rewrite <- app_assoc.
      split; [reflexivity|]. cbn. rewrite Hdis. split; [reflexivity|].
      split; [rewrite Hlab at 1; reflexivity|].
      split; [constructor; assumption | exact Hm].
    + unfold draw_label. rewrite Hget.
      exists [], l, labels. rewrite app_nil_r. destruct w.
      split; [reflexivity|]. split; [reflexivity|]. split; [reflexivity|].
      split; [constructor|].
      intros (k & Hk & Hq).
      rewrite (coords_get_Qeq (combine wl uvs) Hq) in Hget.
      rewrite (coords_get_combine_nth wl uvs (NaN, NaN) Hs Hlen Hk) in Hget.
      discriminate.
Qed.

Section DiagramLabels.
Variable XYZ : Type.
Variable CMFS : dict (cmfs_t XYZ).
Variables (diagram : string) (labels : list Q) (to_uv : XYZ -> vec).
Variables (title x_label y_label : string) (box : list Q).
Variables (cmfs : string) (kwargs : dict pyval) (c : cmfs_t XYZ).
Hypothesis found : dict_get CMFS cmfs = Some c.
Hypothesis well_formed : well_formed_table c.
Hypothesis not_empty : cmfs_values c <> [].

Lemma chromaticity_diagram_prefix (w : world) :
  exists (k : M bool) (image : string) p uvs',
    map to_uv (cmfs_values c) = p :: uvs'
    /\ chromaticity_diagram CMFS diagram labels to_uv
         (diagram_settings title x_label y_label box) cmfs kwargs w
       = (for_each labels
            (draw_label (cmfs_wavelengths c)
               (combine (cmfs_wavelengths c) (map to_uv (cmfs_values c)))) ;;;
          let settings :=
            dict_update (diagram_settings title x_label y_label box cmfs) kwargs in
          bounding_box settings ;;; aspect settings ;;; display settings)
         (World (figure_figsize w)
            (calls w ++ [Imshow image;
                         Plot (map fst (p :: uvs')) (map snd (p :: uvs')) "" 2;
                         Plot (last_first (map fst (p :: uvs')))
                              (last_first (map snd (p :: uvs'))) "" 2])).
Proof.
  unfold chromaticity_diagram, _get_cmfs. rewrite found.
  unfold bind at 1, lift. unfold bind at 1. rewrite call_run.
  destruct (map to_uv (cmfs_values c)) as [|p uvs'] eqn:Huvs.
  { destruct (cmfs_values c); [contradiction|discriminate]. }
  unfold bind at 1. rewrite call_run. unfold bind at 1. rewrite call_run.
  cbn [figure_figsize calls]. rewrite <- !app_assoc. cbn [app].
  eexists (ret true), _, p, uvs'. split; reflexivity.
Qed.

Lemma chromaticity_diagram_labels_drawn (w : world) :
  Forall (in_table (cmfs_wavelengths c)) labels ->
  labels_drawn labels kwargs
    (chromaticity_diagram CMFS diagram labels to_uv
       (diagram_settings title x_label y_label box) cmfs kwargs w) w.
Proof.
  intros Hall. destruct well_formed as [Hs Hlen].
  destruct (chromaticity_diagram_prefix w) as (_ & image & p & uvs' & Huvs & ->).
  unfold bind at 1.
  destruct (@for_each_draw_label_log (cmfs_wavelengths c)
              (map to_uv (cmfs_values c)) Hs
              ltac:(rewrite length_map; exact Hlen) labels
              (World (figure_figsize w)
                 (calls w ++ [Imshow image;
                              Plot (map fst (p :: uvs')) (map snd (p :: uvs')) "" 2;
                              Plot (last_first (map fst (p :: uvs')))
                                   (last_first (map snd (p :: uvs'))) "" 2]))
              Hall) as (out & Hrun & Hlab & Hdis).
  rewrite Hrun. cbv zeta.
  match goal with |- context [bind (bounding_box ?s) _ ?w0] =>
    destruct (decorate_and_display_log s w0) as (sb & sa & Hd & _) end.
  rewrite Hd. cbn [figure_figsize calls].
  unfold labels_drawn. cbn [fst snd].
  rewrite <- !app_assoc. rewrite new_calls_app.
  split; [reflexivity|]. split.
  - cbn [app label_texts]. rewrite label_texts_app. cbn [label_texts].
    rewrite label_texts_display, app_nil_r. exact Hlab.
  - eapply displayed_as_asked_filter;
      [|apply (@display_calls_update
                 (diagram_settings title x_label y_label box cmfs) kwargs);
        reflexivity].
    cbn [app filter is_display]. rewrite filter_app, Hdis.
    cbn [app filter is_display]. reflexivity.
Qed.

Lemma chromaticity_diagram_missing_label (w : world) :
  (exists l, In l labels /\ ~ in_table (cmfs_wavelengths c) l) ->
  stopped_at_missing_label (cmfs_wavelengths c) labels
    (chromaticity_diagram CMFS diagram labels to_uv
       (diagram_settings title x_label y_label box) cmfs kwargs w) w.
Proof.
  intros Hex. destruct well_formed as [Hs Hlen].
  destruct (chromaticity_diagram_prefix w) as (_ & image & p & uvs' & Huvs & ->).
  unfold bind at 1.
  destruct (@for_each_draw_label_missing (cmfs_wavelengths c)
              (map to_uv (cmfs_values c)) Hs
              ltac:(rewrite length_map; exact Hlen) labels
              (World (figure_figsize w)
                 (calls w ++ [Imshow image;
                              Plot (map fst (p :: uvs')) (map snd (p :: uvs')) "" 2;
                              Plot (last_first (map fst (p :: uvs')))
                                   (last_first (map snd (p :: uvs'))) "" 2]))
              Hex) as (out & missing & rest & Hrun & Hdis & Hlab & Hall & Hm).
  rewrite Hrun. cbn [figure_figsize calls].
  unfold stopped_at_missing_label. cbn [fst snd].
  rewrite <- !app_assoc. rewrite new_calls_app.
  split; [reflexivity|]. split.
  - cbn [app filter is_display]. exact Hdis.
  - exists missing, rest. cbn [app label_texts]. repeat split; assumption.
Qed.
End DiagramLabels.

Lemma in_table_existsb (wl : list Q) (label : Q) :
  in_table wl label <-> existsb (Qeq_bool label) wl = true.
Proof.
  unfold in_table. induction wl as [|a wl IH]; cbn [existsb List.length].
  - split; [intros (k & Hk & _); lia | discriminate].
  - rewrite orb_true_iff, <- IH, Qeq_bool_iff. split.
    + intros (k & Hk & Hq). destruct k as [|k]; [left; exact Hq|].
      right. exists k. split; [lia | exact Hq].
    + intros [Hq|(k & Hk & Hq)]; [exists 0%nat | exists (S k)];
        (split; [lia | exact Hq]).
Qed.

Lemma forallb_in_table (wl labels : list Q) :
  forallb (fun l => existsb (Qeq_bool l) wl) labels = true ->
  Forall (in_table wl) labels.
Proof.
  intros H. apply Forall_forall. intros l Hl. apply in_table_existsb.
  rewrite forallb_forall in H. exact (H l Hl).
Qed.

Lemma labels_drawn_figure_size {Args} (size : pyval)
    (object : Args -> dict pyval -> M bool) (args : Args)
    (labels : list Q) (kwargs : dict pyval) (w : world) :
  (forall w0, labels_drawn labels kwargs (object args kwargs w0) w0) ->
  labels_drawn labels kwargs (figure_size size object args kwargs w) w.
Proof.
  intros H. specialize (H (World (requested_size size kwargs) (calls w))).
  unfold labels_drawn, new_calls in *.
  rewrite figure_size_result, figure_size_calls. exact H.
Qed.

Lemma stopped_at_missing_label_figure_size {Args} (size : pyval)
    (object : Args -> dict pyval -> M bool) (args : Args)
    (wl labels : list Q) (kwargs : dict pyval) (w : world) :
  (forall w0, stopped_at_missing_label wl labels (object args kwargs w0) w0) ->
  stopped_at_missing_label wl labels (figure_size size object args kwargs w) w.
Proof.
  intros H. specialize (H (World (requested_size size kwargs) (calls w))).
  unfold stopped_at_missing_label, new_calls in *.
  rewrite figure_size_result, figure_size_calls. exact H.
Qed.



(** X6. On a table that is found, not empty and well formed, a diagram
    plot with a labelled wavelength that the table lacks raises
    [TypeError: 'NoneType' object is not iterable]: the labels before the
    first missing one are written, and the figure is neither saved, shown
    nor closed. *)
Theorem diagram_plots_stop_at_missing_label {XYZ UCS Luv Illuminant}
    (CMFS : dict (cmfs_t XYZ))
    (XYZ_to_xy : XYZ -> vec) (XYZ_to_UCS : XYZ -> UCS) (UCS_to_uv : UCS -> vec)
    (XYZ_to_Luv : XYZ -> Illuminant -> Luv) (Luv_to_uv : Luv -> vec)
    (D50 : Illuminant)
    (cmfs : string) (kwargs : dict pyval) (w : world) (c : cmfs_t XYZ) :
  dict_get CMFS cmfs = Some c ->
  well_formed_table c ->
  cmfs_values c <> [] ->
  ((exists l, In l labels_1931 /\ ~ in_table (cmfs_wavelengths c) l) ->
   stopped_at_missing_label (cmfs_wavelengths c) labels_1931
     (CIE_1931_chromaticity_diagram_plot CMFS XYZ_to_xy cmfs kwargs w) w)
  /\ ((exists l, In l labels_UCS /\ ~ in_table (cmfs_wavelengths c) l) ->
      stopped_at_missing_label (cmfs_wavelengths c) labels_UCS
        (CIE_1960_UCS_chromaticity_diagram_plot CMFS XYZ_to_UCS UCS_to_uv
           cmfs kwargs w) w
      /\ stopped_at_missing_label (cmfs_wavelengths c) labels_UCS
           (CIE_1976_UCS_chromaticity_diagram_plot CMFS XYZ_to_Luv Luv_to_uv D50
              cmfs kwargs w) w).
Proof.
  intros Hc Hwf Hne.
  unfold CIE_1931_chromaticity_diagram_plot,
    CIE_1960_UCS_chromaticity_diagram_plot,
    CIE_1976_UCS_chromaticity_diagram_plot.
  split; [intros Hex | intros Hex; split];
    apply stopped_at_missing_label_figure_size; intros w0;
    apply chromaticity_diagram_missing_label with (c := c); assumption.
Qed.

(** The three plots on the table of 400, 410, ..., 590, which lacks 390
    and 600. *)
Lemma diagram_plots_stop_at_missing_label_witness :
  let w := World DEFAULT_FIGURE_SIZE [] in
  let id := fun v : vec => v in
  let wl := cmfs_wavelengths short_table in
  stopped_at_missing_label wl labels_1931
    (CIE_1931_chromaticity_diagram_plot sample_tables id "short" [] w) w
  /\ stopped_at_missing_label wl labels_UCS
       (CIE_1960_UCS_chromaticity_diagram_plot sample_tables id id "short" [] w) w
  /\ stopped_at_missing_label wl labels_UCS
       (CIE_1976_UCS_chromaticity_diagram_plot sample_tables
          (fun v (_ : unit) => v) id tt "short" [] w) w.
Proof.
  cbv zeta.
  destruct (@diagram_plots_stop_at_missing_label vec vec vec unit sample_tables
              (fun v => v) (fun v => v) (fun v => v) (fun v _ => v)
              (fun v => v) tt "short" [] (World DEFAULT_FIGURE_SIZE [])
              short_table eq_refl)
    as [H31 HUCS].
  - split; [vm_compute; reflexivity | reflexivity].
  - discriminate.
  - split; [apply H31; exists (inject_Z 390) | apply HUCS; exists (inject_Z 600)];
      (split; [vm_compute; tauto |]);
      rewrite in_table_existsb; vm_compute; discriminate.
Defined.

(** ** The colour rendition chart, call by call *)

Lemma dict_get_remove_other {V} (k k' : string) (d : dict V) :
  k <> k' -> dict_get (dict_remove k d) k' = dict_get d k'.
Proof.
  intros Hne. induction d as [|[k0 v] d IH]; [reflexivity|].
  cbn [dict_remove dict_get].
  destruct (String.eqb_spec k k0) as [->|H0].
  - rewrite IH. destruct (String.eqb_spec k' k0) as [->|_]; [contradiction|].
    reflexivity.
  - cbn [dict_get]. rewrite IH. reflexivity.
Qed.

Lemma display_calls_shown_or_saved (settings kwargs : dict pyval) :
  standalone_option settings = true ->
  filename_given settings = filename_given kwargs ->
  shown_or_saved kwargs (display_calls settings).
Proof.
  intros Hs Hf. unfold shown_or_saved, display_calls. rewrite Hs, Hf.
  destruct (filename_given kwargs); [eexists|]; reflexivity.
Qed.

Lemma colour_checker_plot_log (d : division) {Illuminant XYZ sRGB}
    (COLOURCHECKERS : dict (colour_checker_t Illuminant))
    (xyY_to_XYZ : Q * Q * Q -> XYZ) (XYZ_to_sRGB : XYZ -> Illuminant -> sRGB)
    (np_clip_ravel : sRGB -> pyval) (str_title : string -> string)
    (sRGB_name : string) (name : string) (kwargs : dict pyval) (w : world)
    (c : colour_checker_t Illuminant) :
  dict_get COLOURCHECKERS name = Some c ->
  grid_parameters_kept kwargs ->
  exists grid sb sa inner tx ty title sb' sa' final,
    colour_checker_plot d COLOURCHECKERS xyY_to_XYZ XYZ_to_sRGB
      np_clip_ravel str_title sRGB_name name kwargs w
    = (Ok true,
       World (figure_figsize w)
             (calls w
              ++ SetFacecolor "0.1" :: grid
              ++ BoundingBox sb :: Aspect sa :: display_calls inner
              ++ ChartText tx ty title ha_center
                 :: BoundingBox sb' :: Aspect sa' :: display_calls final))
    /\ List.length (filter is_Fill grid) = List.length (checker_data c)
    /\ (forall a, In a grid -> is_Fill a || is_Text a = true)
    /\ standalone_option inner = standalone_passed kwargs
    /\ filename_given inner = filename_given kwargs
    /\ standalone_option final = true
    /\ filename_given final = filename_given kwargs.
Proof.
  intros Hc Hk. unfold colour_checker_plot, get_colour_checker.
  rewrite (get_or_KeyError_known _ _ _ Hc).
  unfold bind at 1, lift. unfold bind at 1. rewrite call_run.
  set (cps := map _ (checker_data c)).
  destruct (text_position d cps) as (tx & ty & Htx & Hty & _).
  unfold bind at 1. unfold multi_colour_plot_kw.
  unfold bind at 1, lift.
  rewrite kw_float_default with (q := 1%Q);
    [|apply Hk; cbn; tauto|right; reflexivity].
  unfold bind at 1.
  rewrite kw_float_default with (q := 1%Q);
    [|apply Hk; cbn; tauto|right; reflexivity].
  unfold bind at 1. unfold kw_float at 1. rewrite dict_get_update.
  rewrite (Hk "spacing") by (cbn; tauto). cbn [dict_get String.eqb Ascii.eqb Bool.eqb].
  unfold bind at 1. unfold kw_number. rewrite dict_get_update.
  rewrite (Hk "across") by (cbn; tauto). cbn [dict_get String.eqb Ascii.eqb Bool.eqb].
  unfold bind at 1.
  rewrite kw_float_default with (q := (75 # 1000)%Q);
    [|apply Hk; cbn; tauto|left; reflexivity].
  match goal with |- context [multi_colour_plot ?wd ?h ?sp ?ac ?td ?ts ?to ?c0 ?kw ?w0] =>
    destruct (@multi_colour_plot_log wd h sp ac td ts to c0 kw w0 ltac:(discriminate))
      as (grid & sb & sa & inner & Hrun & Hfill & _ & Hkind & Hst & Hfn & _);
    rewrite Hrun
  end.
  rewrite Htx, Hty. unfold bind at 1. unfold bind at 1.
  unfold bind at 1. rewrite call_run. cbn [figure_figsize calls].
  match goal with |- context [bind (bounding_box ?s) _ ?w0] =>
    destruct (decorate_and_display_log s w0) as (sb' & sa' & Hd & _); rewrite Hd
  end.
  cbn [figure_figsize calls].
  rewrite <- !app_assoc. cbn [app]. rewrite <- ?app_assoc. cbn [app].
  eexists grid, sb, sa, inner, _, _, _, sb', sa', _.
  split; [reflexivity|].
  split; [rewrite Hfill, fills_from_length; unfold cps; apply length_map|].
  split; [exact Hkind|].
  split.
  { rewrite Hst. unfold standalone_option, standalone_passed. cbn [fold_right].
    rewrite !dict_get_remove_other by discriminate.
    rewrite dict_get_update.
    destruct (dict_get kwargs "standalone"); reflexivity. }
  split.
  { rewrite Hfn. unfold filename_given. cbn [fold_right].
    rewrite !dict_get_remove_other by discriminate.
    rewrite dict_get_update.
    destruct (dict_get kwargs "filename"); reflexivity. }
  split; [reflexivity|].
  unfold filename_given. rewrite !dict_get_update.
  cbn [dict_get String.eqb Ascii.eqb Bool.eqb].
  destruct (dict_get kwargs "filename"); reflexivity.
Qed.

Lemma filter_display_grid (grid : list action) :
  (forall a, In a grid -> is_Fill a || is_Text a = true) ->
  filter is_display grid = [].
Proof.
  intros H. apply filter_none. intros a Ha. specialize (H a Ha).
  destruct a; try reflexivity; discriminate H.
Qed.





(** ** The Munsell value, lightness and transfer function plots *)

Lemma figure_size_new_calls {Args A} (size : pyval)
    (object : Args -> dict pyval -> M A) (args : Args) (kwargs : dict pyval)
    (w : world) :
  new_calls w (snd (figure_size size object args kwargs w))
  = new_calls (World (requested_size size kwargs) (calls w))
      (snd (object args kwargs (World (requested_size size kwargs) (calls w)))).
Proof. unfold new_calls. rewrite figure_size_calls. reflexivity. Qed.

Lemma displayed_as_asked_same (k1 k2 : dict pyval) (out : list action) :
  standalone_option k1 = standalone_option k2 ->
  filename_given k1 = filename_given k2 ->
  displayed_as_asked k1 out -> displayed_as_asked k2 out.
Proof. unfold displayed_as_asked. intros -> ->. exact (fun H => H). Qed.

Lemma filter_Plot_curves {V} (samples : list npfloat)
    (apply : V -> npfloat -> npfloat) (vs : list V) :
  filter is_Plot (map (fun v => curve samples (apply v)) vs)
  = map (fun v => curve samples (apply v)) vs.
Proof. induction vs as [|v vs IH]; cbn; [|rewrite IH]; reflexivity. Qed.

Lemma filter_display_curves {V} (samples : list npfloat)
    (apply : V -> npfloat -> npfloat) (vs : list V) :
  filter is_display (map (fun v => curve samples (apply v)) vs) = [].
Proof. induction vs as [|v vs IH]; cbn; [|rewrite IH]; reflexivity. Qed.

Lemma filter_Plot_display (kwargs : dict pyval) :
  filter is_Plot (display_calls kwargs) = [].
Proof.
  unfold display_calls.
  destruct (standalone_option kwargs), (filename_given kwargs); reflexivity.
Qed.

Section FunctionCurves.
Variable V : Type.
Variable table : dict V.
Variable template : string.
Variable apply : V -> npfloat -> npfloat.
Variable samples : list npfloat.

Lemma function_curves_log (names : list string) (vs : list V) :
  found_in table names vs ->
  forall w,
  function_curves (get_or_KeyError template table) apply samples names w
  = (Ok tt, World (figure_figsize w)
                  (calls w ++ map (fun v => curve samples (apply v)) vs)).
Proof.
  induction 1 as [|name v names vs Hn Hrest IH]; intros w.
  - cbn. rewrite app_nil_r. destruct w; reflexivity.
  - unfold function_curves in *. cbn [for_each].
    unfold bind at 1. unfold bind at 1, lift.
    rewrite (get_or_KeyError_known _ _ _ Hn), call_run, IH.
    cbn [figure_figsize calls map]. rewrite <- app_assoc. reflexivity.
Qed.

Lemma function_curves_unknown (known : list string) (vs : list V)
    (unknown : string) (rest : list string) :
  found_in table known vs ->
  dict_get table unknown = None ->
  forall w,
  function_curves (get_or_KeyError template table) apply samples
    (known ++ unknown :: rest) w
  = (Raise (KeyError (Format template [PStr unknown; sorted_keys table])),
     World (figure_figsize w)
           (calls w ++ map (fun v => curve samples (apply v)) vs)).
Proof.
  intros Hk Hu. induction Hk as [|name v names vs Hn Hrest IH]; intros w.
  - unfold function_curves. cbn [app for_each].
    unfold bind at 1. unfold bind at 1, lift.
    rewrite (get_or_KeyError_unknown _ _ _ Hu).
    cbn. rewrite app_nil_r. destruct w; reflexivity.
  - unfold function_curves in *. cbn [app for_each].
    unfold bind at 1. unfold bind at 1, lift.
    rewrite (get_or_KeyError_known _ _ _ Hn), call_run, IH.
    cbn [figure_figsize calls map]. rewrite <- app_assoc. reflexivity.
Qed.

Lemma function_plot_log (defaults : list string -> dict pyval)
    (names : list string) (vs : list V) (kwargs : dict pyval) (w : world) :
  found_in table names vs ->
  exists sb sa,
    function_plot (get_or_KeyError template table) apply samples defaults
      names kwargs w
    = (Ok true,
       World (figure_figsize w)
             (calls w ++ map (fun v => curve samples (apply v)) vs
              ++ BoundingBox sb :: Aspect sa
                 :: display_calls (dict_update (defaults names) kwargs)))
    /\ (forall k, dict_get (dict_update (defaults names) kwargs) k <> None ->
                  attr sa k = attr (dict_update (defaults names) kwargs) k).
Proof.
  intros Hf. unfold function_plot. unfold bind at 1.
  rewrite (@function_curves_log names vs Hf). cbv zeta.
  match goal with |- context [bind (bounding_box ?s) _ ?w0] =>
    destruct (decorate_and_display_log s w0) as (sb & sa & Hd & _ & Hsa) end.
  rewrite Hd. cbn [figure_figsize calls]. rewrite <- app_assoc.
  exists sb, sa. split; [reflexivity | exact Hsa].
Qed.

Lemma function_plot_curves_drawn (defaults : list string -> dict pyval)
    (names : list string) (vs : list V) (kwargs : dict pyval) (w : world) :
  found_in table names vs ->
  dict_get (defaults names) "standalone" = None ->
  dict_get (defaults names) "filename" = None ->
  curves_drawn (map (fun v => curve samples (apply v)) vs) kwargs
    (function_plot (get_or_KeyError template table) apply samples defaults
       names kwargs w) w.
Proof.
  intros Hf Hs Hn.
  destruct (@function_plot_log defaults names vs kwargs w Hf) as (sb & sa & Hrun & _).
  rewrite Hrun. unfold curves_drawn. cbn [fst snd]. rewrite new_calls_app.
  split; [reflexivity|]. split.
  - rewrite filter_app, filter_Plot_curves. cbn [filter is_Plot].
    rewrite filter_Plot_display. apply app_nil_r.
  - eapply displayed_as_asked_filter;
      [|apply (@display_calls_update (defaults names) kwargs Hs Hn)].
    rewrite filter_app, filter_display_curves. reflexivity.
Qed.

Lemma function_plot_unknown (defaults : list string -> dict pyval)
    (known : list string) (vs : list V) (unknown : string)
    (rest : list string) (kwargs : dict pyval) (w : world) :
  found_in table known vs ->
  dict_get table unknown = None ->
  stopped_at_unknown_name table unknown
    (map (fun v => curve samples (apply v)) vs)
    (function_plot (get_or_KeyError template table) apply samples defaults
       (known ++ unknown :: rest) kwargs w) w.
Proof.
  intros Hf Hu. unfold function_plot. unfold bind at 1.
  rewrite (@function_curves_unknown known vs unknown rest Hf Hu).
  unfold stopped_at_unknown_name. cbn [fst snd]. rewrite new_calls_app.
  split; [exists template|]; reflexivity.
Qed.
End FunctionCurves.

Lemma curves_drawn_figure_size {Args} (size : pyval)
    (object : Args -> dict pyval -> M bool) (args : Args)
    (curves : list action) (asked kwargs : dict pyval) (w : world) :
  (forall w0, curves_drawn curves asked (object args kwargs w0) w0) ->
  curves_drawn curves asked (figure_size size object args kwargs w) w.
Proof.
  intros H. specialize (H (World (requested_size size kwargs) (calls w))).
  unfold curves_drawn in *.
  rewrite figure_size_result, figure_size_new_calls. exact H.
Qed.

Lemma stopped_at_unknown_name_figure_size {Args V} (size : pyval)
    (object : Args -> dict pyval -> M bool) (args : Args)
    (table : dict V) (unknown : string)
    (curves : list action) (kwargs : dict pyval) (w : world) :
  (forall w0, stopped_at_unknown_name table unknown curves
                (object args kwargs w0) w0) ->
  stopped_at_unknown_name table unknown curves
    (figure_size size object args kwargs w) w.
Proof.
  intros H. specialize (H (World (requested_size size kwargs) (calls w))).
  unfold stopped_at_unknown_name in *.
  rewrite figure_size_result, figure_size_new_calls. exact H.
Qed.

Lemma map_curve_ext {V} (samples : list npfloat)
    (f g : V -> npfloat -> npfloat) (vs : list V) :
  (forall v, f v = g v) ->
  map (fun v => curve samples (f v)) vs = map (fun v => curve samples (g v)) vs.
Proof. intros H. apply map_ext. intros v. rewrite H. reflexivity. Qed.



(** X10. When the names before some name are in the table and that name
    is not, the Munsell value, lightness and transfer function plots raise
    a [KeyError] that carries the name and the sorted keys of the table;
    the curves of the names before it are drawn and nothing else is done:
    the axes are not decorated and the figure is neither saved, shown nor
    closed. *)
Theorem function_plots_stop_at_unknown_name
    (MUNSELL_VALUE_FUNCTIONS LIGHTNESS_FUNCTIONS : dict (npfloat -> npfloat))
    (RGB_COLOURSPACES : dict RGB_Colourspace)
    (known : list string) (unknown : string) (rest : list string)
    (kwargs : dict pyval) (w : world) :
  (forall fs, found_in MUNSELL_VALUE_FUNCTIONS known fs ->
     dict_get MUNSELL_VALUE_FUNCTIONS unknown = None ->
     stopped_at_unknown_name MUNSELL_VALUE_FUNCTIONS unknown
       (map (curve (np_linspace 0 100 1000)) fs)
       (multi_munsell_value_function_plot MUNSELL_VALUE_FUNCTIONS
          (known ++ unknown :: rest) kwargs w) w)
  /\ (forall fs, found_in LIGHTNESS_FUNCTIONS known fs ->
        dict_get LIGHTNESS_FUNCTIONS unknown = None ->
        stopped_at_unknown_name LIGHTNESS_FUNCTIONS unknown
          (map (curve (np_linspace 0 100 1000)) fs)
          (multi_lightness_function_plot LIGHTNESS_FUNCTIONS
             (known ++ unknown :: rest) kwargs w) w)
  /\ (forall cs, found_in RGB_COLOURSPACES known cs ->
        dict_get RGB_COLOURSPACES unknown = None ->
        stopped_at_unknown_name RGB_COLOURSPACES unknown
          (map (fun c => curve (np_linspace 0 1 1000)
                           (if inverse_passed kwargs
                            then inverse_transfer_function c
                            else transfer_function c)) cs)
          (multi_transfer_function_plot RGB_COLOURSPACES
             (known ++ unknown :: rest) kwargs w) w).
Proof.
  unfold multi_munsell_value_function_plot, multi_lightness_function_plot,
    multi_transfer_function_plot.
  split; [|split]; intros vs Hf Hu;
    apply stopped_at_unknown_name_figure_size; intros w0.
  - unfold get_munsell_value_function.
    apply (@function_plot_unknown _ MUNSELL_VALUE_FUNCTIONS _
             (fun f x => f x)); assumption.
  - unfold get_lightness_function.
    apply (@function_plot_unknown _ LIGHTNESS_FUNCTIONS _
             (fun f x => f x)); assumption.
  - cbv zeta. fold (inverse_passed kwargs).
    rewrite (@map_curve_ext _ (np_linspace 0 1 1000)
               (fun c => if inverse_passed kwargs
                         then inverse_transfer_function c
                         else transfer_function c)
               (fun c x => if inverse_passed kwargs
                           then inverse_transfer_function c x
                           else transfer_function c x))
      by (intros c; destruct (inverse_passed kwargs); reflexivity).
    unfold _get_RGB_colourspace.
    apply (@function_plot_unknown _ RGB_COLOURSPACES _
             (fun c x => if inverse_passed kwargs
                         then inverse_transfer_function c x
                         else transfer_function c x)); assumption.
Qed.

(** A name that is in none of the sample tables, after one that is. *)
Lemma function_plots_stop_at_unknown_name_witness :
  let w := World DEFAULT_FIGURE_SIZE [] in
  stopped_at_unknown_name sample_functions "cube"
    [curve (np_linspace 0 100 1000) (fun x => x)]
    (multi_munsell_value_function_plot sample_functions
       ["identity"; "cube"; "square"] [] w) w
  /\ stopped_at_unknown_name sample_functions "cube"
       [curve (np_linspace 0 100 1000) (fun x => x)]
       (multi_lightness_function_plot sample_functions
          ["identity"; "cube"; "square"] [] w) w
  /\ stopped_at_unknown_name sample_colourspaces "cube" []
       (multi_transfer_function_plot sample_colourspaces ["cube"] [] w) w.
Proof.
  cbv zeta. split; [|split].
  - apply (proj1 (@function_plots_stop_at_unknown_name
                    sample_functions sample_functions sample_colourspaces
                    ["identity"] "cube" ["square"] []
                    (World DEFAULT_FIGURE_SIZE [])) [fun x => x]);
      [repeat constructor | reflexivity].
  - apply (proj1 (proj2 (@function_plots_stop_at_unknown_name
                    sample_functions sample_functions sample_colourspaces
                    ["identity"] "cube" ["square"] []
                    (World DEFAULT_FIGURE_SIZE []))) [fun x => x]);
      [repeat constructor | reflexivity].
  - apply (proj2 (proj2 (@function_plots_stop_at_unknown_name
                    sample_functions sample_functions sample_colourspaces
                    [] "cube" [] [] (World DEFAULT_FIGURE_SIZE []))) []);
      [constructor | reflexivity].
Defined.

Lemma function_plot_decorated {V} (table : dict V) (template : string)
    (apply : V -> npfloat -> npfloat) (samples : list npfloat)
    (defaults : list string -> dict pyval)
    (names : list string) (vs : list V) (kwargs : dict pyval) (w : world)
    (t0 : pyval) :
  found_in table names vs ->
  dict_get (defaults names) "title" = Some t0 ->
  decorated_with_title
    (match dict_get kwargs "title" with Some t => t | None => t0 end)
    (new_calls w (snd (function_plot (get_or_KeyError template table) apply
                         samples defaults names kwargs w))).
Proof.
  intros Hf Ht.
  destruct (@function_plot_log V table template apply samples defaults names
              vs kwargs w Hf) as (sb & sa & Hrun & Hsa).
  rewrite Hrun. cbn [snd]. rewrite new_calls_app.
  exists sa. split; [apply in_or_app; right; right; left; reflexivity|].
  split.
  - rewrite Hsa.
    + rewrite attr_update. unfold attr. rewrite Ht.
      destruct (dict_get kwargs "title"); reflexivity.
    + rewrite dict_get_update, Ht.
      destruct (dict_get kwargs "title"); discriminate.
  - intros s Hin. apply in_app_or in Hin. destruct Hin as [Hin|Hin].
    + apply in_map_iff in Hin. destruct Hin as (v & Hv & _). discriminate Hv.
    + destruct Hin as [Hin|[Hin|Hin]]; [discriminate Hin | congruence |].
      apply display_calls_kinds in Hin. discriminate Hin.
Qed.

Lemma title_or_update (kwargs : dict pyval) (title : string) (t0 : pyval) :
  match dict_get (dict_update [("title", PStr title)] kwargs) "title" with
  | Some t => t
  | None => t0
  end = title_or kwargs title.
Proof.
  rewrite dict_get_update. unfold title_or.
  destruct (dict_get kwargs "title"); reflexivity.
Qed.



(** ** The curve colours of multi_cmfs_plot *)

Lemma fold_halving {A} (l : list A) :
  forall x : Q,
  (fold_left (fun y _ => y * (1 # 2)) l x
   == x * (1 # 2) ^ Z.of_nat (List.length l))%Q.
Proof.
  induction l as [|a l IH]; intros x.
  - cbn. ring.
  - cbn [fold_left List.length]. rewrite IH.
    rewrite Nat2Z.inj_succ, <- Z.add_1_l.
    rewrite Qpower.Qpower_plus by discriminate.
    change ((1 # 2) ^ 1)%Q with (1 # 2)%Q. ring.
Qed.

Lemma halved_power (i : nat) (x : Q) :
  (halved i x == x * (1 # 2) ^ Z.of_nat i)%Q.
Proof. unfold halved. rewrite fold_halving, length_seq. reflexivity. Qed.

Lemma Forall2_Qeq_map (f g : Q -> Q) (rgb : list Q) :
  (forall x, f x == g x)%Q ->
  forall c, Forall2 Qeq c (map f rgb) -> Forall2 Qeq c (map g rgb).
Proof.
  intros Hfg. induction rgb as [|x rgb IH]; intros c H.
  - exact H.
  - change (map f (x :: rgb)) with (f x :: map f rgb) in H.
    change (map g (x :: rgb)) with (g x :: map g rgb).
    inversion H as [|y ? ? ? Hy Hrest]; subst. constructor.
    + eapply Qeq_trans; [exact Hy | apply Hfg].
    + apply IH. exact Hrest.
Qed.

Lemma Forall2_Qeq_refl (l : list Q) : Forall2 Qeq l l.
Proof. induction l; constructor; [apply Qeq_refl | assumption]. Qed.

Lemma curve_colours_nth {A} (cmfss : list A) :
  forall (i k : nat) (rgb c : list Q),
  nth_error (curve_colours cmfss i rgb) k = Some c ->
  Forall2 Qeq c
    (map (fun x => (x * (1 # 2) ^ Z.of_nat (S k * i + k * (k + 1) / 2))%Q) rgb).
Proof.
  induction cmfss as [|a rest IH]; intros i k rgb c H.
  - destruct k; discriminate H.
  - cbn [curve_colours] in H. destruct k as [|k]; cbn [nth_error] in H.
    + injection H as <-.
      replace (1 * i + 0 * (0 + 1) / 2)%nat with i by (cbn; lia).
      apply Forall2_Qeq_map with (f := halved i);
        [intros x; apply halved_power | apply Forall2_Qeq_refl].
    + apply IH in H. rewrite map_map in H.
      assert (E : (S (S k) * i + S k * (S k + 1) / 2
                   = i + (S k * S i + k * (k + 1) / 2))%nat).
      { replace (S k * (S k + 1))%nat with (k * (k + 1) + S k * 2)%nat by lia.
        rewrite Nat.div_add by lia. lia. }
      rewrite E. clear E IH.
      set (e := (S k * S i + k * (k + 1) / 2)%nat) in *.
      revert H. apply Forall2_Qeq_map. intros x. cbv beta.
      rewrite halved_power, Nat2Z.inj_add, Qpower.Qpower_plus by discriminate.
      ring.
Qed.

Lemma curve_colours_length {A} (cmfss : list A) :
  forall (i : nat) (rgb : list Q),
  List.length (curve_colours cmfss i rgb) = List.length cmfss.
Proof.
  induction cmfss as [|a rest IH]; intros i rgb; cbn; [|rewrite IH]; reflexivity.
Qed.

(** X12. [multi_cmfs_plot] colours the curves of one axis, one per colour
    matching functions, by scaling the colour of the axis: the curve of
    index [k] gets the axis colour times [0.5 ^ (k (k + 1) / 2)], that is
    1, 1/2, 1/8, 1/64, ..., each colour being halved [k] times from the
    colour of the curve before it and not from the colour of the axis. *)
Theorem multi_cmfs_plot_curve_colours {A} (cmfss : list A) (rgb : list Q)
    (k : nat) (c : list Q) :
  nth_error (curve_colours cmfss 0 rgb) k = Some c ->
  List.length (curve_colours cmfss 0 rgb) = List.length cmfss
  /\ Forall2 Qeq c
       (map (fun x => (x * (1 # 2) ^ Z.of_nat (k * (k + 1) / 2))%Q) rgb).
Proof.
  intros H. split; [apply curve_colours_length|].
  apply curve_colours_nth in H.
  replace (S k * 0 + k * (k + 1) / 2)%nat with (k * (k + 1) / 2)%nat in H by lia.
  exact H.
Qed.

(** The third of three observers on the x axis: an eighth of red. *)
Lemma multi_cmfs_plot_curve_colours_witness :
  nth_error (curve_colours ["a"; "b"; "c"] 0 [1; 0; 0]%Q) 2
  = Some [1 * (1 # 2) * (1 # 2) * (1 # 2); 0 * (1 # 2) * (1 # 2) * (1 # 2);
          0 * (1 # 2) * (1 # 2) * (1 # 2)]%Q
  /\ Forall2 Qeq [1 * (1 # 2) * (1 # 2) * (1 # 2); 0 * (1 # 2) * (1 # 2) * (1 # 2);
                  0 * (1 # 2) * (1 # 2) * (1 # 2)]%Q
       [1 * (1 # 8); 0 * (1 # 8); 0 * (1 # 8)]%Q.
Proof.
  split; [reflexivity|].
  apply (@multi_cmfs_plot_curve_colours string ["a"; "b"; "c"] [1; 0; 0]%Q 2
           [1 * (1 # 2) * (1 # 2) * (1 # 2); 0 * (1 # 2) * (1 # 2) * (1 # 2);
            0 * (1 # 2) * (1 # 2) * (1 # 2)]%Q eq_refl).
Defined.

(** ** The polygons of colour_parameters_plot *)

Lemma band_polygons_length (cps : list ColourParameter) :
  List.length (band_polygons cps) = (List.length cps - 1)%nat.
Proof.
  induction cps as [|a cps IH]; [reflexivity|].
  destruct cps as [|b cps]; [reflexivity|].
  change (band_polygons (a :: b :: cps))
    with (band_polygon a b :: band_polygons (b :: cps)).
  cbn [List.length] in *. rewrite IH. lia.
Qed.

Lemma band_polygon_shared_edge (a b c : ColourParameter) :
  is_None (cp_y0 a) = is_None (cp_y0 b) ->
  is_None (cp_y1 a) = is_None (cp_y1 b) ->
  right_edge (band_polygon a b) = left_edge (band_polygon b c).
Proof.
  intros H0 H1. unfold band_polygon, right_edge, left_edge. cbn [nth].
  rewrite <- H0, <- H1.
  destruct (is_None (cp_y0 a)), (is_None (cp_y1 a)); reflexivity.
Qed.

Lemma band_polygons_nth (cps : list ColourParameter) (k : nat)
    (this next : ColourParameter) :
  nth_error cps k = Some this -> nth_error cps (S k) = Some next ->
  nth_error (band_polygons cps) k = Some (band_polygon this next).
Proof.
  revert k. induction cps as [|a cps IH]; intros k Ht Hn.
  - destruct k; discriminate Ht.
  - destruct cps as [|b cps]; [destruct k; discriminate Hn|].
    change (band_polygons (a :: b :: cps))
      with (band_polygon a b :: band_polygons (b :: cps)).
    destruct k as [|k].
    + cbn in Ht, Hn. injection Ht as <-. injection Hn as <-. reflexivity.
    + cbn [nth_error] in *. apply IH; assumption.
Qed.

Lemma band_polygons_continuous (cps : list ColourParameter) :
  all_or_none cp_y0 cps -> all_or_none cp_y1 cps ->
  forall k p q,
    nth_error (band_polygons cps) k = Some p ->
    nth_error (band_polygons cps) (S k) = Some q ->
    right_edge p = left_edge q.
Proof.
  induction cps as [|a cps IH]; intros H0 H1 k p q Hp Hq.
  - destruct k; discriminate Hp.
  - destruct cps as [|b cps]; [destruct k; discriminate Hp|].
    change (band_polygons (a :: b :: cps))
      with (band_polygon a b :: band_polygons (b :: cps)) in Hp, Hq.
    destruct k as [|k].
    + cbn [nth_error] in Hp, Hq. injection Hp as <-.
      destruct cps as [|c cps]; [discriminate Hq|].
      change (band_polygons (b :: c :: cps))
        with (band_polygon b c :: band_polygons (c :: cps)) in Hq.
      cbn [nth_error] in Hq. injection Hq as <-.
      apply band_polygon_shared_edge; [apply H0 | apply H1]; cbn; tauto.
    + cbn [nth_error] in Hp, Hq.
      apply (IH ltac:(intros x y Hx Hy; apply H0; right; assumption)
                ltac:(intros x y Hx Hy; apply H1; right; assumption) k);
        assumption.
Qed.

(** X13. [colour_parameters_plot] fills one polygon per pair of
    neighbouring colour parameters, none for a list of fewer than two:
    whatever the list, there is one polygon fewer than parameters, and the
    [k]-th polygon is the one of the [k]-th parameter and the next.  When
    every parameter gives [y0] or none does, and likewise for [y1], the
    band is continuous: the right edge of each polygon is the left edge of
    the next one. *)
Theorem colour_parameters_plot_band_is_continuous
    (colour_parameters : list ColourParameter) :
  List.length (band_polygons colour_parameters)
  = (List.length colour_parameters - 1)%nat
  /\ (forall k this next,
        nth_error colour_parameters k = Some this ->
        nth_error colour_parameters (S k) = Some next ->
        nth_error (band_polygons colour_parameters) k
        = Some (band_polygon this next))
  /\ (all_or_none cp_y0 colour_parameters ->
      all_or_none cp_y1 colour_parameters ->
      forall k p q,
        nth_error (band_polygons colour_parameters) k = Some p ->
        nth_error (band_polygons colour_parameters) (S k) = Some q ->
        right_edge p = left_edge q).
Proof.
  split; [apply band_polygons_length|].
  split; [intros k this next; apply band_polygons_nth|].
  apply band_polygons_continuous.
Qed.

(** Three samples of a spectrum, as [single_spd_plot] passes them: [y1]
    given, [y0] left to [None]. *)
Lemma colour_parameters_plot_band_is_continuous_witness :
  let c0 := COLOUR_PARAMETER PNone (PStr "r") (PInt 390) PNone (PFloat (1 # 4)) in
  let c1 := COLOUR_PARAMETER PNone (PStr "g") (PInt 391) PNone (PFloat (1 # 3)) in
  let c2 := COLOUR_PARAMETER PNone (PStr "b") (PInt 392) PNone (PFloat (1 # 2)) in
  List.length (band_polygons [c0; c1; c2]) = 2%nat
  /\ nth_error (band_polygons [c0; c1; c2]) 1 = Some (band_polygon c1 c2)
  /\ right_edge ([PInt 390; PInt 391; PInt 391; PInt 390],
                 [PFloat 0; PFloat 0; PFloat (1 # 3); PFloat (1 # 4)], PStr "r")
     = left_edge ([PInt 391; PInt 392; PInt 392; PInt 391],
                  [PFloat 0; PFloat 0; PFloat (1 # 2); PFloat (1 # 3)], PStr "g").
Proof.
  cbv zeta.
  destruct (@colour_parameters_plot_band_is_continuous
              [COLOUR_PARAMETER PNone (PStr "r") (PInt 390) PNone (PFloat (1 # 4));
               COLOUR_PARAMETER PNone (PStr "g") (PInt 391) PNone (PFloat (1 # 3));
               COLOUR_PARAMETER PNone (PStr "b") (PInt 392) PNone (PFloat (1 # 2))])
    as (Hcount & Hpair & Hband).
  split; [exact Hcount|]. split; [apply Hpair; reflexivity|].
  apply (fun H0 H1 => Hband H0 H1 0%nat); try reflexivity.
  - intros a b Ha Hb. cbn in Ha, Hb.
    repeat (destruct Ha as [<-|Ha]); try destruct Ha;
      repeat (destruct Hb as [<-|Hb]); try destruct Hb; reflexivity.
  - intros a b Ha Hb. cbn in Ha, Hb.
    repeat (destruct Ha as [<-|Ha]); try destruct Ha;
      repeat (destruct Hb as [<-|Hb]); try destruct Hb; reflexivity.
Defined.

(** ** Colourspaces in the CIE 1931 chromaticity diagram *)

Lemma amin_le (l : list Q) :
  forall a, (amin a l <= a)%Q /\ forall x, In x l -> (amin a l <= x)%Q.
Proof.
  unfold amin. induction l as [|b l IH]; intros a.
  - split; [apply Qle_refl | intros x []].
  - cbn [fold_left].
    destruct (IH (if Qlt_le_dec b a then b else a)) as [Hm Hl].
    destruct (Qlt_le_dec b a) as [Hlt|Hle].
    + split; [eapply Qle_trans; [exact Hm | apply Qlt_le_weak, Hlt]|].
      intros x [<-|Hx]; [exact Hm | apply Hl, Hx].
    + split; [exact Hm|].
      intros x [<-|Hx]; [eapply Qle_trans; [exact Hm | exact Hle] | apply Hl, Hx].
Qed.

Lemma amax_ge (l : list Q) :
  forall a, (a <= amax a l)%Q /\ forall x, In x l -> (x <= amax a l)%Q.
Proof.
  unfold amax. induction l as [|b l IH]; intros a.
  - split; [apply Qle_refl | intros x []].
  - cbn [fold_left].
    destruct (IH (if Qlt_le_dec a b then b else a)) as [Hm Hl].
    destruct (Qlt_le_dec a b) as [Hlt|Hle].
    + split; [eapply Qle_trans; [apply Qlt_le_weak, Hlt | exact Hm]|].
      intros x [<-|Hx]; [exact Hm | apply Hl, Hx].
    + split; [exact Hm|].
      intros x [<-|Hx]; [eapply Qle_trans; [exact Hle | exact Hm] | apply Hl, Hx].
Qed.

Lemma py_min_le (l : list Q) (a : Q) :
  In a l -> exists m, py_min l = Ok m /\ forall x, In x l -> (m <= x)%Q.
Proof.
  destruct l as [|b l]; [intros []|]. intros _. exists (amin b l).
  split; [reflexivity|]. destruct (amin_le l b) as [Hb Hl].
  intros x [<-|Hx]; [exact Hb | apply Hl, Hx].
Qed.

Lemma py_max_ge (l : list Q) (a : Q) :
  In a l -> exists m, py_max l = Ok m /\ forall x, In x l -> (x <= m)%Q.
Proof.
  destruct l as [|b l]; [intros []|]. intros _. exists (amax b l).
  split; [reflexivity|]. destruct (amax_ge l b) as [Hb Hl].
  intros x [<-|Hx]; [exact Hb | apply Hl, Hx].
Qed.

Lemma figure_size_run {Args A} (size : pyval)
    (object : Args -> dict pyval -> M A) (args : Args) (kwargs : dict pyval)
    (w : world) :
  appends (object args kwargs) ->
  exists r out,
    figure_size size object args kwargs w
    = (r, World DEFAULT_FIGURE_SIZE (calls w ++ out))
    /\ object args kwargs (World (requested_size size kwargs) (calls w))
       = (r, World (requested_size size kwargs) (calls w ++ out)).
Proof.
  intros Happ.
  destruct (Happ (World (requested_size size kwargs) (calls w)))
    as (r & out & E).
  exists r, out. split; [|exact E].
  revert E. unfold figure_size, requested_size, attr, set_figsize. cbn zeta.
  destruct (dict_get kwargs "figure_size") as [v|]; cbn.
  - destruct (is_None v); cbn; intros ->; reflexivity.
  - intros ->. reflexivity.
Qed.

Lemma chromaticity_diagram_appends {XYZ} (CMFS : dict (cmfs_t XYZ))
    diagram labels (to_uv : XYZ -> vec) settings (cmfs : string) kwargs :
  appends (chromaticity_diagram CMFS diagram labels to_uv settings cmfs kwargs).
Proof.
  unfold chromaticity_diagram.
  apply appends_bind; [auto with appends|]. intros c.
  apply appends_bind; [auto with appends|]. intros _.
  destruct (map to_uv (cmfs_values c)); auto 20 with appends.
Qed.

Section ColourspacesLoop.
Variable RGB_COLOURSPACES : dict RGB_Colourspace.
Variable POINTER_GAMUT_DATA : list (Q * Q).

Lemma plot_colourspace_appends (name : string) (limits : limit_lists) :
  appends (plot_colourspace RGB_COLOURSPACES POINTER_GAMUT_DATA name limits).
Proof.
  unfold plot_colourspace.
  destruct (String.eqb name "Pointer Gamut").
  - destruct POINTER_GAMUT_DATA; auto 10 with appends.
  - apply appends_bind; [auto with appends|]. intros cs.
    destruct (primaries cs) as [[p0 p1] p2]. auto 20 with appends.
Qed.

Lemma colourspaces_loop_appends (names : list string) :
  forall limits,
  appends (colourspaces_loop RGB_COLOURSPACES POINTER_GAMUT_DATA names limits).
Proof.
  induction names as [|name names IH]; intros limits; cbn [colourspaces_loop].
  - auto with appends.
  - apply appends_bind; [apply plot_colourspace_appends | exact IH].
Qed.

Lemma limits_extend_refl (limits : limit_lists) : limits_extend limits limits.
Proof. repeat split; apply incl_refl. Qed.

Lemma limits_extend_trans (a b c : limit_lists) :
  limits_extend a b -> limits_extend b c -> limits_extend a c.
Proof.
  intros (H1 & H2 & H3 & H4) (K1 & K2 & K3 & K4).
  repeat split; eapply incl_tran; eassumption.
Qed.

Lemma limits_hold_extend (cs : RGB_Colourspace) (a b : limit_lists) :
  limits_extend a b -> limits_hold cs a -> limits_hold cs b.
Proof.
  intros (H1 & H2 & H3 & H4) (x0 & x1 & y0 & y1 & I1 & I2 & I3 & I4 & Hp).
  exists x0, x1, y0, y1. repeat split; auto; apply Hp; assumption.
Qed.

Lemma plot_colourspace_log (name : string) (limits : limit_lists) (w : world) :
  POINTER_GAMUT_DATA <> [] ->
  plottable RGB_COLOURSPACES name ->
  exists limits' out,
    plot_colourspace RGB_COLOURSPACES POINTER_GAMUT_DATA name limits w
    = (Ok limits', World (figure_figsize w) (calls w ++ out))
    /\ limits_extend limits limits'
    /\ (forall a, In a out -> is_Plot a = true)
    /\ (name <> "Pointer Gamut" ->
        forall cs, dict_get RGB_COLOURSPACES name = Some cs ->
                   limits_hold cs limits').
Proof.
  intros Hne Hp. unfold plot_colourspace.
  destruct (String.eqb_spec name "Pointer Gamut") as [->|Hn].
  - destruct POINTER_GAMUT_DATA as [|d data]; [contradiction|].
    unfold bind, ret. rewrite !call_run. cbn [figure_figsize calls].
    eexists limits, [_; _]. rewrite <- app_assoc.
    split; [reflexivity|]. split; [apply limits_extend_refl|].
    split; [intros a [<-|[<-|[]]]; reflexivity|].
    intros H. contradiction.
  - destruct Hp as [->|(cs & Hcs)]; [contradiction|].
    unfold _get_RGB_colourspace. rewrite (get_or_KeyError_known _ _ _ Hcs).
    unfold bind at 1, lift.
    destruct (primaries cs) as [[p0 p1] p2] eqn:Ep.
    unfold bind, ret. rewrite !call_run. cbn [figure_figsize calls].
    eexists _, [_; _; _; _; _]. rewrite <- !app_assoc.
    split; [reflexivity|].
    split; [repeat split; cbn; apply incl_appl, incl_refl|].
    split; [intros a Ha; repeat (destruct Ha as [<-|Ha]; [reflexivity|]);
            destruct Ha|].
    intros _ cs' Hcs'. rewrite Hcs in Hcs'. injection Hcs' as <-.
    exists (amin (fst p0) [fst p1; fst p2]), (amax (fst p0) [fst p1; fst p2]),
      (amin (snd p0) [snd p1; snd p2]), (amax (snd p0) [snd p1; snd p2]).
    cbn [x_limit_min x_limit_max y_limit_min y_limit_max].
    repeat (split; [apply in_or_app; right; left; reflexivity|]).
    rewrite Ep. cbn [rows].
    destruct (amin_le [fst p1; fst p2] (fst p0)) as [A0 A].
    destruct (amax_ge [fst p1; fst p2] (fst p0)) as [B0 B].
    destruct (amin_le [snd p1; snd p2] (snd p0)) as [C0 C].
    destruct (amax_ge [snd p1; snd p2] (snd p0)) as [D0 D].
    intros p [<-|[<-|[<-|[]]]]; repeat split;
      first [assumption | apply A | apply B | apply C | apply D]; cbn; tauto.
Qed.

Lemma colourspaces_loop_log (names : list string) :
  POINTER_GAMUT_DATA <> [] ->
  Forall (plottable RGB_COLOURSPACES) names ->
  forall (limits : limit_lists) (w : world),
  exists limits' out,
    colourspaces_loop RGB_COLOURSPACES POINTER_GAMUT_DATA names limits w
    = (Ok limits', World (figure_figsize w) (calls w ++ out))
    /\ limits_extend limits limits'
    /\ (forall a, In a out -> is_Plot a = true)
    /\ (forall name cs, In name names -> name <> "Pointer Gamut" ->
          dict_get RGB_COLOURSPACES name = Some cs -> limits_hold cs limits').
Proof.
  intros Hne Hall. induction Hall as [|name names Hp Hrest IH]; intros limits w.
  - exists limits, []. cbn. rewrite app_nil_r. destruct w.
    split; [reflexivity|]. split; [apply limits_extend_refl|].
    split; [intros a []|]. intros name cs [].
  - cbn [colourspaces_loop]. unfold bind at 1.
    destruct (@plot_colourspace_log name limits w Hne Hp)
      as (l1 & out1 & Hrun1 & Hext1 & Hk1 & Hhold1).
    rewrite Hrun1.
    destruct (IH l1 (World (figure_figsize w) (calls w ++ out1)))
      as (l2 & out2 & Hrun2 & Hext2 & Hk2 & Hhold2).
    rewrite Hrun2. cbn [figure_figsize calls].
    exists l2, (out1 ++ out2). rewrite app_assoc.
    split; [reflexivity|].
    split; [eapply limits_extend_trans; eassumption|].
    split.
    { intros a Ha. apply in_app_or in Ha. destruct Ha; auto. }
    intros n cs [<-|Hin] Hn Hcs.
    + eapply limits_hold_extend; [exact Hext2 | exact (Hhold1 Hn cs Hcs)].
    + exact (Hhold2 n cs Hin Hn Hcs).
Qed.
End ColourspacesLoop.

Lemma figure_size_unfold {Args A} (size : pyval)
    (object : Args -> dict pyval -> M A) (args : Args) (kwargs : dict pyval)
    (w : world) :
  figure_size size object args kwargs w
  = (fst (object args kwargs (World (requested_size size kwargs) (calls w))),
     World DEFAULT_FIGURE_SIZE
       (calls (snd (object args kwargs
                      (World (requested_size size kwargs) (calls w)))))).
Proof.
  unfold figure_size, requested_size, attr, set_figsize. cbn zeta.
  destruct (dict_get kwargs "figure_size") as [v|]; cbn.
  - destruct (is_None v); cbn;
      match goal with |- context [object args kwargs ?w0] =>
        destruct (object args kwargs w0) as [r w2] end; reflexivity.
  - destruct (object args kwargs _) as [r w2]; reflexivity.
Qed.

Section ColourspacesPlot.
Variable XYZ : Type.
Variable CMFS : dict (cmfs_t XYZ).
Variable XYZ_to_xy : XYZ -> vec.
Variable RGB_COLOURSPACES : dict RGB_Colourspace.
Variable POINTER_GAMUT_DATA : list (Q * Q).
Variables (colourspaces : list string) (cmfs : string) (kwargs : dict pyval).

Lemma colourspaces_overlay_appends (settings : dict pyval) :
  appends (colourspaces_overlay RGB_COLOURSPACES POINTER_GAMUT_DATA
             colourspaces settings).
Proof.
  unfold colourspaces_overlay.
  apply appends_bind; [apply colourspaces_loop_appends|]. intros limits.
  repeat (apply appends_bind; [auto with appends|]; intros ?).
  auto with appends.
Qed.

(** The plot, step by step: the diagram of the standard observer under the
    merged settings, then the colourspaces. *)
Lemma colourspaces_plot_run (requested : cmfs_t XYZ) (w : world) :
  dict_get CMFS cmfs = Some requested ->
  let settings := colourspaces_settings colourspaces cmfs kwargs in
  let inner := World (requested_size (PTuple [PInt 8; PInt 8]) settings) (calls w) in
  exists r1 out1,
    chromaticity_diagram CMFS "CIE_1931_Chromaticity_Diagram" labels_1931
      XYZ_to_xy
      (diagram_settings "CIE 1931 Chromaticity Diagram" "CIE x" "CIE y"
         [-1 # 10; 9 # 10; -1 # 10; 9 # 10]%Q)
      "CIE 1931 2 Degree Standard Observer" settings inner
    = (r1, World (figure_figsize inner) (calls w ++ out1))
    /\ exists r2 out2,
         colourspaces_CIE_1931_chromaticity_diagram_plot CMFS XYZ_to_xy
           RGB_COLOURSPACES POINTER_GAMUT_DATA (colourspaces, cmfs) kwargs w
         = (r2, World DEFAULT_FIGURE_SIZE (calls w ++ out1 ++ out2))
         /\ match r1 with
            | Raise e => r2 = Raise e /\ out2 = []
            | Ok false => r2 = Ok PNone /\ out2 = []
            | Ok true =>
                colourspaces_overlay RGB_COLOURSPACES POINTER_GAMUT_DATA
                  colourspaces settings
                  (World DEFAULT_FIGURE_SIZE (calls w ++ out1))
                = (r2, World DEFAULT_FIGURE_SIZE (calls w ++ out1 ++ out2))
            end.
Proof.
  intros Hreq. cbv zeta.
  destruct (@chromaticity_diagram_appends XYZ CMFS
              "CIE_1931_Chromaticity_Diagram" labels_1931 XYZ_to_xy
              (diagram_settings "CIE 1931 Chromaticity Diagram" "CIE x" "CIE y"
                 [-1 # 10; 9 # 10; -1 # 10; 9 # 10]%Q)
              "CIE 1931 2 Degree Standard Observer"
              (colourspaces_settings colourspaces cmfs kwargs)
              (World (requested_size (PTuple [PInt 8; PInt 8])
                        (colourspaces_settings colourspaces cmfs kwargs))
                     (calls w)))
    as (r1 & out1 & Hinner).
  cbn [figure_figsize calls] in Hinner.
  exists r1, out1. split; [exact Hinner|].
  assert (Hd : CIE_1931_chromaticity_diagram_plot CMFS XYZ_to_xy
                 "CIE 1931 2 Degree Standard Observer"
                 (colourspaces_settings colourspaces cmfs kwargs)
                 (World (requested_size (PTuple [PInt 8; PInt 8]) kwargs) (calls w))
               = (r1, World DEFAULT_FIGURE_SIZE (calls w ++ out1))).
  { unfold CIE_1931_chromaticity_diagram_plot.
    rewrite figure_size_unfold. cbn [calls]. rewrite Hinner. reflexivity. }
  unfold colourspaces_CIE_1931_chromaticity_diagram_plot.
  rewrite figure_size_unfold.
  match goal with |- context [fst ?t] => set (run := t) end.
  assert (Hrun : run
                 = match r1 with
                   | Ok true =>
                       colourspaces_overlay RGB_COLOURSPACES POINTER_GAMUT_DATA
                         colourspaces
                         (colourspaces_settings colourspaces cmfs kwargs)
                         (World DEFAULT_FIGURE_SIZE (calls w ++ out1))
                   | Ok false =>
                       (Ok PNone, World DEFAULT_FIGURE_SIZE (calls w ++ out1))
                   | Raise e =>
                       (Raise e, World DEFAULT_FIGURE_SIZE (calls w ++ out1))
                   end).
  { subst run. cbv beta iota zeta. unfold _get_cmfs. rewrite Hreq.
    unfold bind at 1, lift. unfold bind at 1.
    fold (colourspaces_settings colourspaces cmfs kwargs).
    rewrite Hd. destruct r1 as [[|]|e]; reflexivity. }
  rewrite Hrun. clear Hrun run.
  destruct r1 as [[|]|e].
  - destruct (colourspaces_overlay_appends
                (colourspaces_settings colourspaces cmfs kwargs)
                (World DEFAULT_FIGURE_SIZE (calls w ++ out1)))
      as (r2 & out2 & Hover).
    cbn [figure_figsize calls] in Hover. rewrite <- app_assoc in Hover.
    exists r2, out2. rewrite Hover. split; reflexivity.
  - exists (Ok PNone), []. cbn [fst snd calls].
    rewrite app_nil_r. repeat split.
  - exists (Raise e), []. cbn [fst snd calls].
    rewrite app_nil_r. repeat split.
Qed.
End ColourspacesPlot.

Section ColourspacesOverlay.
Variable RGB_COLOURSPACES : dict RGB_Colourspace.
Variable POINTER_GAMUT_DATA : list (Q * Q).
Variable colourspaces : list string.
Hypothesis pointer_not_empty : POINTER_GAMUT_DATA <> [].
Hypothesis all_plottable : Forall (plottable RGB_COLOURSPACES) colourspaces.

Lemma colourspaces_overlay_log (settings : dict pyval) (w : world) :
  exists out sb sa final,
    colourspaces_overlay RGB_COLOURSPACES POINTER_GAMUT_DATA colourspaces
      settings w
    = (Ok (PBool true),
       World (figure_figsize w)
             (calls w ++ out
              ++ BoundingBox sb :: Aspect sa :: display_calls final))
    /\ (forall a, In a out -> is_Plot a = true)
    /\ standalone_option final = true
    /\ filename_given final = filename_given settings
    /\ encloses (attr sb "limits") (-1 # 10, -1 # 10)%Q
    /\ encloses (attr sb "limits") (9 # 10, 9 # 10)%Q
    /\ (forall name cs, In name colourspaces -> name <> "Pointer Gamut" ->
          dict_get RGB_COLOURSPACES name = Some cs ->
          forall p, In p (rows (primaries cs)) ->
                    encloses (attr sb "limits") p).
Proof.
  unfold colourspaces_overlay.
  destruct (@colourspaces_loop_log RGB_COLOURSPACES POINTER_GAMUT_DATA
              colourspaces pointer_not_empty all_plottable
              {| x_limit_min := [-1 # 10]%Q; x_limit_max := [9 # 10]%Q;
                 y_limit_min := [-1 # 10]%Q; y_limit_max := [9 # 10]%Q |} w)
    as (limits & out & Hrun & (E1 & E2 & E3 & E4) & Hkind & Hhold).
  cbn [x_limit_min x_limit_max y_limit_min y_limit_max] in E1, E2, E3, E4.
  unfold bind at 1. rewrite Hrun.
  destruct (@py_min_le (x_limit_min limits) (-1 # 10)%Q
              (E1 _ (or_introl eq_refl))) as (x_min & Hx_min & Bx_min).
  destruct (@py_max_ge (x_limit_max limits) (9 # 10)%Q
              (E2 _ (or_introl eq_refl))) as (x_max & Hx_max & Bx_max).
  destruct (@py_min_le (y_limit_min limits) (-1 # 10)%Q
              (E3 _ (or_introl eq_refl))) as (y_min & Hy_min & By_min).
  destruct (@py_max_ge (y_limit_max limits) (9 # 10)%Q
              (E4 _ (or_introl eq_refl))) as (y_max & Hy_max & By_max).
  rewrite Hx_min, Hx_max, Hy_min, Hy_max.
  unfold bind at 1, lift. unfold bind at 1. unfold bind at 1. unfold bind at 1.
  cbv zeta.
  set (final := dict_update settings _).
  unfold bounding_box, aspect.
  unfold bind at 1. unfold bind at 1. rewrite call_run. unfold ret at 1.
  unfold bind at 1. unfold bind at 1. rewrite call_run. unfold ret at 1.
  unfold bind at 1. rewrite display_log. unfold ret.
  cbn [figure_figsize calls]. rewrite <- !app_assoc. cbn [app].
  eexists out, _, _, final. split; [reflexivity|].
  split; [exact Hkind|].
  split; [reflexivity|].
  split.
  { unfold filename_given. subst final. rewrite dict_get_update.
    reflexivity. }
  assert (Hl : attr (dict_update
                       [("bounding_box", PNone); ("x_tighten", PBool false);
                        ("y_tighten", PBool false);
                        ("limits", PTuple [PFloat 0; PFloat 1; PFloat 0; PFloat 1]);
                        ("margins", PTuple [PFloat 0; PFloat 0; PFloat 0; PFloat 0])]
                       final) "limits"
               = PTuple [PFloat x_min; PFloat x_max; PFloat y_min; PFloat y_max]).
  { rewrite attr_update. subst final. rewrite dict_get_update. reflexivity. }
  rewrite Hl.
  assert (Henc : forall p x0 x1 y0 y1,
             In x0 (x_limit_min limits) -> In x1 (x_limit_max limits) ->
             In y0 (y_limit_min limits) -> In y1 (y_limit_max limits) ->
             (x0 <= fst p <= x1)%Q -> (y0 <= snd p <= y1)%Q ->
             encloses (PTuple [PFloat x_min; PFloat x_max;
                               PFloat y_min; PFloat y_max]) p).
  { intros p x0 x1 y0 y1 I1 I2 I3 I4 [Hx0 Hx1] [Hy0 Hy1].
    exists x_min, x_max, y_min, y_max. split; [reflexivity|].
    split; split.
    - eapply Qle_trans; [apply Bx_min, I1 | exact Hx0].
    - eapply Qle_trans; [exact Hx1 | apply Bx_max, I2].
    - eapply Qle_trans; [apply By_min, I3 | exact Hy0].
    - eapply Qle_trans; [exact Hy1 | apply By_max, I4]. }
  split.
  { apply (Henc _ (-1 # 10) (9 # 10) (-1 # 10) (9 # 10))%Q;
      [apply E1 | apply E2 | apply E3 | apply E4 | |];
      try (left; reflexivity); split; discriminate. }
  split.
  { apply (Henc _ (-1 # 10) (9 # 10) (-1 # 10) (9 # 10))%Q;
      [apply E1 | apply E2 | apply E3 | apply E4 | |];
      try (left; reflexivity); split; discriminate. }
  intros name cs Hin Hn Hcs p Hp.
  destruct (Hhold name cs Hin Hn Hcs)
    as (x0 & x1 & y0 & y1 & I1 & I2 & I3 & I4 & Hb).
  destruct (Hb p Hp) as [Hx Hy].
  exact (Henc p x0 x1 y0 y1 I1 I2 I3 I4 Hx Hy).
Qed.
End ColourspacesOverlay.

(** X14. [colourspaces_CIE_1931_chromaticity_diagram_plot] checks that the
    requested colour matching functions exist and names them in the title,
    but does not pass them on: whichever known [cmfs] is requested, the
    spectral locus drawn is the one of "CIE 1931 2 Degree Standard
    Observer". *)
Theorem colourspaces_plot_draws_the_standard_observer {XYZ}
    (CMFS : dict (cmfs_t XYZ)) (XYZ_to_xy : XYZ -> vec)
    (RGB_COLOURSPACES : dict RGB_Colourspace)
    (POINTER_GAMUT_DATA : list (Q * Q))
    (colourspaces : list string) (cmfs : string) (kwargs : dict pyval)
    (w : world) (requested standard : cmfs_t XYZ) :
  dict_get CMFS cmfs = Some requested ->
  dict_get CMFS "CIE 1931 2 Degree Standard Observer" = Some standard ->
  cmfs_values standard <> [] ->
  closed_locus (map XYZ_to_xy (cmfs_values standard))
    (new_calls w
       (snd (colourspaces_CIE_1931_chromaticity_diagram_plot CMFS XYZ_to_xy
               RGB_COLOURSPACES POINTER_GAMUT_DATA (colourspaces, cmfs)
               kwargs w))).
Proof.
  intros Hreq Hstd Hne.
  destruct (@colourspaces_plot_run XYZ CMFS XYZ_to_xy RGB_COLOURSPACES
              POINTER_GAMUT_DATA colourspaces cmfs kwargs requested w Hreq)
    as (r1 & out1 & Hinner & r2 & out2 & Hrun & _).
  rewrite Hrun. cbn [snd]. rewrite new_calls_app.
  pose proof (@chromaticity_diagram_closed_locus XYZ CMFS
                "CIE_1931_Chromaticity_Diagram" labels_1931 XYZ_to_xy
                (diagram_settings "CIE 1931 Chromaticity Diagram" "CIE x" "CIE y"
                   [-1 # 10; 9 # 10; -1 # 10; 9 # 10]%Q)
                "CIE 1931 2 Degree Standard Observer"
                (colourspaces_settings colourspaces cmfs kwargs)
                (World (requested_size (PTuple [PInt 8; PInt 8])
                          (colourspaces_settings colourspaces cmfs kwargs))
                       (calls w))
                standard Hstd Hne) as Hc.
  rewrite Hinner in Hc. cbn [snd figure_figsize] in Hc.
  change (calls w ++ out1)
    with (calls (World (requested_size (PTuple [PInt 8; PInt 8])
                          (colourspaces_settings colourspaces cmfs kwargs))
                       (calls w)) ++ out1) in Hc.
  rewrite new_calls_app in Hc.
  destruct Hc as (image & rest & ->).
  exists image, (rest ++ out2). reflexivity.
Qed.

(** The other observer requested, the locus of the standard one drawn. *)
Lemma colourspaces_plot_draws_the_standard_observer_witness :
  let w := World DEFAULT_FIGURE_SIZE [] in
  closed_locus (ramp 32)
    (new_calls w
       (snd (colourspaces_CIE_1931_chromaticity_diagram_plot two_observers
               (fun v => v) sample_colourspaces pointer_gamut_sample
               (["linear"], "CIE 1964 10 Degree Standard Observer") [] w))).
Proof.
  cbv zeta.
  rewrite <- (map_id (ramp 32)).
  apply (@colourspaces_plot_draws_the_standard_observer vec two_observers
           (fun v => v) sample_colourspaces pointer_gamut_sample
           ["linear"] "CIE 1964 10 Degree Standard Observer" []
           (World DEFAULT_FIGURE_SIZE []) short_table
           (Cmfs "CIE 1931 2 Degree Standard Observer" (decades 390 32) (ramp 32))
           eq_refl eq_refl).
  discriminate.
Defined.



(** ** The lookups by name *)

Lemma In_keys_dict_get {V} (d : dict V) (k : string) :
  In k (map fst d) <-> dict_get d k <> None.
Proof.
  induction d as [|[k' v] d IH]; cbn [map fst dict_get In].
  - split; [intros [] | intros H; apply H; reflexivity].
  - destruct (String.eqb_spec k k') as [->|Hne].
    + split; [discriminate | intros _; left; reflexivity].
    + rewrite <- IH. split; [intros [E|H]; [congruence | exact H] | tauto].
Qed.

Lemma insert_sorted_NoDup (s : string) (l : list string) :
  ~ In s l -> NoDup l -> NoDup (insert_sorted s l).
Proof.
  induction l as [|x l IH]; intros Hs Hl; cbn [insert_sorted].
  - constructor; [intros [] | constructor].
  - destruct (String.leb s x); [constructor; assumption|].
    inversion Hl as [|? ? Hx Hl']; subst. constructor.
    + intros Hin. apply insert_sorted_In in Hin.
      destruct Hin as [->|Hin]; [apply Hs; left; reflexivity | exact (Hx Hin)].
    + apply IH; [intros Hin; apply Hs; right; exact Hin | exact Hl'].
Qed.

Lemma sorted_NoDup (l : list string) : NoDup l -> NoDup (sorted l).
Proof.
  induction 1 as [|x l Hx Hl IH]; cbn [sorted fold_right]; [constructor|].
  apply insert_sorted_NoDup; [|exact IH].
  intros Hin. exact (Hx (proj1 (sorted_In x l) Hin)).
Qed.

Lemma insert_sorted_ascending (s : string) (l : list string) :
  ascending l = true -> ascending (insert_sorted s l) = true.
Proof.
  induction l as [|x l IH]; intros Hl; [reflexivity|].
  cbn [insert_sorted]. destruct (String.leb s x) eqn:E.
  - change (String.leb s x && ascending (x :: l) = true).
    rewrite E, Hl. reflexivity.
  - assert (Hxs : String.leb x s = true)
      by (destruct (String.leb_total s x); congruence).
    assert (Hl' : ascending l = true).
    { destruct l as [|y l]; [reflexivity|].
      change (String.leb x y && ascending (y :: l) = true) in Hl.
      apply andb_true_iff in Hl. tauto. }
    specialize (IH Hl').
    destruct l as [|y l].
    + cbn [insert_sorted]. cbn. rewrite Hxs. reflexivity.
    + cbn [insert_sorted] in *.
      change (String.leb x y && ascending (y :: l) = true) in Hl.
      apply andb_true_iff in Hl. destruct Hl as [Hxy _].
      destruct (String.leb s y).
      * change (String.leb x s && ascending (s :: y :: l) = true).
        rewrite Hxs, IH. reflexivity.
      * change (String.leb x y && ascending (y :: insert_sorted s l) = true).
        rewrite Hxy, IH. reflexivity.
Qed.

Lemma sorted_ascending (l : list string) : ascending (sorted l) = true.
Proof.
  induction l as [|x l IH]; [reflexivity|].
  cbn [sorted fold_right]. apply insert_sorted_ascending. exact IH.
Qed.

Lemma sorted_keys_of {V} (table : dict V) :
  keys_of table (sorted (dict_keys table)).
Proof.
  unfold keys_of, dict_keys. split; [|split].
  - intros k. rewrite sorted_In, nodup_In. apply In_keys_dict_get.
  - apply sorted_NoDup, NoDup_nodup.
  - apply sorted_ascending.
Qed.

Lemma get_or_KeyError_reports {V} (template : string) (table : dict V)
    (name : string) :
  dict_get table name = None ->
  reports_unknown table name (get_or_KeyError template table name).
Proof.
  intros H. exists template, (sorted (dict_keys table)).
  split; [apply get_or_KeyError_unknown, H | apply sorted_keys_of].
Qed.

(** X16. [_get_illuminant] and [_get_RGB_colourspace] return the entry of
    a known name; for an unknown name they raise a [KeyError] whose
    arguments are that name and the keys of the table, each key once, in
    ascending order. *)
Theorem lookups_report_unknown_names {V W}
    (ILLUMINANTS_RELATIVE_SPDS : dict V) (RGB_COLOURSPACES : dict W)
    (name : string) :
  (forall v, dict_get ILLUMINANTS_RELATIVE_SPDS name = Some v ->
             _get_illuminant ILLUMINANTS_RELATIVE_SPDS name = Ok v)
  /\ (dict_get ILLUMINANTS_RELATIVE_SPDS name = None ->
      reports_unknown ILLUMINANTS_RELATIVE_SPDS name
        (_get_illuminant ILLUMINANTS_RELATIVE_SPDS name))
  /\ (forall v, dict_get RGB_COLOURSPACES name = Some v ->
                _get_RGB_colourspace RGB_COLOURSPACES name = Ok v)
  /\ (dict_get RGB_COLOURSPACES name = None ->
      reports_unknown RGB_COLOURSPACES name
        (_get_RGB_colourspace RGB_COLOURSPACES name)).
Proof.
  unfold _get_illuminant, _get_RGB_colourspace.
  split; [|split; [|split]].
  - intros v H. apply get_or_KeyError_known, H.
  - apply get_or_KeyError_reports.
  - intros v H. apply get_or_KeyError_known, H.
  - apply get_or_KeyError_reports.
Qed.

(** An illuminant and a colourspace that the sample tables lack. *)
Lemma lookups_report_unknown_names_witness :
  reports_unknown [("D65", 1%nat); ("A", 2%nat); ("D65", 3%nat)] "E"
    (_get_illuminant [("D65", 1%nat); ("A", 2%nat); ("D65", 3%nat)] "E")
  /\ reports_unknown sample_colourspaces "sRGB"
       (_get_RGB_colourspace sample_colourspaces "sRGB").
Proof.
  destruct (@lookups_report_unknown_names nat RGB_Colourspace
              [("D65", 1%nat); ("A", 2%nat); ("D65", 3%nat)]
              sample_colourspaces "E") as (_ & H1 & _).
  destruct (@lookups_report_unknown_names nat RGB_Colourspace
              [("D65", 1%nat); ("A", 2%nat); ("D65", 3%nat)]
              sample_colourspaces "sRGB") as (_ & _ & _ & H2).
  split; [apply H1 | apply H2]; reflexivity.
Defined.

(** ** A single colour *)

Lemma kw_float_absent (kwargs : dict pyval) (k : string) (q : Q) :
  dict_get kwargs k = None -> kw_float kwargs k q = Ok q.
Proof. unfold kw_float. intros ->. reflexivity. Qed.



(** ** multi_cmfs_plot, curve by curve *)

Lemma values_hold_extend (values : list Q) (a b : limit_lists) :
  limits_extend a b -> values_hold values a -> values_hold values b.
Proof.
  intros (_ & _ & H3 & H4) (y0 & y1 & I0 & I1 & Hv).
  exists y0, y1. split; [apply H3, I0|]. split; [apply H4, I1 | exact Hv].
Qed.

Lemma x_limits_given_extend (a b : limit_lists) :
  limits_extend a b -> x_limits_given a -> x_limits_given b.
Proof.
  intros (H1 & H2 & _ & _) (x0 & x1 & I0 & I1).
  exists x0, x1. split; [apply H1, I0 | apply H2, I1].
Qed.

Section MultiCmfsCurves.
Variable XYZ : Type.
Variable CMFS : dict (cmfs_t XYZ).
Variable component : string -> XYZ -> Q.
Variable shape : cmfs_t XYZ -> Q * Q * Q.

Lemma axis_items_not_empty (axis : string) (c : cmfs_t XYZ) :
  not_empty_table c -> axis_items component axis c <> [].
Proof.
  unfold not_empty_table, axis_items. intros [Hw Hv].
  destruct (cmfs_wavelengths c); [contradiction|].
  destruct (cmfs_values c); [contradiction|]. discriminate.
Qed.

Lemma cmfs_curve_log (axis name : string) (c : cmfs_t XYZ)
    (limits : limit_lists) (w : world) :
  dict_get CMFS name = Some c ->
  not_empty_table c ->
  exists limits',
    cmfs_curve CMFS component shape axis name limits w
    = (Ok limits',
       World (figure_figsize w) (calls w ++ [axis_curve component axis c]))
    /\ limits_extend limits limits'
    /\ values_hold (map snd (axis_items component axis c)) limits'
    /\ x_limits_given limits'.
Proof.
  intros Hc Hne. unfold cmfs_curve, _get_cmfs. rewrite Hc.
  unfold bind at 1, lift. unfold axis_curve.
  pose proof (@axis_items_not_empty axis c Hne) as Hi.
  destruct (axis_items component axis c) as [|p items] eqn:Ei; [contradiction|].
  destruct (shape c) as [[start end_] steps].
  destruct (@py_min_le (map snd (p :: items)) (snd p) (or_introl eq_refl))
    as (y_min & Hmin & Bmin).
  destruct (@py_max_ge (map snd (p :: items)) (snd p) (or_introl eq_refl))
    as (y_max & Hmax & Bmax).
  rewrite Hmin, Hmax. unfold bind, ret. rewrite call_run.
  eexists. split; [reflexivity|].
  split; [repeat split; cbn; apply incl_appl, incl_refl|].
  split.
  - exists y_min, y_max.
    cbn [y_limit_min y_limit_max].
    split; [apply in_or_app; right; left; reflexivity|].
    split; [apply in_or_app; right; left; reflexivity|].
    intros v Hv. split; [apply Bmin, Hv | apply Bmax, Hv].
  - exists start, end_. cbn [x_limit_min x_limit_max].
    split; apply in_or_app; right; left; reflexivity.
Qed.

Lemma cmfs_curve_unknown (axis name : string) (limits : limit_lists)
    (w : world) :
  dict_get CMFS name = None ->
  cmfs_curve CMFS component shape axis name limits w
  = (Raise (AttributeError "'NoneType' object has no attribute 'CMFS'"), w).
Proof.
  intros Hc. unfold cmfs_curve, _get_cmfs. rewrite Hc. reflexivity.
Qed.

Lemma cmfs_loop_log (axis : string) (names : list string)
    (cs : list (cmfs_t XYZ)) :
  found_in CMFS names cs ->
  Forall not_empty_table cs ->
  forall (limits : limit_lists) (w : world),
  exists limits',
    cmfs_loop CMFS component shape axis names limits w
    = (Ok limits',
       World (figure_figsize w)
             (calls w ++ map (axis_curve component axis) cs))
    /\ limits_extend limits limits'
    /\ (forall c, In c cs ->
          values_hold (map snd (axis_items component axis c)) limits')
    /\ (names <> [] -> x_limits_given limits').
Proof.
  induction 1 as [|name c names cs Hc Hrest IH]; intros Hne limits w.
  - exists limits. cbn. rewrite app_nil_r. destruct w.
    split; [reflexivity|]. split; [apply limits_extend_refl|].
    split; [intros c []|]. intros H. contradiction.
  - inversion Hne as [|? ? Hc1 Hne']; subst.
    cbn [cmfs_loop]. unfold bind at 1.
    destruct (@cmfs_curve_log axis name c limits w Hc Hc1)
      as (l1 & Hrun1 & Hext1 & Hval1 & Hx1).
    rewrite Hrun1.
    destruct (IH Hne' l1 (World (figure_figsize w)
                            (calls w ++ [axis_curve component axis c])))
      as (l2 & Hrun2 & Hext2 & Hval2 & _).
    rewrite Hrun2. cbn [figure_figsize calls map].
    rewrite <- app_assoc. exists l2.
    split; [reflexivity|].
    split; [eapply limits_extend_trans; eassumption|].
    split.
    + intros c' [<-|Hin];
        [eapply values_hold_extend; eassumption | apply Hval2, Hin].
    + intros _. eapply x_limits_given_extend; eassumption.
Qed.

Lemma cmfs_loop_unknown (axis : string) (known : list string)
    (cs : list (cmfs_t XYZ)) (unknown : string) (rest : list string) :
  found_in CMFS known cs ->
  Forall not_empty_table cs ->
  dict_get CMFS unknown = None ->
  forall (limits : limit_lists) (w : world),
  cmfs_loop CMFS component shape axis (known ++ unknown :: rest) limits w
  = (Raise (AttributeError "'NoneType' object has no attribute 'CMFS'"),
     World (figure_figsize w)
           (calls w ++ map (axis_curve component axis) cs)).
Proof.
  intros Hk Hne Hu. induction Hk as [|name c names cs Hc Hrest IH];
    intros limits w.
  - cbn [app cmfs_loop]. unfold bind at 1.
    rewrite (@cmfs_curve_unknown axis unknown limits w Hu).
    cbn. rewrite app_nil_r. destruct w; reflexivity.
  - inversion Hne as [|? ? Hc1 Hne']; subst.
    cbn [app cmfs_loop]. unfold bind at 1.
    destruct (@cmfs_curve_log axis name c limits w Hc Hc1)
      as (l1 & Hrun1 & _).
    rewrite Hrun1, (IH Hne'). cbn [figure_figsize calls map].
    rewrite <- app_assoc. reflexivity.
Qed.

Lemma axes_loop_log (axes : list string) (names : list string)
    (cs : list (cmfs_t XYZ)) :
  found_in CMFS names cs ->
  Forall not_empty_table cs ->
  forall (limits : limit_lists) (w : world),
  exists limits',
    axes_loop CMFS component shape axes names limits w
    = (Ok limits',
       World (figure_figsize w)
             (calls w
              ++ flat_map (fun axis => map (axis_curve component axis) cs) axes))
    /\ limits_extend limits limits'
    /\ (forall axis c, In axis axes -> In c cs ->
          values_hold (map snd (axis_items component axis c)) limits')
    /\ (axes <> [] -> names <> [] -> x_limits_given limits').
Proof.
  intros Hf Hne. induction axes as [|axis axes IH]; intros limits w.
  - exists limits. cbn. rewrite app_nil_r. destruct w.
    split; [reflexivity|]. split; [apply limits_extend_refl|].
    split; [intros axis c []|]. intros H. contradiction.
  - cbn [axes_loop flat_map]. unfold bind at 1.
    destruct (@cmfs_loop_log axis names cs Hf Hne limits w)
      as (l1 & Hrun1 & Hext1 & Hval1 & Hx1).
    rewrite Hrun1.
    destruct (IH l1 (World (figure_figsize w)
                       (calls w ++ map (axis_curve component axis) cs)))
      as (l2 & Hrun2 & Hext2 & Hval2 & _).
    rewrite Hrun2. cbn [figure_figsize calls].
    rewrite <- app_assoc. exists l2.
    split; [reflexivity|].
    split; [eapply limits_extend_trans; eassumption|].
    split.
    + intros a c [<-|Hin] Hc;
        [eapply values_hold_extend; [exact Hext2 | apply Hval1, Hc]
        | apply Hval2; assumption].
    + intros _ Hn. eapply x_limits_given_extend; [exact Hext2 | apply Hx1, Hn].
Qed.
End MultiCmfsCurves.

Lemma filter_all {A} (f : A -> bool) (l : list A) :
  (forall a, In a l -> f a = true) -> filter f l = l.
Proof.
  induction l as [|a l IH]; intros H; cbn; [reflexivity|].
  rewrite (H a (or_introl eq_refl)), IH; [reflexivity|].
  intros b Hb. apply H. right. exact Hb.
Qed.

Lemma axis_curves_are_plots {XYZ} (component : string -> XYZ -> Q)
    (cs : list (cmfs_t XYZ)) (axes : list string) (a : action) :
  In a (flat_map (fun axis => map (axis_curve component axis) cs) axes) ->
  is_Plot a = true /\ is_display a = false.
Proof.
  intros H. apply in_flat_map in H. destruct H as (axis & _ & H).
  apply in_map_iff in H. destruct H as (c & <- & _). split; reflexivity.
Qed.

Lemma multi_cmfs_plot_log {XYZ}
    (CMFS : dict (cmfs_t XYZ)) (component : string -> XYZ -> Q)
    (shape : cmfs_t XYZ -> Q * Q * Q)
    (names : list string) (cs : list (cmfs_t XYZ)) (kwargs : dict pyval)
    (w : world) :
  found_in CMFS names cs ->
  names <> [] ->
  Forall not_empty_table cs ->
  exists sb sa settings x_min x_max y_min y_max,
    multi_cmfs_plot CMFS component shape names kwargs w
    = (Ok true,
       World (figure_figsize w)
             (calls w
              ++ flat_map (fun axis => map (axis_curve component axis) cs)
                   ["x"; "y"; "z"]
              ++ BoundingBox sb :: Aspect sa :: display_calls settings))
    /\ displayed_as_asked kwargs (display_calls settings)
    /\ (dict_get kwargs "limits" = None ->
        attr sb "limits"
        = PTuple [PFloat x_min; PFloat x_max; PFloat y_min; PFloat y_max])
    /\ forall axis c v,
         In axis ["x"; "y"; "z"] -> In c cs ->
         In v (map snd (axis_items component axis c)) ->
         (y_min <= v <= y_max)%Q.
Proof.
  intros Hf Hn Hne. unfold multi_cmfs_plot.
  destruct (@axes_loop_log XYZ CMFS component shape ["x"; "y"; "z"] names cs
              Hf Hne
              {| x_limit_min := []; x_limit_max := [];
                 y_limit_min := []; y_limit_max := [] |} w)
    as (limits & Hrun & _ & Hval & Hx).
  destruct (Hx ltac:(discriminate) Hn) as (x0 & x1 & Ix0 & Ix1).
  assert (Hc : exists c, In c cs).
  { destruct Hf as [|name c names cs]; [contradiction|].
    exists c. left. reflexivity. }
  destruct Hc as (c0 & Hc0).
  destruct (Hval "x" c0 (or_introl eq_refl) Hc0) as (y0 & y1 & Iy0 & Iy1 & _).
  destruct (@py_min_le (x_limit_min limits) x0 Ix0) as (x_min & Hx_min & _).
  destruct (@py_max_ge (x_limit_max limits) x1 Ix1) as (x_max & Hx_max & _).
  destruct (@py_min_le (y_limit_min limits) y0 Iy0) as (y_min & Hy_min & By_min).
  destruct (@py_max_ge (y_limit_max limits) y1 Iy1) as (y_max & Hy_max & By_max).
  unfold bind at 1. rewrite Hrun.
  rewrite Hx_min, Hx_max, Hy_min, Hy_max.
  unfold bind at 1, lift. unfold bind at 1. unfold bind at 1. unfold bind at 1.
  cbv zeta.
  match goal with |- context [bind (bounding_box ?s) _ ?w0] =>
    destruct (decorate_and_display_log s w0) as (sb & sa & Hd & Hsb & _);
    set (settings := s) in *
  end.
  rewrite Hd. cbn [figure_figsize calls]. rewrite <- app_assoc.
  exists sb, sa, settings, x_min, x_max, y_min, y_max.
  split; [reflexivity|].
  split; [subst settings; apply display_calls_update; reflexivity|].
  split.
  - intros Hl. rewrite Hsb.
    + subst settings. rewrite attr_update, Hl. reflexivity.
    + subst settings. rewrite dict_get_update, Hl. discriminate.
  - intros axis c v Ha Hc Hv.
    destruct (Hval axis c Ha Hc) as (a0 & a1 & Ia0 & Ia1 & Hb).
    destruct (Hb v Hv) as [Hlo Hhi]. split.
    + eapply Qle_trans; [apply By_min, Ia0 | exact Hlo].
    + eapply Qle_trans; [exact Hhi | apply By_max, Ia1].
Qed.



(** X19. [multi_cmfs_plot] of an empty list raises
    [ValueError: min() arg is an empty sequence] before any backend call;
    when a name is unknown it raises the [AttributeError] of [_get_cmfs]
    after drawing the x axis curves of the names before it, and nothing
    else: the figure is neither decorated nor displayed. *)
Theorem multi_cmfs_plot_failures {XYZ}
    (CMFS : dict (cmfs_t XYZ)) (component : string -> XYZ -> Q)
    (shape : cmfs_t XYZ -> Q * Q * Q) (kwargs : dict pyval) (w : world) :
  multi_cmfs_plot CMFS component shape [] kwargs w
  = (Raise (ValueError "min() arg is an empty sequence"), w)
  /\ forall known cs unknown rest,
       found_in CMFS known cs ->
       Forall not_empty_table cs ->
       dict_get CMFS unknown = None ->
       let run := multi_cmfs_plot CMFS component shape
                    (known ++ unknown :: rest) kwargs w in
       fst run = Raise (AttributeError "'NoneType' object has no attribute 'CMFS'")
       /\ new_calls w (snd run) = map (axis_curve component "x") cs.
Proof.
  split.
  - destruct w. reflexivity.
  - intros known cs unknown rest Hf Hne Hu. cbv zeta.
    assert (E : multi_cmfs_plot CMFS component shape
                  (known ++ unknown :: rest) kwargs w
                = (Raise (AttributeError
                            "'NoneType' object has no attribute 'CMFS'"),
                   World (figure_figsize w)
                         (calls w ++ map (axis_curve component "x") cs))).
    { unfold multi_cmfs_plot. cbn [axes_loop].
      unfold bind at 1. unfold bind at 1.
      rewrite (@cmfs_loop_unknown XYZ CMFS component shape "x" known cs
                 unknown rest Hf Hne Hu).
      reflexivity. }
    rewrite E. cbn [fst snd]. rewrite new_calls_app. split; reflexivity.
Qed.

(** A name that the sample table lacks, after one that it has. *)
Lemma multi_cmfs_plot_failures_witness :
  let w := World DEFAULT_FIGURE_SIZE [] in
  let run := multi_cmfs_plot sample_cmfs triple_component sample_shape
               ["one"; "three"; "two"] [] w in
  fst run = Raise (AttributeError "'NoneType' object has no attribute 'CMFS'")
  /\ new_calls w (snd run)
     = [axis_curve triple_component "x"
          (Cmfs "one" [400; 500; 600]%Q
             [(1 # 10, 0, 7 # 10); (0, 1, 1 # 10); (1, 6 # 10, 0)]%Q)].
Proof.
  cbv zeta.
  apply (proj2 (@multi_cmfs_plot_failures (Q * Q * Q) sample_cmfs
                  triple_component sample_shape [] (World DEFAULT_FIGURE_SIZE []))
           ["one"]
           [Cmfs "one" [400; 500; 600]%Q
              [(1 # 10, 0, 7 # 10); (0, 1, 1 # 10); (1, 6 # 10, 0)]%Q]
           "three" ["two"]).
  - repeat constructor.
  - repeat constructor; discriminate.
  - reflexivity.
Defined.

(** ** Grid keywords bound to a float or a bool *)

(** A float [across] is taken: a zero one raises the error of the float
    modulo, at the first swatch. *)
Lemma multi_colour_plot_float_across_zero (cp : ColourParameter) (w : world) :
  fst (multi_colour_plot_kw [cp] [("across", PFloat 0)] w)
  = Raise (ZeroDivisionError "float modulo").
Proof. reflexivity. Qed.

(** [across=2.0] draws what [across=2] draws. *)
Lemma multi_colour_plot_float_across_whole (a b c : ColourParameter) (w : world) :
  multi_colour_plot_kw [a; b; c] [("across", PFloat 2)] w
  = multi_colour_plot_kw [a; b; c] [("across", PInt 2)] w.
Proof. reflexivity. Qed.

(** A bool is the int 0 or 1. *)
Lemma multi_colour_plot_bool_keywords (a b : ColourParameter) (w : world) :
  multi_colour_plot_kw [a; b] [("across", PBool true); ("width", PBool true)] w
  = multi_colour_plot_kw [a; b] [("across", PInt 1); ("width", PInt 1)] w.
Proof. reflexivity. Qed.

Lemma multi_colour_plot_across_false (cp : ColourParameter) (w : world) :
  fst (multi_colour_plot_kw [cp] [("across", PBool false)] w)
  = Raise (ZeroDivisionError "integer division or modulo by zero").
Proof. reflexivity. Qed.
